(** * Record normalisation, de-duplication and CSV merge of the
      db_editor / linkStart tools

    A shallow embedding of the data layer of [db_editor.py] and
    [linkStart.py]: the loose JSON reader ([read_json_list],
    [read_json_records]), the per-record normaliser ([norm_one],
    [_normalize_record]), the CSV row reader ([read_csv_rows]) and the
    record operations of [TabEditor] (add, duplicate, delete, save, CSV
    import with its three merge policies).

    Python values are embedded as follows.
    - [str] is a sequence of Unicode code points: [list N].
    - What [json.loads] can return is the inductive [json]; Python's [None]
      is [JNull].
    - A [dict] is an insertion-ordered association list with pairwise
      distinct keys; [d[k] = v] keeps the position of a key already there.
    - A raised exception is [None] of an [option]; [try/except] is a
      [match] on it.
    - [self.index] is a [gmap], the [seen] set a [gset]. *)

From Stdlib Require Import ZArith NArith List Ascii String.
From Stdlib Require Import Decimal DecimalString DecimalN DecimalZ.
From Stdlib Require Import Floats.SpecFloat.
From stdpp Require Import base option list gmap sets.

Local Open Scope N_scope.

(** ** Python runtime: strings, values, dictionaries *)

Module Py.

Abbreviation pystr := (list N).

(** An ASCII literal as a Python string. *)
Definition lit (s : string) : pystr :=
  (fun a => N_of_ascii a) <$> list_ascii_of_string s.

(** [str.isspace] for one code point (CPython's [Py_UNICODE_ISSPACE]). *)
Definition isspace (c : N) : bool :=
  ((9 <=? c) && (c <=? 13)) || ((28 <=? c) && (c <=? 32))
  || (c =? 133) || (c =? 160) || (c =? 5760)
  || ((8192 <=? c) && (c <=? 8202))
  || (c =? 8232) || (c =? 8233) || (c =? 8239) || (c =? 8287) || (c =? 12288).

Fixpoint lstrip_by (p : N -> bool) (s : pystr) : pystr :=
  match s with
  | c :: s' => if p c then lstrip_by p s' else s
  | [] => []
  end.

Definition rstrip_by (p : N -> bool) (s : pystr) : pystr :=
  rev (lstrip_by p (rev s)).

(** [s.strip()] *)
Definition strip (s : pystr) : pystr := rstrip_by isspace (lstrip_by isspace s).

(** Truth value of a string: [bool(s)]. *)
Definition nonempty (s : pystr) : bool :=
  match s with [] => false | _ => true end.

(** [str.splitlines()]: the line boundaries are LF, CR, CRLF, VT, FF, FS,
    GS, RS, NEL, LS and PS; no empty last line is produced. *)
Definition is_linebreak (c : N) : bool :=
  ((10 <=? c) && (c <=? 13)) || ((28 <=? c) && (c <=? 30))
  || (c =? 133) || (c =? 8232) || (c =? 8233).

Fixpoint splitlines_from (cur : pystr) (after_cr : bool) (s : pystr)
  : list pystr :=
  match s with
  | [] => if nonempty cur then [rev cur] else []
  | c :: s' =>
      if after_cr && (c =? 10) then splitlines_from [] false s'
      else if is_linebreak c then rev cur :: splitlines_from [] (c =? 13) s'
      else splitlines_from (c :: cur) false s'
  end.

Definition splitlines (s : pystr) : list pystr := splitlines_from [] false s.

(** Decimal rendering of integers, as [str(i)] and [format] give it. *)
Definition str_of_N (n : N) : pystr := lit (NilEmpty.string_of_uint (N.to_uint n)).
Definition str_of_Z (z : Z) : pystr := lit (NilEmpty.string_of_int (Z.to_int z)).

(** Values produced by [json.loads]. *)
#[warnings="-register-all"]
Inductive json : Type :=
  | JNull
  | JBool (b : bool)
  | JInt (z : Z)
  | JFloat (f : spec_float)
  | JStr (s : pystr)
  | JList (l : list json)
  | JDict (d : list (pystr * json)).

Abbreviation dict := (list (pystr * json)).

(** [bool(v)] *)
Definition truthy (v : json) : bool :=
  match v with
  | JNull => false
  | JBool b => b
  | JInt z => negb (z =? 0)%Z
  | JFloat (S754_zero _) => false
  | JFloat _ => true
  | JStr s => nonempty s
  | JList l => match l with [] => false | _ => true end
  | JDict d => match d with [] => false | _ => true end
  end.

(** [a or b] *)
Definition py_or (a b : json) : json := if truthy a then a else b.

(** [v is None] *)
Definition is_none (v : json) : bool :=
  match v with JNull => true | _ => false end.

Definition pystr_eqb (a b : pystr) : bool := bool_decide (a = b).

(** [k in d] *)
Fixpoint dict_in (k : pystr) (d : dict) : bool :=
  match d with
  | [] => false
  | (k', _) :: d' => pystr_eqb k k' || dict_in k d'
  end.

(** Lookup that tells an absent key from a stored value. *)
Fixpoint dict_lookup (k : pystr) (d : dict) : option json :=
  match d with
  | [] => None
  | (k', v) :: d' => if pystr_eqb k k' then Some v else dict_lookup k d'
  end.

(** [d.get(k, dflt)]; [d.get(k)] is [dict_get k JNull d]. *)
Definition dict_get (k : pystr) (dflt : json) (d : dict) : json :=
  default dflt (dict_lookup k d).

(** [l[i] = x] and [del l[i]] on a list; [None] is [IndexError]. *)
Definition list_set {A} (i : nat) (x : A) (l : list A) : option (list A) :=
  if bool_decide (i < length l)%nat then Some (<[i := x]> l) else None.

Definition list_del {A} (i : nat) (l : list A) : option (list A) :=
  if bool_decide (i < length l)%nat then Some (delete i l) else None.

(** [d[k] = v]: overwrite in place, or append a new key at the end. *)
Fixpoint dict_set (k : pystr) (v : json) (d : dict) : dict :=
  match d with
  | [] => [(k, v)]
  | (k', v') :: d' =>
      if pystr_eqb k k' then (k, v) :: d' else (k', v') :: dict_set k v d'
  end.

(** What the interpreter and its standard library supply.  [json_loads]
    and [json_dump] are [json.loads] and [json.dump(..., indent=2,
    ensure_ascii=False)]; [None] stands for a raised exception.
    [py_repr] is [str(v)] on floats, lists and dicts.  A file holds bytes;
    [text_decode enc] is [open(path, "r", encoding=enc).read()] on its
    content, [utf8_encode] what [open(path, "w", encoding="utf-8")] writes,
    and [can_write path] tells whether [os.makedirs] and [open] succeed. *)
Class Runtime := {
  json_loads : pystr -> option json;
  json_dump : json -> option pystr;
  py_repr : json -> pystr;
  text_decode : pystr -> list N -> option pystr;
  utf8_encode : pystr -> option (list N);
  can_write : pystr -> bool;
}.

(** [str(v)] *)
Definition py_str `{Runtime} (v : json) : pystr :=
  match v with
  | JStr s => s
  | JNull => lit "None"
  | JBool true => lit "True"
  | JBool false => lit "False"
  | JInt z => str_of_Z z
  | _ => py_repr v
  end.

(** [q in s] for two strings: [q] occurs in [s]. *)
Fixpoint has_prefix (q s : pystr) : bool :=
  match q, s with
  | [], _ => true
  | a :: q', b :: s' => (a =? b) && has_prefix q' s'
  | _ :: _, [] => false
  end.

Fixpoint contains (q s : pystr) : bool :=
  has_prefix q s
  || match s with
     | [] => false
     | _ :: s' => contains q s'
     end.

(** What else the interpreter supplies: [str.lower], [str.isalnum] on one
    character and [os.path.join]. *)
Class Platform := {
  str_lower : pystr -> pystr;
  isalnum : N -> bool;
  path_join : pystr -> pystr -> pystr;
}.

End Py.

(** ** db_editor.py *)

Module db_editor.
Import Py.

Abbreviation files := (gmap pystr (list N)).

Definition k_name : pystr := lit "name".
Definition k_title : pystr := lit "title".
Definition k_items : pystr := lit "items".
Definition k_value : pystr := lit "value".
(** The key 名称, by its code points U+540D U+79F0. *)
Definition k_mingcheng : pystr := [21517; 31216].

Definition encodings : list pystr :=
  [lit "utf-8-sig"; lit "utf-8"; lit "gbk"; lit "big5"; lit "ansi";
   lit "iso-8859-1"; lit "latin1"].

(** A field descriptor of [SCHEMAS]: [f["key"]], [f["type"]],
    [f.get("default")], [f.get("required")]. *)
Record field := {
  f_key : pystr;
  f_label : pystr;
  f_type : pystr;
  f_default : option json;
  f_required : bool;
}.

(** The counters reported by [import_csv]. *)
Record counts := {
  added : N;
  updated : N;
  skipped : N;
  renamed : N;
}.

(** [self.records] and [self.index] of a [TabEditor]. *)
Record editor := {
  records : list dict;
  index : gmap pystr nat;
}.

Section code.
Context `{Runtime}.

(** [try_read_text(path)]: the first encoding whose decode succeeds and is
    not blank. A missing file makes every [open] raise. *)
Fixpoint try_read_text_with (encs : list pystr) (fs : files) (path : pystr)
  : option pystr :=
  match encs with
  | [] => None
  | enc :: encs' =>
      match fs !! path ≫= text_decode enc with
      | Some t =>
          if nonempty t && nonempty (strip t) then Some t
          else try_read_text_with encs' fs path
      | None => try_read_text_with encs' fs path
      end
  end.

Definition try_read_text : files -> pystr -> option pystr :=
  try_read_text_with encodings.

(** The copy loop of [norm_one]. *)
Definition copy_entry (out : dict) (kv : pystr * json) : dict :=
  let kk := strip kv.1 in
  if nonempty kk then dict_set kk (if is_none kv.2 then JStr [] else kv.2) out
  else out.

(** [norm_one(rec, fallback_name)]; [None] is Python's [None]. *)
Definition norm_one (rec : json) (fallback_name : json) : option dict :=
  match rec with
  | JDict items =>
      let out := fold_left copy_entry items [] in
      let out :=
        if dict_in k_name out then out
        else
          let nm := py_or (py_or (dict_get k_mingcheng JNull out)
                                 (dict_get k_title JNull out)) fallback_name in
          if is_none nm then out else dict_set k_name (JStr (py_str nm)) out in
      if truthy (dict_get k_name JNull out) then Some out else None
  | JStr s => Some [(k_name, JStr s)]
  | _ => None
  end.

(** [if x: out.append(x)] for [x] a dict or [None]. *)
Definition append_if (out : list dict) (x : option dict) : list dict :=
  match x with
  | Some d => if truthy (JDict d) then out ++ [d] else out
  | None => out
  end.

(** The body of the JSON-Lines loop: a line that fails to parse leaves
    [arr] as it was. *)
Definition jsonl_step (arr : list dict) (line : pystr) : list dict :=
  let line := strip line in
  if negb (nonempty line) then arr
  else
    match json_loads line with
    | Some obj => append_if arr (norm_one obj JNull)
    | None => arr
    end.

(** The dispatch on the shape of the parsed document. *)
Definition records_of_data (data : json) : list dict :=
  match data with
  | JList l => fold_left (fun out it => append_if out (norm_one it JNull)) l []
  | JDict d =>
      match dict_get k_items JNull d with
      | JList l =>
          fold_left (fun out it => append_if out (norm_one it JNull)) l []
      | _ =>
          fold_left
            (fun out kv =>
               append_if out
                 match kv.2 with
                 | JDict _ => norm_one kv.2 (JStr kv.1)
                 | _ => norm_one (JDict [(k_name, JStr kv.1); (k_value, kv.2)])
                          JNull
                 end)
            d []
      end
  | _ => []
  end.

(** [read_json_list] from the point where [text] has been read. *)
Definition records_of_text (text : pystr) : list dict :=
  match json_loads text with
  | None => fold_left jsonl_step (splitlines text) []
  | Some data => records_of_data data
  end.

Definition read_json_list (fs : files) (path : pystr) : list dict :=
  if negb (bool_decide (is_Some (fs !! path))) then []
  else
    match try_read_text fs path with
    | None => []
    | Some text => if negb (nonempty text) then [] else records_of_text text
    end.

(** [write_json_list(path, records)]; [None] when it raises. *)
Definition write_json_list (fs : files) (path : pystr) (recs : list dict)
  : option files :=
  if can_write path then
    text ← json_dump (JList (JDict <$> recs));
    bytes ← utf8_encode text;
    Some (<[path := bytes]> fs)
  else None.

(** [any((c or "").strip() for c in r)] *)
Definition any_nonblank (r : list pystr) : bool :=
  existsb (fun c => nonempty (strip c)) r.

(** The dict built for one data row: header [k] at column [i] maps to
    [r[i]], or to the empty string past the end of the row. *)
Fixpoint row_dict (headers : list pystr) (i : nat) (r : list pystr) (d : dict)
  : dict :=
  match headers with
  | [] => d
  | k :: headers' =>
      row_dict headers' (S i) r
        (if negb (nonempty k) then d
         else dict_set k (JStr (default [] (r !! i))) d)
  end.

(** [headers], from [rows[0]]. *)
Definition csv_headers_of (row0 : list pystr) : list pystr :=
  (fun h => strip (lstrip_by (N.eqb 65279) h)) <$> row0.

(** [data_rows]: [rows[2:]] or [rows[1:]]. *)
Definition csv_data_rows (rows : list (list pystr)) : list (list pystr) :=
  if (2 <=? length rows)%nat && any_nonblank (default [] (rows !! 1%nat))
  then drop 2 rows else drop 1 rows.

(** [read_csv_rows] from the rows the [csv.reader] yields under the first
    encoding that works. *)
Definition read_csv_rows (reader : list (list pystr)) : list dict :=
  let rows : list (list pystr) :=
    (fun r : list pystr => strip <$> r) <$> reader in
  match rows with
  | [] => []
  | row0 :: _ =>
      let headers := csv_headers_of row0 in
      fold_left
        (fun out r =>
           if negb (any_nonblank r) then out
           else out ++ [row_dict headers 0 r []])
        (csv_data_rows rows) []
  end.

(** [str(r.get("name","")).strip()] *)
Definition rec_name (r : dict) : pystr :=
  strip (py_str (dict_get k_name (JStr []) r)).

(** The loop of [apply_records]. *)
Fixpoint dedup_from (seen : gset pystr) (out : list dict) (rs : list dict)
  : list dict :=
  match rs with
  | [] => out
  | r :: rs' =>
      let nm := rec_name r in
      if negb (nonempty nm) then dedup_from seen out rs'
      else if bool_decide (nm ∈ seen) then dedup_from seen out rs'
      else dedup_from ({[nm]} ∪ seen) (out ++ [r]) rs'
  end.

Fixpoint rebuild_index_from (i : nat) (rs : list dict) (idx : gmap pystr nat)
  : gmap pystr nat :=
  match rs with
  | [] => idx
  | r :: rs' =>
      let nm := rec_name r in
      rebuild_index_from (S i) rs'
        (if nonempty nm && negb (bool_decide (is_Some (idx !! nm)))
         then <[nm := i]> idx else idx)
  end.

(** [self.rebuild_index()] *)
Definition rebuild_index (rs : list dict) : gmap pystr nat :=
  rebuild_index_from 0 rs ∅.

Definition with_records (rs : list dict) : editor :=
  {| records := rs; index := rebuild_index rs |}.

Definition apply_records (rs : list dict) : editor :=
  with_records (dedup_from ∅ [] rs).

(** [while new in self.index: i += 1; new = fmt(i)], with the number of
    iterations bounded by [fuel]; [None] when the bound is hit. *)
Fixpoint first_free (fmt : N -> pystr) (idx : gmap pystr nat) (fuel : nat)
  (i : N) : option N :=
  if bool_decide (is_Some (idx !! fmt i)) then
    match fuel with
    | O => None
    | S fuel' => first_free fmt idx fuel' (i + 1)
    end
  else Some i.

(** ["{} (复制{})".format(base, i)]: the two ideographs are U+590D U+5236. *)
Definition copy_name (base : pystr) (i : N) : pystr :=
  base ++ lit " (" ++ [22797; 21046] ++ str_of_N i ++ lit ")".

(** [f"{base} ({i})"] *)
Definition suffix_name (base : pystr) (i : N) : pystr :=
  base ++ lit " (" ++ str_of_N i ++ lit ")".

(** [add_item]; [answer] is what [askstring] returned. *)
Definition add_item (fields : list field) (answer : option pystr) (e : editor)
  : editor :=
  match answer with
  | None => e
  | Some name =>
      if negb (nonempty name) then e
      else
        let name := strip name in
        if negb (nonempty name) then e
        else if bool_decide (is_Some (index e !! name)) then e
        else
          let rec :=
            fold_left
              (fun rec f =>
                 if dict_in (f_key f) rec then rec
                 else dict_set (f_key f)
                        (if negb (pystr_eqb (f_type f) (lit "text"))
                         then default (JStr []) (f_default f) else JStr [])
                        rec)
              fields [(k_name, JStr name)] in
          with_records (records e ++ [rec])
  end.

(** [dup_item]; [sel] is the selected list entry, if any.  As for every
    operation below, [None] is a raised [IndexError] or a loop that hit its
    bound. *)
Definition dup_item (sel : option pystr) (e : editor) : option editor :=
  match sel with
  | None => Some e
  | Some old =>
      match index e !! old with
      | None => Some e
      | Some idx =>
          i ← first_free (copy_name old) (index e) (size (index e)) 2;
          r ← records e !! idx;
          Some (with_records
                  (records e ++ [dict_set k_name (JStr (copy_name old i)) r]))
      end
  end.

(** [del_item]; [confirmed] is the answer of [askyesno]. *)
Definition del_item (sel : option pystr) (confirmed : bool) (e : editor)
  : option editor :=
  match sel with
  | None => Some e
  | Some nm =>
      if negb confirmed then Some e
      else
        match index e !! nm with
        | Some idx => with_records <$> list_del idx (records e)
        | None => Some (with_records (records e))
        end
  end.

(** [save_current_item]; [form] is what [collect_form] returned. *)
Definition save_current_item (fields : list field) (sel : option pystr)
  (form : dict) (e : editor) : option editor :=
  match sel with
  | None => Some e
  | Some old =>
      match index e !! old with
      | None => Some e
      | Some idx =>
          if existsb
               (fun f =>
                  f_required f
                  && negb (nonempty
                             (strip (py_str (dict_get (f_key f) (JStr []) form)))))
               fields
          then Some e
          else
            let new_name := rec_name form in
            if negb (nonempty new_name) then Some e
            else if negb (pystr_eqb new_name old)
                    && bool_decide (is_Some (index e !! new_name)) then Some e
            else with_records <$> list_set idx form (records e)
      end
  end.

(** [nm = str(r.get(name_col,"")).strip()] *)
Definition row_name (name_col : pystr) (r : dict) : pystr :=
  strip (py_str (dict_get name_col (JStr []) r)).

(** [rec = {k: r.get(k, "") for k in field_keys}; rec["name"] = nm] *)
Definition row_record (field_keys : list pystr) (r : dict) (nm : pystr)
  : dict :=
  dict_set k_name (JStr nm)
    (fold_left (fun d k => dict_set k (dict_get k (JStr []) r) d)
       field_keys []).

(** One turn of the loop of [import_csv] over [rows]. *)
Definition import_row (field_keys : list pystr) (name_col st : pystr)
  (ec : editor * counts) (r : dict) : option (editor * counts) :=
  let '(e, c) := ec in
  let nm := row_name name_col r in
  if negb (nonempty nm) then Some ec
  else
    let rec := row_record field_keys r nm in
    match index e !! nm with
    | Some idx =>
        if pystr_eqb st (lit "skip") then
          Some (e, {| added := added c; updated := updated c;
                      skipped := skipped c + 1; renamed := renamed c |})
        else if pystr_eqb st (lit "overwrite") then
          rs ← list_set idx rec (records e);
          Some (with_records rs,
                {| added := added c; updated := updated c + 1;
                   skipped := skipped c; renamed := renamed c |})
        else if pystr_eqb st (lit "rename") then
          i ← first_free (suffix_name nm) (index e) (size (index e)) 2;
          Some (with_records
                  (records e ++ [dict_set k_name (JStr (suffix_name nm i)) rec]),
                {| added := added c; updated := updated c;
                   skipped := skipped c; renamed := renamed c + 1 |})
        else Some (with_records (records e), c)
    | None =>
        Some (with_records (records e ++ [rec]),
              {| added := added c + 1; updated := updated c;
                 skipped := skipped c; renamed := renamed c |})
    end.

Fixpoint import_rows (field_keys : list pystr) (name_col st : pystr)
  (rows : list dict) (ec : editor * counts) : option (editor * counts) :=
  match rows with
  | [] => Some ec
  | r :: rows' =>
      ec' ← import_row field_keys name_col st ec r;
      import_rows field_keys name_col st rows' ec'
  end.

(** The headers of the parsed rows, in order of first appearance. *)
Definition csv_headers (rows : list dict) : list pystr :=
  fold_left
    (fun hs r =>
       fold_left (fun hs k => if bool_decide (k ∈ hs) then hs else hs ++ [k])
         r.*1 hs)
    rows [].

(** [import_csv]; [rows] is what [read_csv_rows] returned, [chosen] the
    column picked in the dialog and [st] the answer of
    [ask_merge_strategy]. *)
Definition import_csv (fields : list field) (rows : list dict)
  (chosen st : pystr) (e : editor) : option (editor * counts) :=
  let zero := {| added := 0; updated := 0; skipped := 0; renamed := 0 |} in
  match rows with
  | [] => Some (e, zero)
  | _ =>
      let name_col :=
        if bool_decide (k_name ∈ csv_headers rows) then k_name
        else strip chosen in
      if negb (nonempty name_col) then Some (e, zero)
      else if negb (nonempty st) then Some (e, zero)
      else import_rows (f_key <$> fields) name_col st rows (e, zero)
  end.

End code.
Section list_pane.
Context `{Runtime} `{Platform}.

(** [filtered_names]; [query] is the content of the search box. *)
Definition filtered_names (query : pystr) (e : editor) : list pystr :=
  let q := str_lower (strip query) in
  let names := rec_name <$> records e in
  if negb (nonempty q) then List.filter nonempty names
  else List.filter (fun n => nonempty n && contains q (str_lower n)) names.

(** [on_select]: the record handed to [fill_form], if any; [sel] is the
    selected list entry. *)
Definition on_select (sel : option pystr) (e : editor) : option dict :=
  match sel with
  | None => None
  | Some nm =>
      match index e !! nm with
      | None => None
      | Some idx => records e !! idx
      end
  end.

End list_pane.
End db_editor.

(** ** linkStart.py *)

Module linkStart.
Import Py.

Section code.
Context `{Runtime}.

Definition encodings : list pystr :=
  [lit "utf-8-sig"; lit "utf-8"; lit "gbk"; lit "big5"; lit "ansi";
   lit "iso-8859-1"; lit "latin1"].

(** [_try_read_text(path)] *)
Fixpoint _try_read_text_with (encs : list pystr) (fs : db_editor.files)
  (path : pystr) : option pystr :=
  match encs with
  | [] => None
  | enc :: encs' =>
      match fs !! path ≫= text_decode enc with
      | Some text =>
          if nonempty text && nonempty (strip text) then Some text
          else _try_read_text_with encs' fs path
      | None => _try_read_text_with encs' fs path
      end
  end.

Definition _try_read_text : db_editor.files -> pystr -> option pystr :=
  _try_read_text_with encodings.

(** The copy loop of [_normalize_record]; a key is never [None] in a
    parsed document, so [if k is None: continue] never fires. *)
Definition copy_entry (out : dict) (kv : pystr * json) : dict :=
  let kk := strip kv.1 in
  if nonempty kk then dict_set kk (if is_none kv.2 then JStr [] else kv.2) out
  else out.

(** [_normalize_record(rec, fallback_name)] *)
Definition _normalize_record (rec : json) (fallback_name : json)
  : option dict :=
  match rec with
  | JDict items =>
      let name := dict_get db_editor.k_name JNull items in
      let name :=
        if negb (truthy name)
        then py_or (py_or (dict_get db_editor.k_mingcheng JNull items)
                          (dict_get db_editor.k_title JNull items))
                   fallback_name
        else name in
      let out := fold_left copy_entry items [] in
      let out :=
        if negb (is_none name) && negb (dict_in db_editor.k_name out)
        then dict_set db_editor.k_name (JStr (py_str name)) out else out in
      if truthy (dict_get db_editor.k_name JNull out) then Some out else None
  | JStr s => Some [(db_editor.k_name, JStr s)]
  | _ => None
  end.

Definition append_if (out : list dict) (x : option dict) : list dict :=
  match x with
  | Some d => if truthy (JDict d) then out ++ [d] else out
  | None => out
  end.

Definition jsonl_step (arr : list dict) (line : pystr) : list dict :=
  let line := strip line in
  if negb (nonempty line) then arr
  else
    match json_loads line with
    | Some obj => append_if arr (_normalize_record obj JNull)
    | None => arr
    end.

(** The list [records] of [read_json_records] before its last loop. *)
Definition records_of_data (data : json) : list dict :=
  match data with
  | JList l =>
      fold_left (fun out it => append_if out (_normalize_record it JNull)) l []
  | JDict d =>
      match dict_get db_editor.k_items JNull d with
      | JList l =>
          fold_left (fun out it => append_if out (_normalize_record it JNull))
            l []
      | _ =>
          fold_left
            (fun out kv =>
               append_if out
                 match kv.2 with
                 | JDict _ => _normalize_record kv.2 (JStr kv.1)
                 | _ =>
                     _normalize_record
                       (JDict [(db_editor.k_name, JStr kv.1);
                               (db_editor.k_value, kv.2)]) JNull
                 end)
            d []
      end
  | _ => []
  end.

(** The closing loop of [read_json_records]. *)
Fixpoint dedup_from (seen : gset pystr) (out : list dict) (rs : list dict)
  : list dict :=
  match rs with
  | [] => out
  | r :: rs' =>
      let nm := strip (py_str (dict_get db_editor.k_name (JStr []) r)) in
      if negb (nonempty nm) then dedup_from seen out rs'
      else if bool_decide (nm ∈ seen) then dedup_from seen out rs'
      else dedup_from ({[nm]} ∪ seen) (out ++ [r]) rs'
  end.

(** [read_json_records] from the point where [text] has been read; the
    JSON-Lines branch returns before the closing loop. *)
Definition records_of_text (text : pystr) : list dict :=
  match json_loads text with
  | None => fold_left jsonl_step (splitlines text) []
  | Some data => dedup_from ∅ [] (records_of_data data)
  end.

Definition read_json_records (fs : db_editor.files) (path : pystr)
  : list dict :=
  if negb (bool_decide (is_Some (fs !! path))) then []
  else
    match _try_read_text fs path with
    | None => []
    | Some text => if negb (nonempty text) then [] else records_of_text text
    end.

End code.
Section dialogs.
Context `{Runtime} `{Platform}.

(** [str(r.get("name", "")).strip()] *)
Definition name_of (r : dict) : pystr :=
  strip (py_str (dict_get db_editor.k_name (JStr []) r)).

(** The loop of [load_name_list]. *)
Fixpoint name_list_from (seen : gset pystr) (names : list pystr)
  (recs : list dict) : list pystr :=
  match recs with
  | [] => names
  | r :: recs' =>
      let nm := name_of r in
      if nonempty nm && negb (bool_decide (nm ∈ seen))
      then name_list_from ({[nm]} ∪ seen) (names ++ [nm]) recs'
      else name_list_from seen names recs'
  end.

(** [load_name_list(path)] *)
Definition load_name_list (fs : db_editor.files) (path : pystr)
  : list pystr :=
  name_list_from ∅ [] (read_json_records fs path).

(** The entries that [SelectDialog] puts in its list box, at creation and
    in [_reload]. *)
Definition listbox_names (records : list dict) : list pystr :=
  fold_left
    (fun box r => let nm := name_of r in if nonempty nm then box ++ [nm] else box)
    records [].

(** The loop of [on_list_select]: the first record whose trimmed name is
    [nm]. *)
Fixpoint find_by_name (nm : pystr) (records : list dict) : option dict :=
  match records with
  | [] => None
  | r :: records' =>
      if pystr_eqb (name_of r) nm then Some r else find_by_name nm records'
  end.

(** [on_list_select]: the record handed to [show_detail]; [sel] is the
    selected list entry. *)
Definition on_list_select (sel : option pystr) (records : list dict)
  : option dict :=
  match sel with
  | None => None
  | Some nm => find_by_name nm records
  end.

(** [keys.remove("name")]: the first occurrence goes. *)
Fixpoint remove_first (k : pystr) (keys : list pystr) : list pystr :=
  match keys with
  | [] => []
  | k' :: keys' => if pystr_eqb k' k then keys' else k' :: remove_first k keys'
  end.

(** The keys in the order [show_detail] prints them. *)
Definition detail_keys (rec : dict) : list pystr :=
  let keys := rec.*1 in
  if bool_decide (db_editor.k_name ∈ keys)
  then db_editor.k_name :: remove_first db_editor.k_name keys
  else keys.

(** ["\n".join(lines)] *)
Fixpoint join_lines (lines : list pystr) : pystr :=
  match lines with
  | [] => []
  | [l] => l
  | l :: lines' => l ++ [10] ++ join_lines lines'
  end.

(** The text [show_detail] inserts for a record: one line per key, the
    key, a full-width colon (U+FF1A) and [str] of the value. *)
Definition detail_text (rec : dict) : pystr :=
  join_lines
    ((fun k => k ++ [65306] ++ py_str (dict_get k (JStr []) rec))
       <$> detail_keys rec).

(** The text shown when no record is selected: （未选中）. *)
Definition unselected : pystr := [65288; 26410; 36873; 20013; 65289].

(** [show_detail(rec)]: the content of the detail pane afterwards. *)
Definition show_detail (rec : option dict) : pystr :=
  match rec with
  | Some r => if truthy (JDict r) then detail_text r else unselected
  | None => unselected
  end.

(** The state [on_list_select] gives the button that chooses the entry. *)
Definition choose_enabled (rec : option dict) : bool :=
  match rec with
  | Some r => truthy (JDict r)
  | None => false
  end.

(** The columns of a tab of [DataBrowser]: every key, in the order of
    first appearance. *)
Fixpoint browser_columns_from (seen : gset pystr) (cols : list pystr)
  (keys : list pystr) : gset pystr * list pystr :=
  match keys with
  | [] => (seen, cols)
  | k :: keys' =>
      if bool_decide (k ∈ seen) then browser_columns_from seen cols keys'
      else browser_columns_from ({[k]} ∪ seen) (cols ++ [k]) keys'
  end.

Definition browser_columns (recs : list dict) : list pystr :=
  (fold_left (fun sc r => browser_columns_from sc.1 sc.2 r.*1) recs (∅, [])).2.

(** The values of one line of the table: [[r.get(c, "") for c in cols]]. *)
Definition browser_row (cols : list pystr) (r : dict) : list json :=
  (fun c => dict_get c (JStr []) r) <$> cols.

(** The name of the file of a character. *)
Definition safe_name (name : pystr) : pystr :=
  let kept :=
    rstrip_by isspace
      (List.filter
         (fun c => isalnum c || (c =? 32) || (c =? 95) || (c =? 45)) name) in
  if nonempty kept then kept else lit "Unnamed".

(** The five variables of the form of [App]. *)
Record form := {
  var_name : pystr;
  var_player : pystr;
  var_race : pystr;
  var_class : pystr;
  var_background : pystr;
}.

(** What [refresh_dropdowns] sets a variable to: the current value when
    it is listed, else the first name listed, else the empty string. *)
Definition kept_choice (cur : pystr) (names : list pystr) : pystr :=
  if bool_decide (cur ∈ names) then cur
  else match names with
       | nm :: _ => nm
       | [] => []
       end.

(** [refresh_dropdowns]: the form afterwards; the three lists read are the
    values of the three drop-downs. *)
Definition refresh_dropdowns (races_json classes_json backgrounds_json : pystr)
  (fs : db_editor.files) (f : form) : form :=
  {| var_name := var_name f;
     var_player := var_player f;
     var_race := kept_choice (var_race f) (load_name_list fs races_json);
     var_class := kept_choice (var_class f) (load_name_list fs classes_json);
     var_background :=
       kept_choice (var_background f) (load_name_list fs backgrounds_json) |}.

(** [self.model.update({...})] of [save_character]. *)
Definition updated_model (f : form) (model : dict) : dict :=
  dict_set (lit "background") (JStr (strip (var_background f)))
    (dict_set (lit "class") (JStr (strip (var_class f)))
       (dict_set (lit "race") (JStr (strip (var_race f)))
          (dict_set (lit "player") (JStr (strip (var_player f)))
             (dict_set db_editor.k_name (JStr (strip (var_name f))) model)))).

(** The path [save_character] writes to. *)
Definition character_path (char_dir : pystr) (f : form) : pystr :=
  path_join char_dir (safe_name (strip (var_name f)) ++ lit ".json").

(** [save_character]: the model and the files afterwards, and whether the
    save was reported as done. [overwrite] is the answer of [askyesno];
    [partial] is what a write that raised after the file was opened left
    in that file, the other files being out of its reach. *)
Definition save_character (char_dir : pystr) (f : form) (overwrite : bool)
  (partial : list N) (model : dict) (fs : db_editor.files)
  : dict * db_editor.files * bool :=
  let name := strip (var_name f) in
  if negb (nonempty name) then (model, fs, false)
  else
    let model' := updated_model f model in
    let path := character_path char_dir f in
    if bool_decide (is_Some (fs !! path)) && negb overwrite
    then (model', fs, false)
    else if negb (can_write path) then (model', fs, false)
    else
      match json_dump (JDict model') ≫= utf8_encode with
      | Some bytes => (model', <[path := bytes]> fs, true)
      | None => (model', <[path := partial]> fs, false)
      end.

(** [load_character]: the model afterwards; [path] is the answer of the
    file dialog, [None] when it was dismissed. *)
Definition load_character (path : option pystr) (model : dict)
  (fs : db_editor.files) : dict :=
  match path with
  | None => model
  | Some p =>
      if negb (nonempty p) then model
      else
        match (fs !! p ≫= text_decode (lit "utf-8")) ≫= json_loads with
        | Some (JDict data) => data
        | Some _ => model
        | None => model
        end
  end.

End dialogs.
End linkStart.

(** ** A reference runtime

    An executable instance of [Py.Runtime], used to run the code on
    concrete files: strict UTF-8 (with and without signature) and Latin-1
    decoding with universal newlines, and the [json] module on documents
    without fractional or exponent numbers.  The codecs gbk, big5 and ansi
    are absent from it ([open] raises), finite non-zero floats are neither
    parsed nor printed, and [str] of a float or a container is not
    rendered. *)

Module Ref.
Import Py.

Definition utf8_encode_char (c : N) : option (list N) :=
  if c <? 128 then Some [c]
  else if c <? 2048 then Some [192 + c / 64; 128 + c mod 64]
  else if (55296 <=? c) && (c <=? 57343) then None
  else if c <? 65536 then
    Some [224 + c / 4096; 128 + (c / 64) mod 64; 128 + c mod 64]
  else if c <? 1114112 then
    Some [240 + c / 262144; 128 + (c / 4096) mod 64; 128 + (c / 64) mod 64;
          128 + c mod 64]
  else None.

Fixpoint utf8_encode (s : pystr) : option (list N) :=
  match s with
  | [] => Some []
  | c :: s' =>
      match utf8_encode_char c, utf8_encode s' with
      | Some b, Some bs => Some (b ++ bs)
      | _, _ => None
      end
  end.

Definition is_cont (b : N) : bool := (128 <=? b) && (b <? 192).

(** Strict UTF-8: no overlong forms, no surrogates, nothing above
    U+10FFFF. [need] continuation bytes are still expected for the code
    point accumulated in [acc], whose smallest legal value is [lo]. *)
Fixpoint utf8_decode_from (need : nat) (acc lo : N) (bs : list N)
  : option pystr :=
  match bs with
  | [] => match need with O => Some [] | S _ => None end
  | b :: bs' =>
      match need with
      | S O =>
          let c := acc * 64 + (b - 128) in
          if is_cont b && (lo <=? c) && (c <? 1114112)
             && negb ((55296 <=? c) && (c <=? 57343))
          then cons c <$> utf8_decode_from 0 0 0 bs' else None
      | S need' =>
          if is_cont b then utf8_decode_from need' (acc * 64 + (b - 128)) lo bs'
          else None
      | O =>
          if b <? 128 then cons b <$> utf8_decode_from 0 0 0 bs'
          else if (194 <=? b) && (b <? 224) then
            utf8_decode_from 1 (b - 192) 128 bs'
          else if (224 <=? b) && (b <? 240) then
            utf8_decode_from 2 (b - 224) 2048 bs'
          else if (240 <=? b) && (b <? 245) then
            utf8_decode_from 3 (b - 240) 65536 bs'
          else None
      end
  end.

Definition utf8_decode : list N -> option pystr := utf8_decode_from 0 0 0.

(** Universal newlines of text-mode reading: CRLF and CR become LF. *)
Fixpoint universal_newlines (after_cr : bool) (s : pystr) : pystr :=
  match s with
  | [] => []
  | c :: s' =>
      if c =? 13 then 10 :: universal_newlines true s'
      else if after_cr && (c =? 10) then universal_newlines false s'
      else c :: universal_newlines false s'
  end.

Definition text_decode (enc : pystr) (bs : list N) : option pystr :=
  if pystr_eqb enc (lit "utf-8-sig") then
    universal_newlines false <$>
      utf8_decode match bs with 239 :: 187 :: 191 :: bs' => bs' | _ => bs end
  else if pystr_eqb enc (lit "utf-8") then
    universal_newlines false <$> utf8_decode bs
  else if pystr_eqb enc (lit "iso-8859-1") || pystr_eqb enc (lit "latin1") then
    if forallb (fun b => b <? 256) bs then Some (universal_newlines false bs)
    else None
  else None.

(** *** The parser of [json.loads] *)

Definition is_ws (c : N) : bool :=
  (c =? 32) || (c =? 9) || (c =? 10) || (c =? 13).

Definition skip_ws : pystr -> pystr := lstrip_by is_ws.

Definition is_digit (c : N) : bool := (48 <=? c) && (c <=? 57).

Definition hex_val (c : N) : option N :=
  if is_digit c then Some (c - 48)
  else if (97 <=? c) && (c <=? 102) then Some (c - 87)
  else if (65 <=? c) && (c <=? 70) then Some (c - 55)
  else None.

Definition hex4 (s : pystr) : option (N * pystr) :=
  match s with
  | a :: b :: c :: d :: s' =>
      match hex_val a, hex_val b, hex_val c, hex_val d with
      | Some a, Some b, Some c, Some d =>
          Some (((a * 16 + b) * 16 + c) * 16 + d, s')
      | _, _, _, _ => None
      end
  | _ => None
  end.

(** The body of a string literal, after its opening quote. *)
Fixpoint scan_string (fuel : nat) (acc s : pystr) : option (pystr * pystr) :=
  match fuel with
  | O => None
  | S fuel =>
      match s with
      | [] => None
      | 34 :: s' => Some (rev acc, s')
      | 92 :: e :: s' =>
          if e =? 117 then
            match hex4 s' with
            | Some (u, s1) =>
                match s1 with
                | 92 :: 117 :: s2 =>
                    if (55296 <=? u) && (u <=? 56319) then
                      match hex4 s2 with
                      | Some (u2, s3) =>
                          if (56320 <=? u2) && (u2 <=? 57343)
                          then scan_string fuel
                                 (65536 + (u - 55296) * 1024 + (u2 - 56320)
                                  :: acc) s3
                          else scan_string fuel (u :: acc) s1
                      | None => None
                      end
                    else scan_string fuel (u :: acc) s1
                | _ => scan_string fuel (u :: acc) s1
                end
            | None => None
            end
          else
            match
              (if e =? 34 then Some 34 else if e =? 92 then Some 92
               else if e =? 47 then Some 47 else if e =? 98 then Some 8
               else if e =? 102 then Some 12 else if e =? 110 then Some 10
               else if e =? 114 then Some 13 else if e =? 116 then Some 9
               else None)
            with
            | Some c => scan_string fuel (c :: acc) s'
            | None => None
            end
      | c :: s' => if c <? 32 then None else scan_string fuel (c :: acc) s'
      end
  end.

Fixpoint scan_digits (acc : N) (s : pystr) : N * pystr :=
  match s with
  | c :: s' => if is_digit c then scan_digits (acc * 10 + (c - 48)) s' else (acc, s)
  | [] => (acc, [])
  end.

(** Whether a fraction or an exponent follows the integer part. *)
Definition float_follows (s : pystr) : bool :=
  match s with
  | 46 :: d :: _ => is_digit d
  | e :: s' =>
      ((e =? 101) || (e =? 69))
      && match s' with
         | d :: s'' =>
             is_digit d
             || (((d =? 43) || (d =? 45))
                 && match s'' with d' :: _ => is_digit d' | [] => false end)
         | [] => false
         end
  | [] => false
  end.

(** An integer literal: [0] or a non-zero digit and more digits. *)
Definition scan_number (neg : bool) (s : pystr) : option (json * pystr) :=
  match s with
  | d :: s' =>
      if negb (is_digit d) then None
      else
        let '(n, rest) := if d =? 48 then (0, s') else scan_digits 0 s in
        if float_follows rest then None
        else Some (JInt (if neg then - Z.of_N n else Z.of_N n)%Z, rest)
  | [] => None
  end.

Definition starts_with (p s : pystr) : option pystr :=
  if bool_decide (take (length p) s = p) then Some (drop (length p) s)
  else None.

Fixpoint parse_value (fuel : nat) (s : pystr) : option (json * pystr) :=
  match fuel with
  | O => None
  | S fuel =>
      match s with
      | [] => None
      | c :: s' =>
          if c =? 34 then
            match scan_string (S (length s')) [] s' with
            | Some (str, rest) => Some (JStr str, rest)
            | None => None
            end
          else if c =? 123 then
            let s1 := skip_ws s' in
            match s1 with
            | 125 :: rest => Some (JDict [], rest)
            | 34 :: s2 =>
                match parse_members fuel [] s2 with
                | Some (d, rest) => Some (JDict d, rest)
                | None => None
                end
            | _ => None
            end
          else if c =? 91 then
            let s1 := skip_ws s' in
            match s1 with
            | 93 :: rest => Some (JList [], rest)
            | _ =>
                match parse_elems fuel [] s1 with
                | Some (l, rest) => Some (JList l, rest)
                | None => None
                end
            end
          else if c =? 45 then
            match starts_with (lit "Infinity") s' with
            | Some rest => Some (JFloat (S754_infinity true), rest)
            | None => scan_number true s'
            end
          else if is_digit c then scan_number false s
          else
            match starts_with (lit "null") s with
            | Some rest => Some (JNull, rest)
            | None =>
            match starts_with (lit "true") s with
            | Some rest => Some (JBool true, rest)
            | None =>
            match starts_with (lit "false") s with
            | Some rest => Some (JBool false, rest)
            | None =>
            match starts_with (lit "NaN") s with
            | Some rest => Some (JFloat S754_nan, rest)
            | None =>
            match starts_with (lit "Infinity") s with
            | Some rest => Some (JFloat (S754_infinity false), rest)
            | None => None
            end end end end end
      end
  end

(** The elements of an array, from the first one on. *)
with parse_elems (fuel : nat) (acc : list json) (s : pystr)
  : option (list json * pystr) :=
  match fuel with
  | O => None
  | S fuel =>
      match parse_value fuel s with
      | Some (v, rest) =>
          match skip_ws rest with
          | 93 :: rest' => Some (rev (v :: acc), rest')
          | 44 :: rest' => parse_elems fuel (v :: acc) (skip_ws rest')
          | _ => None
          end
      | None => None
      end
  end

(** The members of an object, from just after the opening quote of a key;
    a repeated key keeps its first position and takes the last value. *)
with parse_members (fuel : nat) (acc : dict) (s : pystr)
  : option (dict * pystr) :=
  match fuel with
  | O => None
  | S fuel =>
      match scan_string (S (length s)) [] s with
      | Some (k, rest) =>
          match skip_ws rest with
          | 58 :: rest1 =>
              match parse_value fuel (skip_ws rest1) with
              | Some (v, rest2) =>
                  match skip_ws rest2 with
                  | 125 :: rest3 => Some (dict_set k v acc, rest3)
                  | 44 :: rest3 =>
                      match skip_ws rest3 with
                      | 34 :: rest4 => parse_members fuel (dict_set k v acc) rest4
                      | _ => None
                      end
                  | _ => None
                  end
              | None => None
              end
          | _ => None
          end
      | None => None
      end
  end.

Definition json_loads (s : pystr) : option json :=
  match s with
  | 65279 :: _ => None
  | _ =>
      match parse_value (2 * length s + 2) (skip_ws s) with
      | Some (v, rest) =>
          match skip_ws rest with [] => Some v | _ => None end
      | None => None
      end
  end.

(** *** The printer of [json.dump(..., indent=2, ensure_ascii=False)] *)

Definition hex_digit (n : N) : N := if n <? 10 then 48 + n else 87 + n.

Definition dump_char (c : N) : pystr :=
  if c =? 34 then [92; 34]
  else if c =? 92 then [92; 92]
  else if c =? 10 then [92; 110]
  else if c =? 13 then [92; 114]
  else if c =? 9 then [92; 116]
  else if c =? 8 then [92; 98]
  else if c =? 12 then [92; 102]
  else if c <? 32 then
    [92; 117; 48; 48; hex_digit (c / 16); hex_digit (c mod 16)]
  else [c].

Definition dump_string (s : pystr) : pystr :=
  [34] ++ concat (dump_char <$> s) ++ [34].

(** [nl] is the line break followed by the indentation of the enclosing
    level. *)
Fixpoint dump_at (nl : pystr) (v : json) : option pystr :=
  match v with
  | JNull => Some (lit "null")
  | JBool true => Some (lit "true")
  | JBool false => Some (lit "false")
  | JInt z => Some (str_of_Z z)
  | JFloat S754_nan => Some (lit "NaN")
  | JFloat (S754_infinity false) => Some (lit "Infinity")
  | JFloat (S754_infinity true) => Some (lit "-Infinity")
  | JFloat (S754_zero false) => Some (lit "0.0")
  | JFloat (S754_zero true) => Some (lit "-0.0")
  | JFloat (S754_finite _ _ _) => None
  | JStr s => Some (dump_string s)
  | JList [] => Some (lit "[]")
  | JList l =>
      let nl' := nl ++ lit "  " in
      match
        (fix items (l : list json) : option pystr :=
           match l with
           | [] => Some []
           | x :: l' =>
               match dump_at nl' x, items l' with
               | Some a, Some b =>
                   Some (a ++ match l' with
                              | [] => []
                              | _ => lit "," ++ nl' ++ b
                              end)
               | _, _ => None
               end
           end) l
      with
      | Some body => Some (lit "[" ++ nl' ++ body ++ nl ++ lit "]")
      | None => None
      end
  | JDict [] => Some (lit "{}")
  | JDict d =>
      let nl' := nl ++ lit "  " in
      match
        (fix items (d : dict) : option pystr :=
           match d with
           | [] => Some []
           | (k, x) :: d' =>
               match dump_at nl' x, items d' with
               | Some a, Some b =>
                   Some (dump_string k ++ lit ": " ++ a
                         ++ match d' with
                            | [] => []
                            | _ => lit "," ++ nl' ++ b
                            end)
               | _, _ => None
               end
           end) d
      with
      | Some body => Some (lit "{" ++ nl' ++ body ++ nl ++ lit "}")
      | None => None
      end
  end.

Definition json_dump : json -> option pystr := dump_at [10].

Definition runtime : Runtime := {|
  Py.json_loads := json_loads;
  Py.json_dump := json_dump;
  Py.py_repr := fun _ => lit "<object>";
  Py.text_decode := text_decode;
  Py.utf8_encode := utf8_encode;
  Py.can_write := fun _ => true;
|}.

(** An instance of [Py.Platform] for ASCII text and the CJK unified
    ideographs: letters outside these are left as they are by [str_lower]
    and are not alphanumeric; paths are joined as on POSIX. *)
Definition lower_char (c : N) : N :=
  if (65 <=? c) && (c <=? 90) then c + 32 else c.

Definition isalnum (c : N) : bool :=
  is_digit c || ((65 <=? c) && (c <=? 90)) || ((97 <=? c) && (c <=? 122))
  || ((19968 <=? c) && (c <=? 40959)).

Definition path_join (a b : pystr) : pystr :=
  match b with
  | 47 :: _ => b
  | _ =>
      match rev a with
      | [] => b
      | 47 :: _ => a ++ b
      | _ => a ++ [47] ++ b
      end
  end.

Definition platform : Platform := {|
  Py.str_lower := fun s => lower_char <$> s;
  Py.isalnum := isalnum;
  Py.path_join := path_join;
|}.

(** A UTF-8 literal of the development as a Python string. *)
Definition u (s : string) : pystr :=
  default [] (utf8_decode (lit s)).

(** The same with every apostrophe read as a double quote and every
    vertical bar as a line feed, to spell JSON texts. *)
Definition jtext (s : string) : pystr :=
  (fun c => if c =? 39 then 34 else if c =? 124 then 10 else c) <$> u s.

End Ref.

(** ** Vocabulary of the statements *)

Module Spec.
Import Py db_editor.

(** The first character, if any, is not one that [p] strips. *)
Definition head_kept (p : N -> bool) (s : pystr) : Prop :=
  match s with
  | c :: _ => p c = false
  | [] => True
  end.

(** [None] replaced by the empty string. *)
Definition denull (v : json) : json := if is_none v then JStr [] else v.

(** The entries of a mapping whose trimmed key is not empty, in their
    order, with the key trimmed and [None] replaced. *)
Definition copied (items : dict) : dict :=
  (fun kv => (strip kv.1, denull kv.2))
    <$> filter (fun kv : pystr * json => strip kv.1 <> []) items.

(** No two keys of the mapping are equal once trimmed, empty trimmed keys
    apart. *)
Definition distinct_after_trim (items : dict) : Prop :=
  NoDup (copied items).*1.

(** The record [out] holds every entry of [items] whose trimmed key is
    not empty. *)
Definition copies_every_entry (items out : dict) : Prop :=
  forall k v, (k, v) ∈ items -> strip k <> [] -> (strip k, denull v) ∈ out.

(** A value is not a mapping, or it is a mapping (with pairwise distinct
    keys, as every [dict]) in which a key that trims to 名称 or to title is
    that key itself. *)
Definition alias_free (v : json) : Prop :=
  match v with
  | JDict items =>
      NoDup items.*1
      /\ Forall (fun k => strip k = k_mingcheng \/ strip k = k_title ->
                          strip k = k) items.*1
  | _ => True
  end.

#[export] Instance alias_free_dec v : Decision (alias_free v).
Proof. destruct v; simpl; apply _. Defined.

(** A mapping with a key that trims to [name]. *)
Definition has_name_key (v : json) : Prop :=
  match v with
  | JDict items => Exists (fun k => strip k = k_name) items.*1
  | _ => False
  end.

#[export] Instance has_name_key_dec v : Decision (has_name_key v).
Proof. destruct v; simpl; apply _. Defined.

(** A string made of white space only, the empty string included. *)
Definition blank (s : pystr) : Prop := Forall (fun ch => isspace ch = true) s.

(** A row with a cell that is not blank. *)
Definition has_nonblank_cell (r : list pystr) : Prop :=
  Exists (fun c => ~ blank c) r.

(** A row whose cells are all blank. *)
Definition entirely_blank (r : list pystr) : Prop := Forall blank r.

#[export] Instance blank_dec s : Decision (blank s).
Proof. unfold blank. apply _. Defined.

#[export] Instance has_nonblank_cell_dec r : Decision (has_nonblank_cell r).
Proof. unfold has_nonblank_cell. apply _. Defined.

#[export] Instance entirely_blank_dec r : Decision (entirely_blank r).
Proof. unfold entirely_blank. apply _. Defined.

#[export] Instance distinct_after_trim_dec items :
  Decision (distinct_after_trim items).
Proof. unfold distinct_after_trim. apply _. Defined.

Section with_runtime.
Context `{Runtime}.

(** The index is the one [rebuild_index] computes from the records, as
    after every operation of the editor. *)
Definition in_step (e : editor) : Prop :=
  index e = rebuild_index (records e).

(** A function [dd] from record lists to record lists keeps the first
    record of each trimmed name: a record is kept exactly when no earlier
    record has its trimmed name.  [dd] is determined by this. *)
Definition keeps_first_of_each_name (dd : list dict -> list dict) : Prop :=
  dd [] = []
  /\ forall rs r,
       dd (rs ++ [r])
       = if decide (rec_name r ∉ (rec_name <$> rs)) then dd rs ++ [r]
         else dd rs.

(** The same for the names that are not blank, records with a blank
    trimmed name being dropped. *)
Definition keeps_first_of_each_nonblank_name (dd : list dict -> list dict)
  : Prop :=
  dd [] = []
  /\ forall rs r,
       dd (rs ++ [r])
       = if decide (rec_name r <> [] /\ rec_name r ∉ (rec_name <$> rs))
         then dd rs ++ [r] else dd rs.

(** What one line of a JSON-Lines text contributes: nothing when it is
    blank, fails to parse or fails to normalise. *)
Definition line_record (line : pystr) : option dict :=
  if nonempty (strip line)
  then json_loads (strip line) ≫= fun obj => norm_one obj JNull
  else None.

(** A record as the normaliser leaves it: distinct, trimmed, non-empty
    keys, no [None] value and a truthy name. *)
Definition canonical (r : dict) : Prop :=
  NoDup r.*1
  /\ Forall (fun kv : pystr * json =>
               strip kv.1 = kv.1 /\ kv.1 <> [] /\ is_none kv.2 = false) r
  /\ truthy (dict_get k_name JNull r) = true.

#[export] Instance canonical_dec r : Decision (canonical r).
Proof. unfold canonical. apply _. Defined.

(** What the library does with the document [doc]: it is printed and
    encoded without error, the bytes decode to the printed text under the
    first encoding tried, the text is not blank and parses to [doc]. *)
Definition library_round_trip (doc : json) : Prop :=
  exists text bytes,
    json_dump doc = Some text
    /\ utf8_encode text = Some bytes
    /\ text_decode (lit "utf-8-sig") bytes = Some text
    /\ strip text <> []
    /\ json_loads text = Some doc.

(** What the library does with a document written as UTF-8 and read back
    as UTF-8: it is printed and encoded without error, the bytes decode to
    the printed text and the text parses to the document. *)
Definition utf8_round_trip (doc : json) : Prop :=
  exists text bytes,
    json_dump doc = Some text
    /\ utf8_encode text = Some bytes
    /\ text_decode (lit "utf-8") bytes = Some text
    /\ json_loads text = Some doc.

(** The invariant of the editor: the index is in step and no two records
    have the same trimmed name. *)
Definition distinct_names (e : editor) : Prop :=
  in_step e /\ NoDup (rec_name <$> records e).

#[export] Instance distinct_names_dec e : Decision (distinct_names e).
Proof. unfold distinct_names, in_step. apply _. Defined.

(** What the user can do in a tab, with the answers given to the dialogs
    and the entry selected in the list. *)
Inductive action : Type :=
  | Add (answer : option pystr)
  | Duplicate (sel : option pystr)
  | Delete (sel : option pystr) (confirmed : bool)
  | SaveEdit (sel : option pystr) (form : dict)
  | ImportCsv (rows : list dict) (chosen st : pystr).

(** The command bound to each button. *)
Definition run (fields : list field) (a : action) (e : editor)
  : option editor :=
  match a with
  | Add answer => Some (add_item fields answer e)
  | Duplicate sel => dup_item sel e
  | Delete sel confirmed => del_item sel confirmed e
  | SaveEdit sel form => save_current_item fields sel form e
  | ImportCsv rows chosen st => fst <$> import_csv fields rows chosen st e
  end.

(** The value [add_item] gives a field. *)
Definition field_default (f : field) : json :=
  if negb (pystr_eqb (f_type f) (lit "text"))
  then default (JStr []) (f_default f) else JStr [].

(** The number of rows that [import_csv] has counted. *)
Definition total (c : counts) : N :=
  added c + updated c + skipped c + renamed c.

(** One of the three answers of [ask_merge_strategy]. *)
Definition policy (st : pystr) : Prop :=
  st = lit "overwrite" \/ st = lit "skip" \/ st = lit "rename".

(** The rows whose name under the column [nc] is not blank. *)
Definition named_rows (nc : pystr) (rows : list dict) : list dict :=
  filter (fun r => row_name nc r <> []) rows.

(** The states of a tab: what the initial load installs from the data
    file, and what the actions of the user lead to from there. *)
Inductive reachable (fields : list field) : editor -> Prop :=
  | reach_load (fs : files) (path : pystr) :
      reachable fields (apply_records (read_json_list fs path))
  | reach_run (a : action) (e e' : editor) :
      reachable fields e -> run fields a e = Some e' -> reachable fields e'.

End with_runtime.
End Spec.

(** ** Sample data *)

Module Examples.
Import Py db_editor Spec.

(** The fields of the one schema of [SCHEMAS]. *)
Definition race_fields : list field :=
  [ {| f_key := lit "name"; f_label := Ref.u "名称"; f_type := lit "str";
       f_default := None; f_required := true |};
    {| f_key := lit "desc"; f_label := Ref.u "描述"; f_type := lit "text";
       f_default := None; f_required := false |};
    {| f_key := lit "speed"; f_label := Ref.u "速度"; f_type := lit "int";
       f_default := Some (JInt 30); f_required := false |};
    {| f_key := lit "size"; f_label := Ref.u "体型"; f_type := lit "enum";
       f_default := Some (JStr (lit "Medium")); f_required := false |};
    {| f_key := lit "darkvision"; f_label := Ref.u "黑暗视觉";
       f_type := lit "int"; f_default := Some (JInt 0);
       f_required := false |};
    {| f_key := lit "languages"; f_label := Ref.u "语言"; f_type := lit "str";
       f_default := None; f_required := false |};
    {| f_key := lit "traits"; f_label := Ref.u "特性"; f_type := lit "text";
       f_default := None; f_required := false |} ].

Definition human : dict :=
  [(k_name, JStr (Ref.u "人类")); (lit "desc", JStr (Ref.u "通用"));
   (lit "speed", JInt 30)].

Definition elf : dict :=
  [(k_name, JStr (Ref.u "精灵")); (lit "desc", JStr (Ref.u "黑暗视觉"))].

(** A CSV row that names the first of the two. *)
Definition human_row : dict :=
  [(k_name, JStr (Ref.u "人类")); (lit "desc", JStr (Ref.u "新"))].

Definition races : editor := with_records (H := Ref.runtime) [human; elf].

Definition no_counts : counts :=
  {| added := 0; updated := 0; skipped := 0; renamed := 0 |}.

Definition races_path : pystr := lit "data/races.json".

(** A data file with two races, as one JSON document. *)
Definition races_text : pystr :=
  Ref.jtext "[{'name':'Human','speed':30},{'name':' Elf '}]".

Definition races_files : files :=
  <[races_path := default [] (@utf8_encode Ref.runtime races_text)]> ∅.

(** The form of a character. *)
Definition hero : linkStart.form :=
  {| linkStart.var_name := lit " Aria Swift ";
     linkStart.var_player := lit "Kim";
     linkStart.var_race := lit "Elf";
     linkStart.var_class := lit "Wizard";
     linkStart.var_background := lit "Sage" |}.

(** A CSV file with a description row. *)
Definition races_csv : list (list pystr) :=
  [[lit "name"; lit "desc"; lit ""];
   [Ref.u "名称"; Ref.u "描述"; lit ""];
   [lit " Human "; lit "versatile"; lit "dropped"];
   [lit ""; lit "  "; lit ""];
   [lit "Elf"]].

(** A second row that describes the columns, and one that is blank. *)
Definition description_row : list pystr := [Ref.u "名称"; lit " "; Ref.u "描述"].

Definition blank_row : list pystr := [lit ""; lit "  "].

(** A form whose player holds a lone surrogate, which UTF-8 cannot
    encode. *)
Definition ghost : linkStart.form :=
  {| linkStart.var_name := lit "Ghost";
     linkStart.var_player := lit "K" ++ [55296];
     linkStart.var_race := lit "";
     linkStart.var_class := lit "";
     linkStart.var_background := lit "" |}.

(** A table of names. *)
Definition name_table : dict :=
  [(lit "Elf", JStr (lit "graceful")); (lit "", JInt 1); (lit "Human", JNull)].

End Examples.

(** * Properties *)

(** ** Stripping *)

Section strip_facts.
Import Py Spec.

Lemma lstrip_by_head_kept p s : head_kept p (lstrip_by p s).
Proof.
  induction s as [|c s IH]; simpl; [done|].
  destruct (p c) eqn:E; [done|]. simpl. done.
Qed.

Lemma lstrip_by_fixed p s : head_kept p s -> lstrip_by p s = s.
Proof. destruct s as [|c s]; simpl; [done|]. by intros ->. Qed.

Lemma lstrip_by_app_kept p a c b :
  p c = false -> lstrip_by p (a ++ c :: b) = lstrip_by p a ++ c :: b.
Proof.
  intros Hc. induction a as [|x a IH]; simpl.
  - by rewrite Hc.
  - destruct (p x); [done|]. done.
Qed.

Lemma rstrip_by_cons_kept p c s :
  p c = false -> rstrip_by p (c :: s) = c :: rstrip_by p s.
Proof.
  intros Hc. unfold rstrip_by. simpl.
  rewrite lstrip_by_app_kept by done.
  rewrite rev_app_distr. done.
Qed.

Lemma rstrip_by_head_kept p s : head_kept p s -> head_kept p (rstrip_by p s).
Proof.
  destruct s as [|c s]; simpl; [done|].
  intros Hc. by rewrite rstrip_by_cons_kept.
Qed.

Lemma rstrip_by_last_kept p s : head_kept p (rev (rstrip_by p s)).
Proof. unfold rstrip_by. rewrite rev_involutive. apply lstrip_by_head_kept. Qed.

Lemma rstrip_by_fixed p s : head_kept p (rev s) -> rstrip_by p s = s.
Proof.
  intros Hs. unfold rstrip_by. rewrite lstrip_by_fixed by done.
  apply rev_involutive.
Qed.

Lemma strip_head_kept s : head_kept isspace (strip s).
Proof. apply rstrip_by_head_kept, lstrip_by_head_kept. Qed.

Lemma strip_last_kept s : head_kept isspace (rev (strip s)).
Proof. apply rstrip_by_last_kept. Qed.

Lemma strip_fixed s :
  head_kept isspace s -> head_kept isspace (rev s) -> strip s = s.
Proof.
  intros Hh Hl. unfold strip.
  rewrite lstrip_by_fixed by done. by apply rstrip_by_fixed.
Qed.

Lemma strip_idemp s : strip (strip s) = strip s.
Proof. apply strip_fixed; [apply strip_head_kept | apply strip_last_kept]. Qed.

(** A stripped, non-empty name followed by a suffix that ends in a
    character that is kept is left alone by [strip]. *)
Lemma strip_framed s m c :
  strip s <> [] -> isspace c = false ->
  strip (strip s ++ m ++ [c]) = strip s ++ m ++ [c].
Proof.
  intros Hne Hc. apply strip_fixed.
  - pose proof (strip_head_kept s) as Hh.
    destruct (strip s) as [|x t]; [done|]. exact Hh.
  - rewrite !rev_app_distr. simpl. exact Hc.
Qed.

Lemma nonempty_true s : nonempty s = true <-> s <> [].
Proof. destruct s; simpl; split; done. Qed.

Lemma nonempty_false s : nonempty s = false <-> s = [].
Proof. destruct s; simpl; split; done. Qed.

End strip_facts.

(** ** Loops that append *)

Section loops.
Context {A B : Type}.

(** A loop whose body appends at most one element computes an [omap]. *)
Lemma fold_left_append (g : list B -> A -> list B) (f : A -> option B) l acc :
  (forall out x, g out x = match f x with Some y => out ++ [y] | None => out end) ->
  fold_left g l acc = acc ++ omap f l.
Proof.
  intros Hg. revert acc. induction l as [|x l IH]; intros acc; simpl.
  - by rewrite app_nil_r.
  - rewrite IH, Hg. destruct (f x); simpl; [|done].
    by rewrite <- app_assoc.
Qed.

End loops.

(** ** C6: the description row of a CSV file *)

Section csv.
Import Py db_editor Spec.

Lemma any_nonblank_strip r : any_nonblank (strip <$> r) = any_nonblank r.
Proof.
  unfold any_nonblank. induction r as [|c r IH]; [done|].
  rewrite fmap_cons. cbn [existsb]. by rewrite strip_idemp, IH.
Qed.

Lemma list_neq_tail {X} (x : X) l : x :: l <> l.
Proof. intros E. apply (f_equal length) in E. simpl in E. lia. Qed.

Lemma lstrip_by_nil p s :
  lstrip_by p s = [] <-> Forall (fun c => p c = true) s.
Proof.
  induction s as [|c s IH]; simpl; [by split|].
  destruct (p c) eqn:E.
  - rewrite IH. split; [by constructor|]. by intros [_ ?]%Forall_cons.
  - split; [done|]. intros [Hc _]%Forall_cons. congruence.
Qed.

(** [strip] leaves nothing exactly of the strings that are blank. *)
Lemma strip_blank s : strip s = [] <-> blank s.
Proof.
  unfold blank. rewrite <- (lstrip_by_nil isspace). unfold strip.
  pose proof (lstrip_by_head_kept isspace s) as Hk.
  destruct (lstrip_by isspace s) as [|c t]; [done|].
  simpl in Hk. by rewrite rstrip_by_cons_kept.
Qed.

(** The test the code makes on a row finds a cell that is not blank
    exactly when there is one. *)
Lemma any_nonblank_cell r : any_nonblank r = true <-> has_nonblank_cell r.
Proof.
  unfold any_nonblank, has_nonblank_cell.
  induction r as [|c r IH]; simpl.
  - split; [done|]. by intros ?%Exists_nil.
  - rewrite orb_true_iff, Exists_cons, IH, nonempty_true, strip_blank. done.
Qed.

Lemma any_nonblank_none r : any_nonblank r = false <-> entirely_blank r.
Proof.
  unfold any_nonblank, entirely_blank.
  induction r as [|c r IH]; simpl.
  - split; [by constructor|done].
  - rewrite orb_false_iff, Forall_cons, IH, nonempty_false, strip_blank. done.
Qed.

Lemma has_nonblank_cell_strip r :
  has_nonblank_cell (strip <$> r) <-> has_nonblank_cell r.
Proof. by rewrite <- !any_nonblank_cell, any_nonblank_strip. Qed.

(** C6. For a parsed CSV [h :: r2 :: rest] (at least two rows), the data
    rows are [rest] (the second row is skipped as a description row) if
    and only if [r2] has a cell that is not made of white space only; when
    every cell of [r2] is blank the data rows are [r2 :: rest]. The dicts
    returned by [read_csv_rows] are built, in order, from the rows that
    have a cell that is not blank, among [rest] in the first case and
    among [r2 :: rest] in the second. *)
Theorem C6_description_row (h r2 : list pystr) (rest : list (list pystr)) :
  (csv_data_rows (h :: r2 :: rest) = rest <-> has_nonblank_cell r2)
  /\ (entirely_blank r2 -> csv_data_rows (h :: r2 :: rest) = r2 :: rest)
  /\ read_csv_rows (h :: r2 :: rest)
     = (fun r => row_dict (csv_headers_of (strip <$> h)) 0 (strip <$> r) [])
         <$> filter has_nonblank_cell
               (if decide (has_nonblank_cell r2) then rest else r2 :: rest).
Proof.
  assert (Hd : csv_data_rows (h :: r2 :: rest)
               = if any_nonblank r2 then rest else r2 :: rest).
  { unfold csv_data_rows. simpl. by destruct (any_nonblank r2). }
  split; [|split].
  - rewrite Hd, <- any_nonblank_cell.
    destruct (any_nonblank r2); split; try done.
    intros E. by apply list_neq_tail in E.
  - intros E%any_nonblank_none. by rewrite Hd, E.
  - unfold read_csv_rows. simpl.
    rewrite (fold_left_append _
               (fun r => if any_nonblank r
                         then Some (row_dict (csv_headers_of (strip <$> h)) 0 r [])
                         else None))
      by (intros out x; by destruct (any_nonblank x)).
    simpl.
    assert (Hrows : csv_data_rows
                      ((strip <$> h) :: (strip <$> r2)
                         :: ((fun r : list pystr => strip <$> r) <$> rest))
                    = (fun r : list pystr => strip <$> r)
                        <$> (if decide (has_nonblank_cell r2) then rest
                             else r2 :: rest)).
    { unfold csv_data_rows. simpl. rewrite any_nonblank_strip.
      destruct (decide (has_nonblank_cell r2)) as [Hc|Hc].
      - apply any_nonblank_cell in Hc. by rewrite Hc.
      - destruct (any_nonblank r2) eqn:E; [|done].
        by apply any_nonblank_cell in E. }
    change (list_fmap (list pystr) (list pystr)
              (fun r : list pystr => strip <$> r) rest)
      with ((fun r : list pystr => strip <$> r) <$> rest).
    rewrite Hrows.
    generalize (if decide (has_nonblank_cell r2) then rest else r2 :: rest).
    intros l. induction l as [|r l IH]; [done|].
    rewrite fmap_cons. unfold omap in *. cbn [list_omap].
    rewrite any_nonblank_strip.
    destruct (decide (has_nonblank_cell r)) as [Hc|Hc].
    + rewrite filter_cons_True by done.
      apply any_nonblank_cell in Hc. rewrite Hc, fmap_cons. by rewrite IH.
    + rewrite filter_cons_False by done.
      destruct (any_nonblank r) eqn:E; [by apply any_nonblank_cell in E|].
      apply IH.
Qed.

End csv.

(** ** Dictionaries *)

Section dict_facts.
Import Py.

Lemma pystr_eqb_eq a b : pystr_eqb a b = true <-> a = b.
Proof. unfold pystr_eqb. apply bool_decide_eq_true. Qed.

Lemma pystr_eqb_refl a : pystr_eqb a a = true.
Proof. by apply pystr_eqb_eq. Qed.

Lemma pystr_eqb_neq a b : a <> b -> pystr_eqb a b = false.
Proof. intros. unfold pystr_eqb. by apply bool_decide_eq_false. Qed.

Lemma dict_lookup_set k' k v d :
  dict_lookup k' (dict_set k v d)
  = if decide (k' = k) then Some v else dict_lookup k' d.
Proof.
  induction d as [|[k0 v0] d IH]; simpl.
  - destruct (decide (k' = k)) as [->|Hne].
    + by rewrite pystr_eqb_refl.
    + by rewrite pystr_eqb_neq.
  - destruct (decide (k = k0)) as [->|Hk].
    + rewrite pystr_eqb_refl. simpl.
      destruct (decide (k' = k0)) as [->|Hne].
      * by rewrite pystr_eqb_refl.
      * by rewrite pystr_eqb_neq.
    + rewrite (pystr_eqb_neq k k0) by done. simpl. rewrite IH.
      destruct (decide (k' = k0)) as [->|Hne].
      * rewrite pystr_eqb_refl. by rewrite decide_False by done.
      * by rewrite (pystr_eqb_neq k' k0).
Qed.

Lemma dict_in_lookup k d : dict_in k d = true <-> is_Some (dict_lookup k d).
Proof.
  induction d as [|[k0 v0] d IH]; simpl.
  - split; [done|]. by intros [? ?].
  - destruct (pystr_eqb k k0); simpl; [|done]. split; eauto.
Qed.

Lemma dict_in_false k d : dict_in k d = false <-> dict_lookup k d = None.
Proof.
  rewrite <- not_true_iff_false, dict_in_lookup.
  split; [by apply eq_None_not_Some | by intros -> [? ?]].
Qed.

Lemma dict_lookup_keys k d : is_Some (dict_lookup k d) <-> k ∈ d.*1.
Proof.
  induction d as [|[k0 v0] d IH]; simpl.
  - split; [by intros [? ?] | by intros ?%elem_of_nil].
  - rewrite elem_of_cons. destruct (decide (k = k0)) as [->|Hne].
    + rewrite pystr_eqb_refl. split; eauto.
    + rewrite pystr_eqb_neq by done. rewrite IH. split; [by right|].
      by intros [?|?].
Qed.

(** Writing a key that is absent appends it. *)
Lemma dict_set_fresh k v d :
  dict_lookup k d = None -> dict_set k v d = d ++ [(k, v)].
Proof.
  induction d as [|[k0 v0] d IH]; simpl; [done|].
  destruct (pystr_eqb k k0); [done|]. intros Hd. by rewrite IH.
Qed.

Lemma dict_set_keys_fresh k v d :
  dict_lookup k d = None -> (dict_set k v d).*1 = d.*1 ++ [k].
Proof. intros Hd. rewrite dict_set_fresh by done. by rewrite fmap_app. Qed.

Lemma dict_get_set k dflt v d : dict_get k dflt (dict_set k v d) = v.
Proof. unfold dict_get. rewrite dict_lookup_set. by rewrite decide_True. Qed.

End dict_facts.

(** ** The name index *)

Section index_facts.
Import Py db_editor.
Context `{Runtime}.

Lemma rec_name_set_name x r : rec_name (dict_set k_name (JStr x) r) = strip x.
Proof. unfold rec_name. by rewrite dict_get_set. Qed.

(** What [rebuild_index] stores under a name: the position of the first
    record that carries it, unless the name is blank. *)
Lemma rebuild_index_from_lookup rs i idx nm :
  rebuild_index_from i rs idx !! nm
  = match idx !! nm with
    | Some j => Some j
    | None =>
        if nonempty nm
        then (fun p => (i + p.1)%nat) <$> list_find (fun r => rec_name r = nm) rs
        else None
    end.
Proof.
  revert i idx. induction rs as [|r rs IH]; intros i idx.
  - simpl. destruct (idx !! nm); [done|]. by destruct (nonempty nm).
  - cbn [rebuild_index_from list_find]. rewrite IH. clear IH.
    destruct (decide (rec_name r = nm)) as [E|E].
    + subst nm. destruct (idx !! rec_name r) as [j|] eqn:Hj.
      * rewrite (bool_decide_eq_true_2 (is_Some (Some j))) by eauto.
        rewrite andb_false_r. by rewrite Hj.
      * rewrite (bool_decide_eq_false_2 (is_Some None)) by (by intros [? ?]).
        rewrite andb_true_r. destruct (nonempty (rec_name r)) eqn:Hn.
        -- rewrite lookup_insert_eq. simpl. f_equal. lia.
        -- by rewrite Hj.
    + assert (Hk : (if nonempty (rec_name r)
                       && negb (bool_decide (is_Some (idx !! rec_name r)))
                    then <[rec_name r := i]> idx else idx) !! nm = idx !! nm).
      { destruct (_ && _); [|done]. by rewrite lookup_insert_ne. }
      rewrite Hk. destruct (idx !! nm); [done|].
      destruct (nonempty nm); [|done].
      destruct (list_find _ rs) as [[j x]|]; simpl; [|done].
      f_equal. lia.
Qed.

Lemma rebuild_index_lookup rs nm :
  rebuild_index rs !! nm
  = if nonempty nm then fst <$> list_find (fun r => rec_name r = nm) rs
    else None.
Proof.
  unfold rebuild_index. rewrite rebuild_index_from_lookup, lookup_empty.
  destruct (nonempty nm); [|done]. by destruct (list_find _ rs) as [[j x]|].
Qed.

(** The index holds exactly the non-blank names of the records. *)
Lemma rebuild_index_is_Some rs nm :
  is_Some (rebuild_index rs !! nm) <-> nm <> [] /\ nm ∈ (rec_name <$> rs).
Proof.
  rewrite rebuild_index_lookup. destruct nm as [|c nm]; simpl.
  - split; [by intros [? ?] | by intros [? _]].
  - rewrite fmap_is_Some, list_elem_of_fmap. split.
    + intros [[i x] Hf]. apply list_find_Some in Hf as (Hx%list_elem_of_lookup_2 & E & _).
      split; [done|]. by exists x.
    + intros [_ (x & E & Hx)]. by apply (list_find_elem_of _ _ x).
Qed.

Lemma rebuild_index_None rs nm :
  nm <> [] -> rebuild_index rs !! nm = None -> nm ∉ (rec_name <$> rs).
Proof.
  intros Hne Hn Hin.
  assert (Hs : is_Some (rebuild_index rs !! nm))
    by (by apply rebuild_index_is_Some).
  rewrite Hn in Hs. by destruct Hs.
Qed.

(** A stored position is in range and points at the first record of that
    name. *)
Lemma rebuild_index_Some rs nm i :
  rebuild_index rs !! nm = Some i ->
  nm <> []
  /\ (exists r, rs !! i = Some r /\ rec_name r = nm)
  /\ (forall j r', rs !! j = Some r' -> (j < i)%nat -> rec_name r' <> nm).
Proof.
  rewrite rebuild_index_lookup. destruct (nonempty nm) eqn:Hn; [|done].
  destruct (list_find _ rs) as [[j x]|] eqn:Hf; simpl; [|done].
  intros [= <-]. apply list_find_Some in Hf as (Hj & Hx & Hfirst).
  split; [by apply nonempty_true|]. split; [by exists x|]. exact Hfirst.
Qed.

End index_facts.

(** ** C7: CSV import under the overwrite policy *)

Section overwrite.
Import Py db_editor.
Context `{Runtime}.

Lemma row_record_name field_keys r nm :
  rec_name (row_record field_keys r nm) = strip nm.
Proof. apply rec_name_set_name. Qed.

Lemma row_name_stripped name_col r :
  strip (row_name name_col r) = row_name name_col r.
Proof. apply strip_idemp. Qed.

Lemma list_set_in_range {X} (i : nat) (x : X) l :
  (i < length l)%nat -> list_set i x l = Some (<[i := x]> l).
Proof. intros Hi. unfold list_set. by rewrite bool_decide_eq_true_2. Qed.

(** C7. Under the overwrite policy, with the index in step with the
    records: a row whose extracted name is blank changes neither the
    records nor any counter; a row whose name is that of an existing
    record replaces the first record of that name at its position [i],
    adds one to [updated] and leaves the other counters, the length of the
    list and every record at another position as they were. *)
Theorem C7_overwrite_in_place field_keys name_col (e : editor) (c : counts)
    (r : dict) :
  index e = rebuild_index (records e) ->
  (row_name name_col r = [] ->
     import_row field_keys name_col (lit "overwrite") (e, c) r = Some (e, c))
  /\ (forall old,
        old ∈ records e -> rec_name old = row_name name_col r ->
        row_name name_col r <> [] ->
        let new := row_record field_keys r (row_name name_col r) in
        exists i old',
          records e !! i = Some old'
          /\ rec_name old' = row_name name_col r
          /\ (forall j r', records e !! j = Some r' -> (j < i)%nat ->
                rec_name r' <> row_name name_col r)
          /\ import_row field_keys name_col (lit "overwrite") (e, c) r
             = Some (with_records (<[i := new]> (records e)),
                     {| added := added c; updated := updated c + 1;
                        skipped := skipped c; renamed := renamed c |})
          /\ length (<[i := new]> (records e)) = length (records e)
          /\ <[i := new]> (records e) !! i = Some new
          /\ (forall j, j <> i ->
                <[i := new]> (records e) !! j = records e !! j)
          /\ rec_name new = row_name name_col r).
Proof.
  intros Hidx. split.
  - intros Hb. unfold import_row. by rewrite Hb.
  - intros old Hold Hname Hne new.
    assert (Hs : is_Some (index e !! row_name name_col r)).
    { rewrite Hidx. apply rebuild_index_is_Some. split; [done|].
      apply list_elem_of_fmap. by exists old. }
    destruct Hs as [i Hi]. pose proof Hi as Hi'. rewrite Hidx in Hi'.
    apply rebuild_index_Some in Hi' as (_ & (old' & Hl & Hn) & Hfirst).
    exists i, old'. split_and!; try done.
    + unfold import_row. apply nonempty_true in Hne. rewrite Hne. simpl.
      rewrite Hi.
      assert (Hlt : (i < length (records e))%nat) by (by eapply lookup_lt_Some).
      by rewrite list_set_in_range.
    + apply length_insert.
    + apply list_lookup_insert_eq. by eapply lookup_lt_Some.
    + intros j Hj. by apply list_lookup_insert_ne.
    + unfold new. rewrite row_record_name. apply row_name_stripped.
Qed.

End overwrite.

(** ** Numbered names and the search for a free one *)

Section free_names.
Import Py db_editor.

Lemma lit_inj a b : lit a = lit b -> a = b.
Proof.
  unfold lit. intros E.
  rewrite <- (string_of_list_ascii_of_string a).
  rewrite <- (string_of_list_ascii_of_string b). f_equal.
  revert E. generalize (list_ascii_of_string a) (list_ascii_of_string b).
  induction l as [|x l IH]; intros [|y k]; simpl; try done.
  intros [= Hxy Hlk]. f_equal; [|by apply IH].
  by rewrite <- (ascii_N_embedding x), <- (ascii_N_embedding y), Hxy.
Qed.

Lemma str_of_N_inj i j : str_of_N i = str_of_N j -> i = j.
Proof.
  unfold str_of_N. intros E%lit_inj.
  apply DecimalN.Unsigned.to_uint_inj.
  pose proof (NilEmpty.usu (N.to_uint i)) as Hi.
  pose proof (NilEmpty.usu (N.to_uint j)) as Hj.
  rewrite E in Hi. rewrite Hi in Hj. by injection Hj.
Qed.

Lemma suffix_name_inj base i j :
  suffix_name base i = suffix_name base j -> i = j.
Proof.
  unfold suffix_name. intros E.
  apply app_inv_head, app_inv_head, app_inv_tail in E.
  by apply str_of_N_inj.
Qed.

Lemma copy_name_inj base i j : copy_name base i = copy_name base j -> i = j.
Proof.
  unfold copy_name. intros E.
  apply app_inv_head, app_inv_head, app_inv_head, app_inv_tail in E.
  by apply str_of_N_inj.
Qed.

(** Both numbered names end in a closing parenthesis, so a stripped,
    non-blank base gives a name that [strip] leaves alone. *)
Lemma suffix_name_stripped s i :
  strip s <> [] -> strip (suffix_name (strip s) i) = suffix_name (strip s) i.
Proof.
  intros Hs. unfold suffix_name.
  replace (strip s ++ lit " (" ++ str_of_N i ++ lit ")")
    with (strip s ++ (lit " (" ++ str_of_N i) ++ [41])
    by (by rewrite <- !app_assoc).
  by apply strip_framed.
Qed.

Lemma copy_name_stripped s i :
  strip s <> [] -> strip (copy_name (strip s) i) = copy_name (strip s) i.
Proof.
  intros Hs. unfold copy_name.
  replace (strip s ++ lit " (" ++ [22797; 21046] ++ str_of_N i ++ lit ")")
    with (strip s ++ (lit " (" ++ [22797; 21046] ++ str_of_N i) ++ [41])
    by (by rewrite <- !app_assoc).
  by apply strip_framed.
Qed.

Lemma suffix_name_nonempty base i : suffix_name base i <> [].
Proof. unfold suffix_name. destruct base; simpl; done. Qed.

Lemma copy_name_nonempty base i : copy_name base i <> [].
Proof. unfold copy_name. destruct base; simpl; done. Qed.

(** What the loop returns is the least free number from [i] on. *)
Lemma first_free_spec (fmt : N -> pystr) (idx : gmap pystr nat) (fuel : nat)
    (i k : N) :
  first_free fmt idx fuel i = Some k ->
  i <= k /\ idx !! fmt k = None
  /\ (forall j, i <= j < k -> is_Some (idx !! fmt j)).
Proof.
  revert i. induction fuel as [|fuel IH]; intros i; simpl.
  - case_bool_decide as Hs; [done|]. intros [= <-].
    split; [lia|]. split; [by apply eq_None_not_Some|]. intros j ?. lia.
  - case_bool_decide as Hs.
    + intros Hk. apply IH in Hk as (Hle & Hfree & Hused).
      split; [lia|]. split; [done|]. intros j Hj.
      destruct (decide (j = i)) as [->|Hne]; [done|]. apply Hused. lia.
    + intros [= <-].
      split; [lia|]. split; [by apply eq_None_not_Some|]. intros j ?. lia.
Qed.

(** With distinct candidates the loop ends within as many turns as the
    index has entries. *)
Lemma first_free_bounded (fmt : N -> pystr) (idx : gmap pystr nat)
    (fuel : nat) (i : N) (X : gset pystr) :
  (forall a b, fmt a = fmt b -> a = b) ->
  (forall j, i <= j -> is_Some (idx !! fmt j) -> fmt j ∈ X) ->
  (size X <= fuel)%nat ->
  is_Some (first_free fmt idx fuel i).
Proof.
  intros Hinj. revert i X. induction fuel as [|fuel IH]; intros i X HX Hsz; simpl.
  - case_bool_decide as Hs; [|eauto].
    assert (Hin : fmt i ∈ X) by (apply HX; [lia|done]).
    assert (HE : X ≡ ∅) by (apply size_empty_inv; lia).
    set_solver.
  - case_bool_decide as Hs; [|eauto].
    assert (Hin : fmt i ∈ X) by (apply HX; [lia|done]).
    apply (IH (i + 1) (X ∖ {[fmt i]})).
    + intros j Hj Hsj. apply elem_of_difference. split; [apply HX; [lia|done]|].
      intros ->%elem_of_singleton%Hinj. lia.
    + rewrite size_difference by set_solver. rewrite size_singleton.
      assert (size X <> 0%nat); [|lia].
      intros HE%size_empty_inv. set_solver.
Qed.

Lemma first_free_total (fmt : N -> pystr) (idx : gmap pystr nat) (i : N) :
  (forall a b, fmt a = fmt b -> a = b) ->
  is_Some (first_free fmt idx (size idx) i).
Proof.
  intros Hinj. apply (first_free_bounded fmt idx _ i (dom idx)); [done| |].
  - intros j _ Hs. by apply elem_of_dom.
  - by rewrite size_dom.
Qed.

End free_names.

(** ** C2: CSV import under the rename policy *)

Section rename.
Import Py db_editor Spec.
Context `{Runtime}.

Lemma with_records_in_step rs : in_step (with_records rs).
Proof. reflexivity. Qed.

Lemma import_rows_app fk nc st pre post ec :
  import_rows fk nc st (pre ++ post) ec
  = import_rows fk nc st pre ec ≫= import_rows fk nc st post.
Proof.
  revert ec. induction pre as [|r pre IH]; intros ec; [done|].
  cbn [app import_rows].
  destruct (import_row fk nc st ec r) as [ec'|]; simpl; [apply IH|done].
Qed.

(** In step, a name is in the index exactly when it is not blank and some
    record carries it. *)
Lemma in_step_index e nm :
  in_step e ->
  is_Some (index e !! nm) <-> nm <> [] /\ nm ∈ (rec_name <$> records e).
Proof. intros ->. apply rebuild_index_is_Some. Qed.

(** What one colliding row does under the rename policy. *)
Lemma import_row_rename fk nc e c r :
  in_step e ->
  row_name nc r <> [] ->
  row_name nc r ∈ (rec_name <$> records e) ->
  exists i,
    2 <= i
    /\ (suffix_name (row_name nc r) i ∉ (rec_name <$> records e))
    /\ (forall j, 2 <= j < i ->
          suffix_name (row_name nc r) j ∈ (rec_name <$> records e))
    /\ import_row fk nc (lit "rename") (e, c) r
       = Some (with_records
                 (records e
                  ++ [dict_set k_name (JStr (suffix_name (row_name nc r) i))
                        (row_record fk r (row_name nc r))]),
               {| added := added c; updated := updated c;
                  skipped := skipped c; renamed := renamed c + 1 |}).
Proof.
  intros Hstep Hne Hin.
  assert (Hs : is_Some (index e !! row_name nc r))
    by (by apply in_step_index).
  destruct Hs as [idx Hidx].
  destruct (first_free_total (suffix_name (row_name nc r)) (index e) 2)
    as [i Hi]; [apply suffix_name_inj|].
  pose proof Hi as (Hle & Hfree & Hused)%first_free_spec.
  exists i. split_and!; [done| | |].
  - intros Hi'. assert (Hs : is_Some (index e !! suffix_name (row_name nc r) i)).
    { apply in_step_index; [done|]. split; [apply suffix_name_nonempty|done]. }
    rewrite Hfree in Hs. by destruct Hs.
  - intros j Hj. by apply (in_step_index e _ Hstep), Hused.
  - unfold import_row. apply nonempty_true in Hne. rewrite Hne. simpl.
    rewrite Hidx. simpl. by rewrite Hi.
Qed.

(** Under the rename policy the list only grows, and the index stays in
    step. *)
Lemma import_row_rename_grows fk nc e c r e' c' :
  in_step e ->
  import_row fk nc (lit "rename") (e, c) r = Some (e', c') ->
  in_step e' /\ records e `prefix_of` records e'.
Proof.
  intros Hstep. unfold import_row.
  destruct (nonempty (row_name nc r)); simpl.
  - destruct (index e !! row_name nc r) as [idx|]; simpl.
    + destruct (first_free _ _ _ _) as [i|]; simpl; [|done].
      intros [= <- <-]. split; [apply with_records_in_step|].
      by apply prefix_app_r.
    + intros [= <- <-]. split; [apply with_records_in_step|].
      by apply prefix_app_r.
  - intros [= <- <-]. split; [done|reflexivity].
Qed.

Lemma import_rows_rename_grows fk nc rows e c e' c' :
  in_step e ->
  import_rows fk nc (lit "rename") rows (e, c) = Some (e', c') ->
  in_step e' /\ records e `prefix_of` records e'.
Proof.
  revert e c. induction rows as [|r rows IH]; intros e c Hstep;
    cbn [import_rows].
  - intros [= <- <-]. split; [done|reflexivity].
  - destruct (import_row fk nc (lit "rename") (e, c) r) as [[e1 c1]|] eqn:Hr;
      simpl; [|done].
    apply import_row_rename_grows in Hr as [Hstep1 Hpre]; [|done].
    intros Hrows. apply IH in Hrows as [Hstep' Hpre']; [|done].
    split; [done|]. by etrans.
Qed.

End rename.

Section rename_batch.
Import Py db_editor Spec.
Context `{Runtime}.

(** C2. Under the rename policy, let a batch have reached the editor [e1]
    from [e0] after the rows [pre]. The records of [e0] are still there, in
    place, with the records added or renamed by [pre] after them. A next
    row [r] whose name [nm] is carried by a record of [e1] is appended
    under the name [suffix_name nm i], where [i >= 2] is the least number
    whose name no record of [e1] carries, and [renamed] grows by one. With
    one record A and two rows named A the result is A, A (2), A (3). *)
Theorem C2_rename_smallest_suffix :
  (forall fk nc (e0 e1 : editor) (c0 c1 : counts) (pre : list dict) (r : dict),
     in_step e0 ->
     import_rows fk nc (lit "rename") pre (e0, c0) = Some (e1, c1) ->
     row_name nc r <> [] ->
     row_name nc r ∈ (rec_name <$> records e1) ->
     exists i,
       let new := dict_set k_name (JStr (suffix_name (row_name nc r) i))
                    (row_record fk r (row_name nc r)) in
       2 <= i
       /\ (suffix_name (row_name nc r) i ∉ (rec_name <$> records e1))
       /\ (forall j, 2 <= j < i ->
             suffix_name (row_name nc r) j ∈ (rec_name <$> records e1))
       /\ records e0 `prefix_of` records e1
       /\ import_rows fk nc (lit "rename") (pre ++ [r]) (e0, c0)
          = Some (with_records (records e1 ++ [new]),
                  {| added := added c1; updated := updated c1;
                     skipped := skipped c1; renamed := renamed c1 + 1 |})
       /\ dict_get k_name JNull new = JStr (suffix_name (row_name nc r) i)
       /\ rec_name new = suffix_name (row_name nc r) i)
  /\ import_rows (H := Ref.runtime) [k_name] k_name (lit "rename")
       [[(k_name, JStr (lit "A"))]; [(k_name, JStr (lit "A"))]]
       (with_records (H := Ref.runtime) [[(k_name, JStr (lit "A"))]],
        {| added := 0; updated := 0; skipped := 0; renamed := 0 |})
     = Some (with_records (H := Ref.runtime)
               [[(k_name, JStr (lit "A"))];
                [(k_name, JStr (lit "A (2)"))];
                [(k_name, JStr (lit "A (3)"))]],
             {| added := 0; updated := 0; skipped := 0; renamed := 2 |}).
Proof.
  split; [|by vm_compute].
  intros fk nc e0 e1 c0 c1 pre r Hstep Hpre Hne Hin.
  destruct (import_rows_rename_grows _ _ _ _ _ _ _ Hstep Hpre) as [Hstep1 Hgrow].
  destruct (import_row_rename fk nc e1 c1 r Hstep1 Hne Hin)
    as (i & Hle & Hfree & Hused & Hrow).
  exists i. cbn zeta. split_and!; try done.
  - rewrite import_rows_app, Hpre. cbn [mbind option_bind import_rows].
    by rewrite Hrow.
  - apply dict_get_set.
  - rewrite rec_name_set_name. unfold row_name.
    apply suffix_name_stripped. exact Hne.
Qed.

End rename_batch.

(** ** C4: de-duplication by trimmed name *)

Section dedup.
Import Py db_editor Spec.
Context `{Runtime}.

Lemma linkStart_dedup_from seen out rs :
  linkStart.dedup_from seen out rs = dedup_from seen out rs.
Proof.
  revert seen out. induction rs as [|r rs IH]; intros seen out; simpl; [done|].
  by rewrite !IH.
Qed.

(** The last record of the input is kept when its name is not blank, has
    not been seen before the loop and is carried by no earlier record. *)
Lemma dedup_from_snoc seen out rs r :
  dedup_from seen out (rs ++ [r])
  = if decide (rec_name r <> [] /\ (rec_name r ∉ seen)
               /\ rec_name r ∉ (rec_name <$> rs))
    then dedup_from seen out rs ++ [r] else dedup_from seen out rs.
Proof.
  revert seen out. induction rs as [|x rs IH]; intros seen out.
  - simpl. destruct (nonempty (rec_name r)) eqn:Hn; simpl.
    + apply nonempty_true in Hn. case_bool_decide as Hs.
      * rewrite decide_False; [done|]. by intros (_ & ? & _).
      * rewrite decide_True; [done|]. split_and!; [done..|]. apply not_elem_of_nil.
    + apply nonempty_false in Hn. rewrite decide_False; [done|]. by intros [? _].
  - cbn [app dedup_from]. rewrite fmap_cons.
    destruct (nonempty (rec_name x)) eqn:Hx; simpl.
    + apply nonempty_true in Hx. case_bool_decide as Hs.
      * rewrite IH. apply decide_ext. rewrite not_elem_of_cons.
        split; [|tauto]. intros (Hr & Hseen & Hrs). split_and!; try done.
        intros E. apply Hseen. by rewrite E.
      * rewrite IH. apply decide_ext.
        rewrite not_elem_of_cons, not_elem_of_union, not_elem_of_singleton.
        tauto.
    + apply nonempty_false in Hx. rewrite IH. apply decide_ext.
      rewrite not_elem_of_cons. split; [|tauto].
      intros (? & ? & ?). split_and!; try done. congruence.
Qed.

Lemma apply_records_snoc rs r :
  records (apply_records (rs ++ [r]))
  = if decide (rec_name r <> [] /\ rec_name r ∉ (rec_name <$> rs))
    then records (apply_records rs) ++ [r] else records (apply_records rs).
Proof.
  unfold apply_records. simpl. rewrite dedup_from_snoc.
  apply decide_ext. split; [tauto|]. intros [? ?].
  split_and!; [done| |done]. apply not_elem_of_empty.
Qed.

Lemma apply_records_sublist rs : records (apply_records rs) `sublist_of` rs.
Proof.
  induction rs as [|r rs IH] using rev_ind; [done|].
  rewrite apply_records_snoc. case_decide.
  - by apply sublist_app.
  - by apply sublist_inserts_r.
Qed.

Lemma apply_records_nonblank rs r :
  r ∈ records (apply_records rs) -> rec_name r <> [].
Proof.
  induction rs as [|x rs IH] using rev_ind; [by intros ?%elem_of_nil|].
  rewrite apply_records_snoc. case_decide as Hd; [|done].
  rewrite elem_of_app, list_elem_of_singleton. intros [?| ->]; [auto|tauto].
Qed.

Lemma apply_records_NoDup rs : NoDup (rec_name <$> records (apply_records rs)).
Proof.
  induction rs as [|x rs IH] using rev_ind; [constructor|].
  rewrite apply_records_snoc. case_decide as Hd; [|done].
  rewrite fmap_app. apply NoDup_app. split_and!; [done| |apply NoDup_singleton].
  intros nm Hnm ->%list_elem_of_singleton. destruct Hd as [_ Hd]. apply Hd.
  apply list_elem_of_fmap in Hnm as (y & -> & Hy). apply list_elem_of_fmap.
  exists y. split; [done|]. eapply elem_of_sublist; [done|].
  apply apply_records_sublist.
Qed.

(** C4, with blank names set apart. The de-duplication of [apply_records], and the closing
    loop of [read_json_records], which is the same loop, keep a record
    exactly when its trimmed name is not blank and no earlier record has
    that trimmed name; names are compared as they are, case included. The
    kept records are in the order of the input, their trimmed names are
    not blank and pairwise distinct. Reading
    [{"name":"A","x":1},{"name":"A","x":2}] and de-duplicating leaves the
    one record with [x] equal to 1; of the names [a], [A] and [a] between
    spaces the first two are kept. *)
Theorem C4_dedup_first_nonblank :
  keeps_first_of_each_nonblank_name (fun rs => records (apply_records rs))
  /\ (forall rs, linkStart.dedup_from ∅ [] rs = records (apply_records rs))
  /\ (forall rs,
        records (apply_records rs) `sublist_of` rs
        /\ NoDup (rec_name <$> records (apply_records rs))
        /\ (forall r, r ∈ records (apply_records rs) -> rec_name r <> []))
  /\ records (apply_records (H := Ref.runtime)
                (records_of_text (H := Ref.runtime)
                   (Ref.jtext "[{'name':'A','x':1},{'name':'A','x':2}]")))
     = [[(k_name, JStr (lit "A")); (lit "x", JInt 1)]]
  /\ linkStart.records_of_text (H := Ref.runtime)
       (Ref.jtext "[{'name':'A','x':1},{'name':'A','x':2}]")
     = [[(k_name, JStr (lit "A")); (lit "x", JInt 1)]]
  /\ records (apply_records (H := Ref.runtime)
                [[(k_name, JStr (lit "a"))]; [(k_name, JStr (lit "A"))];
                 [(k_name, JStr (lit " a "))]])
     = [[(k_name, JStr (lit "a"))]; [(k_name, JStr (lit "A"))]].
Proof.
  split_and!.
  - split; [done|]. apply apply_records_snoc.
  - intros rs. apply linkStart_dedup_from.
  - intros rs. split_and!.
    + apply apply_records_sublist.
    + apply apply_records_NoDup.
    + apply apply_records_nonblank.
  - by vm_compute.
  - by vm_compute.
  - by vm_compute.
Qed.

(** C4 does not hold of every trimmed name: a record whose name is made
    of spaces is a normalised record and the first of its trimmed name, and
    it is dropped. *)
Lemma C4_blank_name_dropped :
  let r0 : dict := [(k_name, JStr (lit "  "))] in
  norm_one (H := Ref.runtime) (JDict r0) JNull = Some r0
  /\ ~ keeps_first_of_each_name (H := Ref.runtime)
         (fun rs => records (apply_records (H := Ref.runtime) rs)).
Proof.
  split; [by vm_compute|].
  intros [_ Hk]. specialize (Hk [] [(k_name, JStr (lit "  "))]).
  vm_compute in Hk. discriminate.
Qed.

End dedup.

(** ** The copy loop of the normalisers *)

Section copy_loop.
Import Py db_editor Spec.

Lemma linkStart_copy_entry out kv : linkStart.copy_entry out kv = copy_entry out kv.
Proof. reflexivity. Qed.

Lemma copy_entry_lookup K acc kv :
  dict_lookup K (copy_entry acc kv)
  = if decide (strip kv.1 <> [] /\ K = strip kv.1) then Some (denull kv.2)
    else dict_lookup K acc.
Proof.
  unfold copy_entry. destruct (nonempty (strip kv.1)) eqn:Hn.
  - apply nonempty_true in Hn. rewrite dict_lookup_set.
    destruct (decide (K = strip kv.1)) as [->|Hne].
    + by rewrite decide_True.
    + rewrite decide_False; [done|]. by intros [_ ?].
  - apply nonempty_false in Hn. rewrite decide_False; [done|]. by intros [? _].
Qed.

(** When the keys stay distinct after trimming, the loop appends the
    copied entries one after the other. *)
Lemma fold_copy_distinct items acc :
  NoDup (acc ++ copied items).*1 ->
  fold_left copy_entry items acc = acc ++ copied items.
Proof.
  revert acc. induction items as [|[k v] items IH]; intros acc Hnd.
  - by rewrite app_nil_r.
  - cbn [fold_left]. unfold copied in *. rewrite filter_cons in *.
    unfold copy_entry. cbn [fst snd] in *.
    destruct (decide (strip k <> [])) as [Hk|Hk].
    + rewrite (proj2 (nonempty_true _) Hk). rewrite fmap_cons in *.
      cbn [fst snd] in *.
      assert (Hfresh : dict_lookup (strip k) acc = None).
      { apply eq_None_not_Some. rewrite dict_lookup_keys. intros Hin.
        rewrite fmap_app, fmap_cons in Hnd. apply NoDup_app in Hnd as (_ & Hd & _).
        apply (Hd _ Hin). by left. }
      rewrite dict_set_fresh by done. rewrite IH.
      * by rewrite <- app_assoc.
      * by rewrite <- app_assoc.
    + assert (Hk' : strip k = []) by (by destruct (decide (strip k = []))).
      rewrite (proj2 (nonempty_false _) Hk'). by apply IH.
Qed.

(** A key of the result comes from the accumulator or is the non-empty
    trimmed form of a source key. *)
Lemma fold_copy_in K items acc :
  is_Some (dict_lookup K (fold_left copy_entry items acc))
  <-> is_Some (dict_lookup K acc)
      \/ (K <> [] /\ exists k, k ∈ items.*1 /\ strip k = K).
Proof.
  revert acc. induction items as [|[k v] items IH]; intros acc.
  - simpl. split; [by left|]. intros [?|(_ & k & ?%elem_of_nil & _)]; done.
  - cbn [fold_left]. rewrite IH, copy_entry_lookup. cbn [fst snd].
    rewrite fmap_cons. cbn [fst].
    destruct (decide (strip k <> [] /\ K = strip k)) as [[Hk ->]|Hn].
    + split; [|eauto]. intros _. right. split; [done|]. exists k.
      split; [by left|done].
    + split.
      * intros [?|(HK & k' & Hin & E)]; [by left|]. right. split; [done|].
        exists k'. split; [by right|done].
      * intros [?|(HK & k' & Hin & E)]; [by left|].
        apply elem_of_cons in Hin as [->|Hin].
        -- exfalso. apply Hn. by subst K.
        -- right. split; [done|]. by exists k'.
Qed.

(** Under [alias_free], the value stored under 名称 or title is the source
    value under that very key. *)
Lemma fold_copy_own_key K items acc :
  strip K = K -> K <> [] ->
  NoDup items.*1 ->
  (forall k, k ∈ items.*1 -> strip k = K -> strip k = k) ->
  dict_lookup K (fold_left copy_entry items acc)
  = match dict_lookup K items with
    | Some v => Some (denull v)
    | None => dict_lookup K acc
    end.
Proof.
  intros HK HKne. revert acc.
  induction items as [|[k v] items IH]; intros acc Hnd Hal; [done|].
  cbn [fold_left]. rewrite fmap_cons in Hnd. cbn [fst] in Hnd.
  apply NoDup_cons in Hnd as [Hk Hnd].
  rewrite IH; [|done|].
  - cbn [dict_lookup]. destruct (decide (K = k)) as [->|Hne].
    + rewrite pystr_eqb_refl.
      assert (Hn : dict_lookup k items = None).
      { apply eq_None_not_Some. by rewrite dict_lookup_keys. }
      rewrite Hn, copy_entry_lookup. cbn [fst snd].
      rewrite decide_True; [done|]. by rewrite HK.
    + rewrite (pystr_eqb_neq K k) by done.
      destruct (dict_lookup K items); [done|].
      rewrite copy_entry_lookup. cbn [fst snd].
      rewrite decide_False; [done|]. intros [_ E]. apply Hne.
      rewrite E. apply Hal; [by left|done].
  - intros k' Hin. apply Hal. by right.
Qed.

End copy_loop.

(** ** C10 and C3: the two normalisers *)

Section normalisers.
Import Py db_editor Spec.
Context `{Runtime}.

Lemma py_or_denull v X : py_or (denull v) X = py_or v X.
Proof. by destruct v. Qed.

Lemma py_or_get_copy K items X :
  strip K = K -> K <> [] ->
  NoDup items.*1 ->
  (forall k, k ∈ items.*1 -> strip k = K -> strip k = k) ->
  py_or (dict_get K JNull (fold_left copy_entry items [])) X
  = py_or (dict_get K JNull items) X.
Proof.
  intros HK HKne Hnd Hal. unfold dict_get.
  rewrite fold_copy_own_key by done.
  destruct (dict_lookup K items) as [v|]; simpl; [|done].
  apply py_or_denull.
Qed.

Lemma py_or_chain a a' b b' fb :
  (forall X, py_or a X = py_or a' X) ->
  (forall X, py_or b X = py_or b' X) ->
  py_or (py_or a b) fb = py_or (py_or a' b') fb.
Proof.
  intros Ha Hb. rewrite Ha. unfold py_or at 2 4.
  destruct (truthy a'); [done|]. apply Hb.
Qed.

(** The two normalisers agree on every value that is [alias_free]. *)
Lemma normalisers_agree rec fb :
  alias_free rec -> linkStart._normalize_record rec fb = norm_one rec fb.
Proof.
  destruct rec as [| | | | |l|items]; try done.
  intros [Hnd Hal]. rewrite Forall_forall in Hal.
  unfold linkStart._normalize_record, norm_one.
  change (fold_left linkStart.copy_entry items [])
    with (fold_left copy_entry items []).
  set (out := fold_left copy_entry items []).
  destruct (dict_in k_name out) eqn:Hin.
  - by rewrite andb_false_r.
  - rewrite andb_true_r.
    assert (Hno : dict_lookup k_name items = None).
    { apply eq_None_not_Some. rewrite dict_lookup_keys. intros Hk.
      apply dict_in_false in Hin.
      assert (Hs : is_Some (dict_lookup k_name out)).
      { apply fold_copy_in. right. split; [done|]. by exists k_name. }
      rewrite Hin in Hs. by destruct Hs. }
    assert (Hg : dict_get k_name JNull items = JNull)
      by (unfold dict_get; by rewrite Hno).
    rewrite !Hg. cbn [truthy negb].
    assert (Hnm :
      py_or (py_or (dict_get k_mingcheng JNull out) (dict_get k_title JNull out)) fb
      = py_or (py_or (dict_get k_mingcheng JNull items)
                     (dict_get k_title JNull items)) fb).
    { apply py_or_chain; intros X; apply py_or_get_copy; try done.
      - intros k Hk E. apply Hal; [done|by left].
      - intros k Hk E. apply Hal; [done|by right]. }
    rewrite <- Hnm. by destruct (is_none _).
Qed.

(** The two normalisers agree on every mapping with a key that trims to
    [name]: both return the trimmed copy, or [None] both. *)
Lemma normalisers_agree_named rec fb :
  has_name_key rec -> linkStart._normalize_record rec fb = norm_one rec fb.
Proof.
  destruct rec as [| | | | |l|items]; try done.
  intros (k & Hk & Hs)%Exists_exists.
  unfold linkStart._normalize_record, norm_one.
  change (fold_left linkStart.copy_entry items [])
    with (fold_left copy_entry items []).
  assert (Hin : dict_in k_name (fold_left copy_entry items []) = true).
  { apply dict_in_lookup, fold_copy_in. right. split; [done|]. by exists k. }
  rewrite Hin. by rewrite andb_false_r.
Qed.

(** C10. [_normalize_record] and [norm_one] return the same result (equal
    records, or [None] both) for every fallback name and every value that
    is not a mapping, for every mapping with a key that trims to [name],
    and for every mapping in which no key other than 名称 and title
    themselves trims to one of the two. They differ on the mapping whose
    one key is title after a space: [norm_one] finds the title in the
    trimmed copy and names the record after it, [_normalize_record] looks
    for it in the mapping as given and returns [None]. *)
Theorem C10_normalisers_agree :
  (forall rec fb,
     has_name_key rec \/ alias_free rec ->
     linkStart._normalize_record rec fb = norm_one rec fb)
  /\ norm_one (JDict [(lit " title", JStr (lit "X"))]) JNull
     = Some [(k_title, JStr (lit "X")); (k_name, JStr (lit "X"))]
  /\ linkStart._normalize_record (JDict [(lit " title", JStr (lit "X"))]) JNull
     = None.
Proof.
  split_and!; [|done|done].
  intros rec fb [Hn|Ha];
    [by apply normalisers_agree_named|by apply normalisers_agree].
Qed.

End normalisers.

Section normalise_mapping.
Import Py db_editor Spec.
Context `{Runtime}.

Lemma copied_every_entry items : copies_every_entry items (copied items).
Proof.
  intros k v Hin Hk. unfold copied. apply list_elem_of_fmap.
  exists (k, v). split; [done|]. by apply list_elem_of_filter.
Qed.

Lemma norm_one_distinct items fb :
  distinct_after_trim items ->
  norm_one (JDict items) fb
  = match dict_lookup k_name (copied items) with
    | Some v => if truthy v then Some (copied items) else None
    | None =>
        let alt := dict_get k_mingcheng JNull (copied items) in
        let alt' := dict_get k_title JNull (copied items) in
        let nm :=
          if truthy alt then alt else if truthy alt' then alt' else fb in
        if is_none nm then None
        else if nonempty (py_str nm)
             then Some (copied items ++ [(k_name, JStr (py_str nm))])
             else None
    end.
Proof.
  intros Hd. unfold norm_one.
  rewrite (fold_copy_distinct items []) by done. rewrite app_nil_l.
  set (out := copied items).
  destruct (dict_lookup k_name out) as [v|] eqn:Hl.
  - assert (Hin : dict_in k_name out = true)
      by (apply dict_in_lookup; eauto).
    rewrite Hin. unfold dict_get. by rewrite Hl.
  - assert (Hin : dict_in k_name out = false) by (by apply dict_in_false).
    rewrite Hin. cbn zeta.
    replace (py_or (py_or (dict_get k_mingcheng JNull out)
                          (dict_get k_title JNull out)) fb)
      with (if truthy (dict_get k_mingcheng JNull out)
            then dict_get k_mingcheng JNull out
            else if truthy (dict_get k_title JNull out)
                 then dict_get k_title JNull out else fb).
    2:{ unfold py_or. destruct (truthy (dict_get k_mingcheng JNull out)) eqn:E.
        - by rewrite E.
        - done. }
    set (nm := if truthy (dict_get k_mingcheng JNull out) then _ else _).
    destruct (is_none nm).
    + unfold dict_get. by rewrite Hl.
    + rewrite dict_get_set. cbn [truthy].
      by rewrite dict_set_fresh.
Qed.

(** C3, for keys that stay distinct. For every mapping whose keys stay
    pairwise distinct after trimming, [norm_one] builds the record
    [copied items]: the source entries whose trimmed key is not empty, in
    order, keys trimmed and [None] replaced by the empty string. If that
    record has a name key, it is returned when the name is truthy and
    [None] is returned otherwise. If it has none, the name is [str] of the
    first truthy value among the record's 名称 value, its title value and
    then the fallback, appended as last entry, and [None] is returned when
    there is no such value or its [str] is empty. Every returned record
    holds each copied entry and nothing else but the name.
    [_normalize_record] returns the same whenever, besides, no key other
    than 名称 and title themselves trims to one of the two. *)
Theorem C3_normalise_mapping (items : dict) (fb : json) :
  distinct_after_trim items ->
  norm_one (JDict items) fb
  = match dict_lookup k_name (copied items) with
    | Some v => if truthy v then Some (copied items) else None
    | None =>
        let alt := dict_get k_mingcheng JNull (copied items) in
        let alt' := dict_get k_title JNull (copied items) in
        let nm :=
          if truthy alt then alt else if truthy alt' then alt' else fb in
        if is_none nm then None
        else if nonempty (py_str nm)
             then Some (copied items ++ [(k_name, JStr (py_str nm))])
             else None
    end
  /\ (forall out,
        norm_one (JDict items) fb = Some out ->
        copies_every_entry items out
        /\ truthy (dict_get k_name JNull out) = true
        /\ forall kv, kv ∈ out -> kv ∈ copied items \/ kv.1 = k_name)
  /\ (alias_free (JDict items) ->
      linkStart._normalize_record (JDict items) fb = norm_one (JDict items) fb).
Proof.
  intros Hd. split_and!.
  - by apply norm_one_distinct.
  - intros out. rewrite norm_one_distinct by done.
    destruct (dict_lookup k_name (copied items)) as [v|] eqn:Hl.
    + destruct (truthy v) eqn:Hv; [|done]. intros [= <-]. split_and!.
      * apply copied_every_entry.
      * unfold dict_get. by rewrite Hl.
      * intros kv ?. by left.
    + cbn zeta. destruct (is_none _); [done|].
      destruct (nonempty _) eqn:Hn; [|done]. intros [= <-]. split_and!.
      * intros k v Hin Hk. apply elem_of_app. left.
        by apply copied_every_entry.
      * rewrite <- dict_set_fresh by done. by rewrite dict_get_set.
      * intros kv [?| ->%list_elem_of_singleton]%elem_of_app; [by left|by right].
  - apply normalisers_agree.
Qed.

(** C3 does not hold of every mapping: of two keys that are equal after
    trimming only the later entry is in the record. *)
Lemma C3_colliding_keys :
  let items : dict := [(lit "a", JInt 1); (lit " a", JInt 2)] in
  let out : dict := [(lit "a", JInt 2); (k_name, JStr (lit "N"))] in
  norm_one (H := Ref.runtime) (JDict items) (JStr (lit "N")) = Some out
  /\ ~ copies_every_entry items out.
Proof.
  split; [by vm_compute|].
  intros Hc. specialize (Hc (lit "a") (JInt 1)).
  assert (Hin : (strip (lit "a"), denull (JInt 1))
                ∈ [(lit "a", JInt 2); (k_name, JStr (lit "N"))]).
  { apply Hc; [by left|by vm_compute]. }
  vm_compute in Hin.
  apply elem_of_cons in Hin as [[=]|Hin].
  apply elem_of_cons in Hin as [[=]|Hin].
  by apply elem_of_nil in Hin.
Qed.

End normalise_mapping.

(** ** C5 and C1: reading a text *)

Section reading.
Import Py db_editor Spec.
Context `{Runtime}.

(** A record that [norm_one] returns has a truthy name when it comes from
    a mapping, and is never the empty dict. *)
Lemma norm_one_mapping_name items fb out :
  norm_one (JDict items) fb = Some out ->
  truthy (dict_get k_name JNull out) = true.
Proof.
  unfold norm_one. cbn zeta.
  destruct (truthy (dict_get k_name JNull _)) eqn:E; [|done].
  by intros [= <-].
Qed.

Lemma norm_one_not_empty v fb out : norm_one v fb = Some out -> out <> [].
Proof.
  destruct v as [| | | |s|l|items]; try done.
  - by intros [= <-].
  - intros Hn%norm_one_mapping_name ->. done.
Qed.

Lemma append_if_norm_one out v fb :
  append_if out (norm_one v fb)
  = match norm_one v fb with Some d => out ++ [d] | None => out end.
Proof.
  unfold append_if. destruct (norm_one v fb) as [d|] eqn:E; [|done].
  apply norm_one_not_empty in E. by destruct d.
Qed.

Lemma jsonl_step_line arr line :
  jsonl_step arr line
  = match line_record line with Some d => arr ++ [d] | None => arr end.
Proof.
  unfold jsonl_step, line_record.
  destruct (nonempty (strip line)); simpl; [|done].
  destruct (json_loads (strip line)) as [obj|]; simpl; [|done].
  apply append_if_norm_one.
Qed.

Lemma records_of_text_lines text :
  json_loads text = None ->
  records_of_text text = omap line_record (splitlines text).
Proof.
  intros Hl. unfold records_of_text. rewrite Hl.
  by rewrite (fold_left_append _ line_record) by apply jsonl_step_line.
Qed.

Lemma try_read_text_with_Some (encs : list pystr) (fs : files)
    (path t : pystr) :
  try_read_text_with encs fs path = Some t ->
  is_Some (fs !! path) /\ nonempty t = true.
Proof.
  induction encs as [|enc encs IH]; simpl; [done|].
  destruct (fs !! path) as [bs|] eqn:Hf; simpl.
  - destruct (text_decode enc bs) as [t'|]; [|by auto].
    destruct (nonempty t' && nonempty (strip t')) eqn:E; [|by auto].
    intros [= ->]. split; [eauto|]. by apply andb_true_iff in E as [? _].
  - intros Ht. by apply IH in Ht as [[? ?] _].
Qed.

Lemma linkStart_try_read_text (fs : files) (path : pystr) :
  linkStart._try_read_text fs path = try_read_text fs path.
Proof.
  unfold linkStart._try_read_text, try_read_text.
  change linkStart.encodings with encodings.
  induction encodings as [|enc encs IH]; simpl; [done|]. by rewrite IH.
Qed.

Lemma read_json_list_text (fs : files) (path text : pystr) :
  try_read_text fs path = Some text ->
  read_json_list fs path = records_of_text text.
Proof.
  intros Ht. unfold read_json_list. rewrite Ht.
  apply try_read_text_with_Some in Ht as [Hs Hn].
  rewrite bool_decide_eq_true_2 by done. simpl. by rewrite Hn.
Qed.

(** C5. When [json.loads] raises on the whole text, [read_json_list]
    returns, in the order of the lines, the records of the lines that are
    not blank, parse on their own and normalise; every other line is
    passed over and no line makes the read fail. The three lines
    [{"name":"A"}], [NOT JSON], [{"name":"B"}] give the records A and
    B. *)
Theorem C5_json_lines_fallback :
  (forall text,
     json_loads text = None ->
     records_of_text text = omap line_record (splitlines text))
  /\ (forall (fs : files) (path text : pystr),
        try_read_text fs path = Some text ->
        json_loads text = None ->
        read_json_list fs path = omap line_record (splitlines text))
  /\ (let text := Ref.jtext "{'name':'A'}|NOT JSON|{'name':'B'}" in
      Ref.json_loads text = None
      /\ splitlines text
         = [Ref.jtext "{'name':'A'}"; lit "NOT JSON"; Ref.jtext "{'name':'B'}"]
      /\ records_of_text (H := Ref.runtime) text
         = [[(k_name, JStr (lit "A"))]; [(k_name, JStr (lit "B"))]]).
Proof.
  split_and!.
  - apply records_of_text_lines.
  - intros fs path text Ht Hl. rewrite (read_json_list_text _ _ _ Ht).
    by apply records_of_text_lines.
  - by vm_compute.
Qed.

(** A record that [norm_one] returns has a truthy name, unless it is the
    record made of an empty string. *)
Lemma norm_one_name v fb out :
  norm_one v fb = Some out ->
  truthy (dict_get k_name JNull out) = true \/ out = [(k_name, JStr [])].
Proof.
  destruct v as [| | | |s|l|items]; try done.
  - intros [= <-]. destruct s as [|c s]; [by right|by left].
  - intros Hn%norm_one_mapping_name. by left.
Qed.

Lemma elem_of_append_norm_one {X} (f : X -> option dict) (l : list X) out :
  out ∈ fold_left (fun acc x => append_if acc (f x)) l [] ->
  (forall x d, f x = Some d ->
     truthy (dict_get k_name JNull d) = true \/ d = [(k_name, JStr [])]) ->
  truthy (dict_get k_name JNull out) = true \/ out = [(k_name, JStr [])].
Proof.
  intros Hin Hf.
  rewrite (fold_left_append _
             (fun x => match f x with
                       | Some d => if truthy (JDict d) then Some d else None
                       | None => None
                       end)) in Hin.
  - simpl in Hin. apply list_elem_of_omap in Hin as (x & _ & Hx).
    destruct (f x) as [d|] eqn:E; [|done].
    destruct d as [|kv d]; [done|]. injection Hx as <-. by eapply Hf.
  - intros acc x. unfold append_if. destruct (f x) as [d|]; [|done].
    by destruct (truthy (JDict d)).
Qed.

Lemma records_of_data_name data out :
  out ∈ records_of_data data ->
  truthy (dict_get k_name JNull out) = true \/ out = [(k_name, JStr [])].
Proof.
  unfold records_of_data. destruct data as [| | | | |l|d]; try by intros ?%elem_of_nil.
  - intros Hin. apply (elem_of_append_norm_one _ _ _ Hin).
    intros x d'. apply norm_one_name.
  - destruct (dict_get k_items JNull d) as [| | | | |l|d'];
      try (intros Hin; apply (elem_of_append_norm_one _ _ _ Hin);
           intros [k v] d''; destruct v; apply norm_one_name).
    intros Hin. apply (elem_of_append_norm_one _ _ _ Hin).
    intros x d''. apply norm_one_name.
Qed.

Lemma records_of_text_name text out :
  out ∈ records_of_text text ->
  truthy (dict_get k_name JNull out) = true \/ out = [(k_name, JStr [])].
Proof.
  unfold records_of_text. destruct (json_loads text) as [data|] eqn:E.
  - apply records_of_data_name.
  - rewrite (fold_left_append _ line_record) by apply jsonl_step_line.
    simpl. intros (line & _ & Hl)%list_elem_of_omap. unfold line_record in Hl.
    destruct (nonempty (strip line)); [|done].
    destruct (json_loads (strip line)) as [obj|]; [|done].
    by apply norm_one_name in Hl.
Qed.

(** C1, at a list with an empty string as element: the record returned
    for it has the empty string as name, which is not truthy. This is so
    for [read_json_list] on a file, and for the records of
    [read_json_records] before its closing loop. It is the one exception:
    every other record that [read_json_list] returns for a text has a
    truthy name. *)
Theorem C1_empty_string_element :
  (let path := lit "data/races.json" in
   let fs : files :=
     {[ path := default [] (Ref.utf8_encode (Ref.jtext "['']")) ]} in
   Ref.json_loads (Ref.jtext "['']") = Some (JList [JStr []])
   /\ read_json_list (H := Ref.runtime) fs path = [[(k_name, JStr [])]]
   /\ linkStart.records_of_data (H := Ref.runtime) (JList [JStr []])
      = [[(k_name, JStr [])]]
   /\ truthy (dict_get k_name JNull [(k_name, JStr [])]) = false)
  /\ (forall text out,
        out ∈ records_of_text text ->
        truthy (dict_get k_name JNull out) = true
        \/ out = [(k_name, JStr [])]).
Proof.
  split; [split_and!; by vm_compute|]. apply records_of_text_name.
Qed.

End reading.

(** ** C8: saving and loading back *)

Section round_trip.
Import Py db_editor Spec.
Context `{Runtime}.

Lemma copied_canonical (r : dict) :
  Forall (fun kv : pystr * json =>
            strip kv.1 = kv.1 /\ kv.1 <> [] /\ is_none kv.2 = false) r ->
  copied r = r.
Proof.
  unfold copied. induction 1 as [|[k v] r (Hk & Hne & Hv) Hr IH]; [done|].
  cbn [fst snd] in *.
  rewrite filter_cons. cbn [fst]. rewrite decide_True by (by rewrite Hk).
  rewrite fmap_cons. cbn [fst snd]. rewrite Hk. f_equal; [|done].
  f_equal. unfold denull. by rewrite Hv.
Qed.

Lemma norm_one_canonical r fb : canonical r -> norm_one (JDict r) fb = Some r.
Proof.
  intros (Hnd & Hr & Hname).
  rewrite norm_one_distinct.
  - rewrite (copied_canonical r Hr). unfold dict_get in Hname.
    destruct (dict_lookup k_name r) as [v|]; [|done]. simpl in Hname.
    by rewrite Hname.
  - unfold distinct_after_trim. by rewrite (copied_canonical r Hr).
Qed.

Lemma canonical_alias_free r : canonical r -> alias_free (JDict r).
Proof.
  intros (Hnd & Hr & _). split; [done|]. apply Forall_forall. intros k Hk _.
  apply list_elem_of_fmap in Hk as ([k' v] & -> & Hin).
  rewrite Forall_forall in Hr. by apply (Hr (k', v)).
Qed.

(** A list of mappings is read back as the records its mappings
    normalise to. *)
Lemma records_of_data_list (rs : list dict) :
  records_of_data (JList (JDict <$> rs))
  = omap (fun r => norm_one (JDict r) JNull) rs.
Proof.
  unfold records_of_data.
  rewrite (fold_left_append _ (fun it => norm_one it JNull))
    by (intros; apply append_if_norm_one).
  simpl. induction rs as [|r rs IH]; [done|].
  rewrite fmap_cons. cbn [omap list_omap]. by rewrite IH.
Qed.

Lemma omap_norm_one_canonical rs :
  Forall canonical rs -> omap (fun r => norm_one (JDict r) JNull) rs = rs.
Proof.
  induction 1 as [|r rs Hr Hrs IH]; [done|].
  cbn [omap list_omap]. rewrite norm_one_canonical by done. by rewrite IH.
Qed.

Lemma records_of_data_canonical rs :
  Forall canonical rs -> records_of_data (JList (JDict <$> rs)) = rs.
Proof.
  intros Hrs. rewrite records_of_data_list. by apply omap_norm_one_canonical.
Qed.

Lemma linkStart_records_of_data_canonical rs :
  Forall canonical rs ->
  linkStart.records_of_data (JList (JDict <$> rs)) = rs.
Proof.
  intros Hrs. unfold linkStart.records_of_data.
  rewrite (fold_left_append _ (fun it => linkStart._normalize_record it JNull)).
  - simpl. induction Hrs as [|r rs Hr Hrs IH]; [done|].
    rewrite fmap_cons. cbn [omap list_omap].
    rewrite normalisers_agree by (by apply canonical_alias_free).
    rewrite norm_one_canonical by done. by rewrite IH.
  - intros out it. unfold linkStart.append_if.
    destruct (linkStart._normalize_record it JNull) as [d|] eqn:E; [|done].
    assert (Hd : d <> []).
    { destruct it as [| | | |s|l|items]; try done.
      - by injection E as <-.
      - unfold linkStart._normalize_record in E. cbn zeta in E.
        destruct (truthy (dict_get k_name JNull _)) eqn:Ht; [|done].
        injection E as <-. intros E'. by rewrite E' in Ht. }
    by destruct d.
Qed.

Lemma apply_records_id rs :
  NoDup (rec_name <$> rs) -> (forall r, r ∈ rs -> rec_name r <> []) ->
  records (apply_records rs) = rs.
Proof.
  induction rs as [|r rs IH] using rev_ind; intros Hnd Hnb; [done|].
  rewrite apply_records_snoc. rewrite fmap_app in Hnd.
  apply NoDup_app in Hnd as (Hnd & Hfresh & _).
  rewrite decide_True.
  - rewrite IH; [done..|]. intros r' Hr'. apply Hnb, elem_of_app. by left.
  - split.
    + apply Hnb, elem_of_app. right. by apply list_elem_of_singleton.
    + intros Hin. apply (Hfresh _ Hin). by left.
Qed.

(** C8. Let the path be writable and let the library print, encode,
    decode and parse the document of the records [rs] back to itself. Then
    [write_json_list] succeeds, and [read_json_list] on the written file
    returns the records that the mappings of [rs] normalise to. For [rs]
    in canonical form (distinct, trimmed, non-empty keys, no [None] value,
    a truthy name) these are the records of [rs], entry for entry. When,
    besides, the trimmed names of [rs] are not blank and pairwise
    distinct, the de-duplicating loads of the editor and of
    [read_json_records] return [rs] as well. *)
Theorem C8_save_load_round_trip (fs : files) (path : pystr)
    (rs : list dict) :
  can_write path = true ->
  library_round_trip (JList (JDict <$> rs)) ->
  exists fs',
    write_json_list fs path rs = Some fs'
    /\ read_json_list fs' path = omap (fun r => norm_one (JDict r) JNull) rs
    /\ (Forall canonical rs ->
        read_json_list fs' path = rs
        /\ (NoDup (rec_name <$> rs) ->
            (forall r, r ∈ rs -> rec_name r <> []) ->
            records (apply_records (read_json_list fs' path)) = rs
            /\ linkStart.read_json_records fs' path = rs)).
Proof.
  intros Hw (text & bytes & Hdump & Henc & Hdec & Hnb & Hload).
  exists (<[path := bytes]> fs).
  assert (Htext : try_read_text (<[path := bytes]> fs) path = Some text).
  { unfold try_read_text, encodings. cbn [try_read_text_with].
    rewrite lookup_insert_eq. cbn [mbind option_bind]. rewrite Hdec.
    apply nonempty_true in Hnb. rewrite Hnb, andb_true_r.
    destruct text; [done|]. done. }
  assert (Hread : read_json_list (<[path := bytes]> fs) path
                  = omap (fun r => norm_one (JDict r) JNull) rs).
  { rewrite (read_json_list_text _ _ _ Htext). unfold records_of_text.
    rewrite Hload. apply records_of_data_list. }
  split_and!.
  - unfold write_json_list. rewrite Hw, Hdump. simpl. by rewrite Henc.
  - done.
  - intros Hrs. rewrite Hread, omap_norm_one_canonical by done.
    split; [done|]. intros Hnd Hne. split.
    + by apply apply_records_id.
    + unfold linkStart.read_json_records.
      rewrite linkStart_try_read_text, Htext. apply try_read_text_with_Some in Htext as [Hs Hn].
      rewrite bool_decide_eq_true_2 by done. simpl. rewrite Hn. simpl.
      unfold linkStart.records_of_text. rewrite Hload.
      rewrite linkStart_records_of_data_canonical by done.
      rewrite linkStart_dedup_from. by apply apply_records_id.
Qed.

End round_trip.

(** ** C9: the names of the editor's records stay distinct *)

Section invariant.
Import Py db_editor Spec.
Context `{Runtime}.

Lemma elem_of_insert_inv {X} (l : list X) i x z :
  z ∈ <[i := x]> l -> z = x \/ z ∈ l.
Proof.
  revert i. induction l as [|y l IH]; intros [|i]; simpl; try (by right).
  - rewrite !elem_of_cons. intros [->|?]; [by left|by right; right].
  - rewrite !elem_of_cons. intros [->|Hz]; [by right; left|].
    destruct (IH _ Hz); [by left|by right; right].
Qed.

Lemma NoDup_insert_fresh {X} (l : list X) i x :
  NoDup l -> x ∉ l -> NoDup (<[i := x]> l).
Proof.
  revert i. induction l as [|y l IH]; intros [|i] Hnd Hx; simpl; try done.
  - apply NoDup_cons in Hnd as [_ Hnd]. apply not_elem_of_cons in Hx as [_ Hx].
    by apply NoDup_cons.
  - apply NoDup_cons in Hnd as [Hy Hnd]. apply not_elem_of_cons in Hx as [Hxy Hx].
    apply NoDup_cons. split; [|by apply IH].
    intros [->|Hin]%elem_of_insert_inv; done.
Qed.

(** Appending a record whose trimmed name is not blank and not in the
    index keeps the invariant. *)
Lemma distinct_names_append e r :
  distinct_names e -> rec_name r <> [] -> index e !! rec_name r = None ->
  distinct_names (with_records (records e ++ [r])).
Proof.
  intros [Hstep Hnd] Hne Hfree. split; [apply with_records_in_step|].
  simpl. rewrite fmap_app. apply NoDup_app. split_and!; [done| |apply NoDup_singleton].
  intros nm Hnm ->%list_elem_of_singleton.
  rewrite Hstep in Hfree. by apply rebuild_index_None in Hfree.
Qed.

(** Replacing the record the index gives for [old] by one whose trimmed
    name is [old], or is not blank and not in the index, keeps the
    invariant. *)
Lemma distinct_names_replace e old idx r :
  distinct_names e -> index e !! old = Some idx ->
  rec_name r = old \/ (rec_name r <> [] /\ index e !! rec_name r = None) ->
  list_set idx r (records e) = Some (<[idx := r]> (records e))
  /\ distinct_names (with_records (<[idx := r]> (records e))).
Proof.
  intros [Hstep Hnd] Hidx Hr. pose proof Hidx as Hidx'. rewrite Hstep in Hidx'.
  apply rebuild_index_Some in Hidx' as (Hold & (r0 & Hl & Hn) & _).
  split; [apply list_set_in_range; by eapply lookup_lt_Some|].
  split; [apply with_records_in_step|]. simpl. rewrite list_fmap_insert.
  destruct Hr as [Hr|[Hne Hfree]].
  - rewrite list_insert_id; [done|]. rewrite list_lookup_fmap, Hl. simpl.
    by rewrite Hn, Hr.
  - apply NoDup_insert_fresh; [done|]. rewrite Hstep in Hfree.
    by apply rebuild_index_None in Hfree.
Qed.

Lemma add_fields_lookup (fields : list field) (rec : dict) K v :
  dict_lookup K rec = Some v ->
  dict_lookup K
    (fold_left
       (fun rec f =>
          if dict_in (f_key f) rec then rec
          else dict_set (f_key f)
                 (if negb (pystr_eqb (f_type f) (lit "text"))
                  then default (JStr []) (f_default f) else JStr [])
                 rec)
       fields rec)
  = Some v.
Proof.
  revert rec. induction fields as [|f fields IH]; intros rec Hl; [done|].
  cbn [fold_left]. apply IH.
  destruct (dict_in (f_key f) rec) eqn:Hin; [done|].
  rewrite dict_lookup_set. rewrite decide_False; [done|].
  intros ->. apply dict_in_false in Hin. by rewrite Hin in Hl.
Qed.

Lemma add_item_distinct fields answer e :
  distinct_names e -> distinct_names (add_item fields answer e).
Proof.
  intros Hinv. unfold add_item. destruct answer as [name|]; [|done].
  destruct (nonempty name); simpl; [|done].
  destruct (nonempty (strip name)) eqn:Hn; simpl; [|done].
  case_bool_decide as Hs; [done|].
  apply nonempty_true in Hn. apply eq_None_not_Some in Hs.
  set (rec := fold_left _ fields _).
  assert (Hrec : rec_name rec = strip name).
  { unfold rec_name, dict_get.
    unfold rec. rewrite (add_fields_lookup _ _ k_name (JStr (strip name)))
      by (by vm_compute).
    simpl. apply strip_idemp. }
  apply distinct_names_append; [done|by rewrite Hrec..].
Qed.

Lemma dup_item_distinct sel e :
  distinct_names e ->
  exists e', dup_item sel e = Some e' /\ distinct_names e'.
Proof.
  intros Hinv. unfold dup_item. destruct sel as [old|]; [|by eauto].
  destruct (index e !! old) as [idx|] eqn:Hidx; [|by eauto].
  pose proof Hidx as Hidx'. destruct Hinv as [Hstep Hnd]. rewrite Hstep in Hidx'.
  apply rebuild_index_Some in Hidx' as (Hold & (r0 & Hl & Hn) & _).
  destruct (first_free_total (copy_name old) (index e) 2) as [i Hi];
    [apply copy_name_inj|].
  rewrite Hi, Hl. simpl. eexists. split; [done|].
  apply first_free_spec in Hi as (_ & Hfree & _).
  assert (Hnew : rec_name (dict_set k_name (JStr (copy_name old i)) r0)
                 = copy_name old i).
  { rewrite rec_name_set_name. rewrite <- Hn in *. unfold rec_name in *.
    by apply copy_name_stripped. }
  apply distinct_names_append; [done| |]; rewrite Hnew;
    [apply copy_name_nonempty|done].
Qed.

Lemma del_item_distinct sel confirmed e :
  distinct_names e ->
  exists e', del_item sel confirmed e = Some e' /\ distinct_names e'.
Proof.
  intros Hinv. unfold del_item. destruct sel as [nm|]; [|by eauto].
  destruct confirmed; simpl; [|by eauto].
  destruct Hinv as [Hstep Hnd].
  destruct (index e !! nm) as [idx|] eqn:Hidx.
  - pose proof Hidx as Hidx'. rewrite Hstep in Hidx'.
    apply rebuild_index_Some in Hidx' as (_ & (r0 & Hl & _) & _).
    unfold list_del. rewrite bool_decide_eq_true_2 by (by eapply lookup_lt_Some).
    simpl. eexists. split; [done|]. split; [apply with_records_in_step|].
    simpl. rewrite list_fmap_delete.
    eapply sublist_NoDup; [done|apply sublist_delete].
  - eexists. split; [done|]. split; [apply with_records_in_step|done].
Qed.

Lemma save_current_item_distinct fields sel form e :
  distinct_names e ->
  exists e', save_current_item fields sel form e = Some e' /\ distinct_names e'.
Proof.
  intros Hinv. unfold save_current_item. destruct sel as [old|]; [|by eauto].
  destruct (index e !! old) as [idx|] eqn:Hidx; [|by eauto].
  destruct (existsb _ fields); [by eauto|].
  destruct (nonempty (rec_name form)) eqn:Hn; simpl; [|by eauto].
  apply nonempty_true in Hn.
  destruct (negb (pystr_eqb (rec_name form) old)
            && bool_decide (is_Some (index e !! rec_name form))) eqn:Hc;
    [by eauto|].
  destruct (distinct_names_replace e old idx form Hinv Hidx) as [Hset Hinv'].
  - apply andb_false_iff in Hc as [Hc|Hc].
    + left. apply negb_false_iff in Hc. by apply pystr_eqb_eq.
    + right. split; [done|]. apply bool_decide_eq_false in Hc.
      by apply eq_None_not_Some.
  - rewrite Hset. simpl. eauto.
Qed.

Lemma import_row_distinct fk nc st e c r :
  distinct_names e ->
  exists e' c', import_row fk nc st (e, c) r = Some (e', c') /\ distinct_names e'.
Proof.
  intros Hinv. unfold import_row.
  destruct (nonempty (row_name nc r)) eqn:Hn; simpl; [|by eauto].
  apply nonempty_true in Hn.
  destruct (index e !! row_name nc r) as [idx|] eqn:Hidx.
  - destruct (pystr_eqb st (lit "skip")); [by eauto|].
    destruct (pystr_eqb st (lit "overwrite")).
    { destruct (distinct_names_replace e _ idx
                  (row_record fk r (row_name nc r)) Hinv Hidx) as [Hset Hinv'].
      - left. rewrite row_record_name. apply row_name_stripped.
      - rewrite Hset. simpl. eauto. }
    destruct (pystr_eqb st (lit "rename")).
    { destruct (first_free_total (suffix_name (row_name nc r)) (index e) 2)
        as [i Hi]; [apply suffix_name_inj|].
      rewrite Hi. simpl. do 2 eexists. split; [done|].
      apply first_free_spec in Hi as (_ & Hfree & _).
      assert (Hnew : rec_name (dict_set k_name
                                 (JStr (suffix_name (row_name nc r) i))
                                 (row_record fk r (row_name nc r)))
                     = suffix_name (row_name nc r) i).
      { rewrite rec_name_set_name. unfold row_name in *.
        by apply suffix_name_stripped. }
      apply distinct_names_append; [done| |]; rewrite Hnew;
        [apply suffix_name_nonempty|done]. }
    do 2 eexists. split; [done|]. destruct Hinv as [_ Hnd].
    split; [apply with_records_in_step|done].
  - do 2 eexists. split; [done|].
    assert (Hnew : rec_name (row_record fk r (row_name nc r)) = row_name nc r).
    { rewrite row_record_name. apply row_name_stripped. }
    apply distinct_names_append; [done|by rewrite Hnew..].
Qed.

Lemma import_rows_distinct fk nc st rows e c :
  distinct_names e ->
  exists e' c', import_rows fk nc st rows (e, c) = Some (e', c')
                /\ distinct_names e'.
Proof.
  revert e c. induction rows as [|r rows IH]; intros e c Hinv.
  - by exists e, c.
  - cbn [import_rows].
    destruct (import_row_distinct fk nc st e c r Hinv) as (e1 & c1 & Hr & Hinv1).
    rewrite Hr. cbn [mbind option_bind]. by apply IH.
Qed.

Lemma import_csv_distinct fields rows chosen st e :
  distinct_names e ->
  exists e' c', import_csv fields rows chosen st e = Some (e', c')
                /\ distinct_names e'.
Proof.
  intros Hinv. unfold import_csv. destruct rows as [|r rows]; [by eauto|].
  destruct (negb (nonempty _)); [by eauto|].
  destruct (negb (nonempty st)); [by eauto|].
  by apply import_rows_distinct.
Qed.

Lemma run_distinct fields a e :
  distinct_names e ->
  exists e', run fields a e = Some e' /\ distinct_names e'.
Proof.
  intros Hinv.
  destruct a as [answer|sel|sel confirmed|sel form|rows chosen st]; simpl.
  - eexists. split; [done|]. by apply add_item_distinct.
  - by apply dup_item_distinct.
  - by apply del_item_distinct.
  - by apply save_current_item_distinct.
  - destruct (import_csv_distinct fields rows chosen st e Hinv)
      as (e' & c' & Hi & Hinv').
    rewrite Hi. simpl. eauto.
Qed.

(** C9. The list that [apply_records] installs, as at the initial load,
    has pairwise distinct trimmed names and an index in step. From an
    editor in that state, adding, duplicating, deleting, saving the edit of
    the selected record and importing a CSV file under any policy all
    return, and leave an editor in that state. So every state a tab
    reaches has pairwise distinct trimmed names. *)
Theorem C9_distinct_names (fields : list field) :
  (forall rs, distinct_names (apply_records rs))
  /\ (forall (fs : files) (path : pystr),
        distinct_names (apply_records (read_json_list fs path)))
  /\ (forall a e,
        distinct_names e ->
        exists e', run fields a e = Some e' /\ distinct_names e')
  /\ (forall e,
        reachable fields e ->
        NoDup (rec_name <$> records e)
        /\ forall a, is_Some (run fields a e)).
Proof.
  assert (Hload : forall rs, distinct_names (apply_records rs)).
  { intros rs. split; [apply with_records_in_step|apply apply_records_NoDup]. }
  assert (Hreach : forall e, reachable fields e -> distinct_names e).
  { induction 1 as [fs path|a e e' _ IH Hrun]; [apply Hload|].
    destruct (run_distinct fields a e IH) as (e'' & Hrun' & Hinv).
    rewrite Hrun in Hrun'. by injection Hrun' as ->. }
  split_and!; [done| | |].
  - intros fs path. apply Hload.
  - intros a e. apply run_distinct.
  - intros e He%Hreach. split; [by destruct He|].
    intros a. destruct (run_distinct fields a e He) as (e' & -> & _). eauto.
Qed.

End invariant.

(** ** The theorems at sample data *)

(** A decidable statement about sample data, settled by evaluation. *)
Ltac by_compute :=
  match goal with
  | |- ?P => apply (bool_decide_unpack P); vm_compute; exact I
  end.

Section witnesses.
Import Py db_editor Spec Examples.
#[local] Existing Instance Ref.runtime.

(** The keys and names given by code points are the ones of the source. *)
Lemma literals_spelled :
  k_mingcheng = Ref.u "名称"
  /\ copy_name (lit "A") 2 = Ref.u "A (复制2)"
  /\ suffix_name (lit "A") 12 = lit "A (12)".
Proof. split_and!; by vm_compute. Qed.

Lemma C2_witness :
  in_step races
  /\ import_rows [k_name; lit "desc"] k_name (lit "rename") [human_row]
       (races, no_counts)
     = Some (with_records
               [human; elf;
                [(k_name, JStr (Ref.u "人类 (2)")); (lit "desc", JStr (Ref.u "新"))]],
             {| added := 0; updated := 0; skipped := 0; renamed := 1 |})
  /\ exists i,
       2 <= i
       /\ import_rows [k_name; lit "desc"] k_name (lit "rename")
            ([human_row] ++ [human_row]) (races, no_counts)
          = Some (with_records
                    ([human; elf;
                      [(k_name, JStr (Ref.u "人类 (2)"));
                       (lit "desc", JStr (Ref.u "新"))]]
                     ++ [dict_set k_name
                           (JStr (suffix_name (row_name k_name human_row) i))
                           (row_record [k_name; lit "desc"] human_row
                              (row_name k_name human_row))]),
                  {| added := 0; updated := 0; skipped := 0; renamed := 2 |}).
Proof.
  split; [reflexivity|]. split; [by vm_compute|].
  destruct (proj1 C2_rename_smallest_suffix [k_name; lit "desc"] k_name
              races
              (with_records
                 [human; elf;
                  [(k_name, JStr (Ref.u "人类 (2)"));
                   (lit "desc", JStr (Ref.u "新"))]])
              no_counts
              {| added := 0; updated := 0; skipped := 0; renamed := 1 |}
              [human_row] human_row)
    as (i & Hle & _ & _ & _ & Hrows & _).
  - reflexivity.
  - by vm_compute.
  - by vm_compute.
  - by_compute.
  - exists i. split; [exact Hle|exact Hrows].
Defined.

Lemma C3_witness :
  let items : dict :=
    [(lit " desc ", JNull); (lit "title", JStr (Ref.u "人类")); (lit "  ", JInt 1)] in
  distinct_after_trim items
  /\ norm_one (JDict items) JNull
     = Some [(lit "desc", JStr []); (lit "title", JStr (Ref.u "人类"));
             (k_name, JStr (Ref.u "人类"))].
Proof.
  intros items.
  assert (Hd : distinct_after_trim items)
    by (by_compute).
  split; [exact Hd|].
  rewrite (proj1 (C3_normalise_mapping items JNull Hd)). by vm_compute.
Defined.

Lemma C4_witness :
  records (apply_records ([human] ++ [elf]))
  = records (apply_records [human]) ++ [elf].
Proof.
  rewrite (proj2 (proj1 C4_dedup_first_nonblank) [human] elf). by vm_compute.
Defined.

Lemma C5_witness :
  let text := Ref.jtext "{'name':'A'}|NOT JSON|{'name':'B'}" in
  json_loads text = None
  /\ records_of_text text = omap line_record (splitlines text).
Proof.
  intros text.
  assert (Hl : json_loads text = None) by (by vm_compute).
  split; [exact Hl|]. exact (proj1 C5_json_lines_fallback text Hl).
Defined.

Lemma C6_witness :
  let h := [lit "name"; lit "desc"; lit "speed"] in
  let rest := [[Ref.u "人类"; Ref.u "通用"; lit "30"]] in
  (has_nonblank_cell description_row
   /\ csv_data_rows (h :: description_row :: rest) = rest)
  /\ (entirely_blank blank_row
      /\ csv_data_rows (h :: blank_row :: rest) = blank_row :: rest).
Proof.
  intros h rest.
  assert (Hc : has_nonblank_cell description_row) by (by_compute).
  assert (Hb : entirely_blank blank_row) by (by_compute).
  split; (split; [done|]).
  - exact (proj2 (proj1 (C6_description_row h description_row rest)) Hc).
  - exact (proj1 (proj2 (C6_description_row h blank_row rest)) Hb).
Defined.

Lemma C7_witness :
  index races = rebuild_index (records races)
  /\ exists i,
       import_row [k_name; lit "desc"] k_name (lit "overwrite")
         (races, no_counts) human_row
       = Some (with_records
                 (<[i := row_record [k_name; lit "desc"] human_row
                           (row_name k_name human_row)]> (records races)),
               {| added := 0; updated := 0 + 1; skipped := 0; renamed := 0 |}).
Proof.
  split; [reflexivity|].
  destruct (proj2 (C7_overwrite_in_place [k_name; lit "desc"] k_name races
                     no_counts human_row eq_refl) human)
    as (i & old' & _ & _ & _ & Hrow & _).
  - change (human ∈ [human; elf]). by left.
  - by vm_compute.
  - by vm_compute.
  - exists i. exact Hrow.
Defined.

Lemma C8_witness :
  Forall canonical [human; elf]
  /\ can_write races_path = true
  /\ library_round_trip (JList (JDict <$> [human; elf]))
  /\ exists fs',
       write_json_list ∅ races_path [human; elf] = Some fs'
       /\ read_json_list fs' races_path = [human; elf].
Proof.
  assert (Hc : Forall canonical [human; elf])
    by (by_compute).
  assert (Hl : library_round_trip (JList (JDict <$> [human; elf]))).
  { eexists _, _. split_and!.
    - vm_compute. reflexivity.
    - vm_compute. reflexivity.
    - by vm_compute.
    - by vm_compute.
    - by vm_compute. }
  split_and!; [exact Hc|reflexivity|exact Hl|].
  destruct (C8_save_load_round_trip (H := Ref.runtime) ∅ races_path
              [human; elf] eq_refl Hl)
    as (fs' & Hw & _ & Hr).
  exists fs'. split; [exact Hw|exact (proj1 (Hr Hc))].
Defined.

Lemma C9_witness :
  distinct_names races
  /\ exists e',
       run race_fields
         (ImportCsv [human_row; human_row] (lit "name") (lit "rename")) races
       = Some e'
       /\ distinct_names e'.
Proof.
  assert (Hd : distinct_names races)
    by (by_compute).
  split; [exact Hd|].
  exact (proj1 (proj2 (proj2 (C9_distinct_names race_fields))) _ races Hd).
Defined.

Lemma C10_witness :
  let named := JDict [(lit " name ", JStr (lit "N")); (lit " title", JStr (lit "X"))] in
  let plain := JDict [(lit "title", JStr (Ref.u "人类")); (lit " desc", JNull)] in
  (has_name_key named
   /\ linkStart._normalize_record named JNull = norm_one named JNull)
  /\ (alias_free plain
      /\ linkStart._normalize_record plain JNull = norm_one plain JNull).
Proof.
  intros named plain.
  assert (Hn : has_name_key named) by (by_compute).
  assert (Ha : alias_free plain) by (by_compute).
  split; (split; [done|]).
  - exact (proj1 C10_normalisers_agree named JNull (or_introl Hn)).
  - exact (proj1 C10_normalisers_agree plain JNull (or_intror Ha)).
Defined.

(** C8 does not hold of every canonical list: a name with a lone
    surrogate, which a file holds as an escape and [read_json_list] loads,
    makes a canonical record, and writing it raises, UTF-8 having no
    encoding for it. *)
Lemma C8_lone_surrogate :
  let rs : list dict :=
    [[(k_name, JStr (lit "B"))]; [(k_name, JStr (lit "A" ++ [55296]))]] in
  Forall canonical rs
  /\ records_of_text (Ref.jtext "[{'name':'B'},{'name':'A\ud800'}]") = rs
  /\ can_write races_path = true
  /\ write_json_list ∅ races_path rs = None
  /\ ~ exists fs',
        write_json_list ∅ races_path rs = Some fs'
        /\ read_json_list fs' races_path = rs.
Proof.
  intros rs.
  assert (Hw : write_json_list (H := Ref.runtime) ∅ races_path rs = None)
    by (by vm_compute).
  split_and!; [by_compute|by vm_compute|reflexivity|exact Hw|].
  intros (fs' & Hs & _). rewrite Hw in Hs. discriminate.
Qed.

End witnesses.

(** * Further properties of the code *)

(** ** Reading a text file *)

Section more_reading.
Import Py db_editor Spec.
Context `{Runtime}.

Lemma try_read_text_with_first (encs : list pystr) (fs : files)
    (path t : pystr) :
  try_read_text_with encs fs path = Some t ->
  exists bs pre enc post,
    fs !! path = Some bs
    /\ encs = pre ++ enc :: post
    /\ text_decode enc bs = Some t
    /\ strip t <> []
    /\ forall enc' t', enc' ∈ pre -> text_decode enc' bs = Some t' ->
         strip t' = [].
Proof.
  induction encs as [|enc encs IH]; simpl; [done|].
  destruct (fs !! path) as [bs|] eqn:Hf; simpl.
  - destruct (text_decode enc bs) as [t0|] eqn:Hd.
    + destruct (nonempty t0 && nonempty (strip t0)) eqn:Hn.
      * intros [= ->]. apply andb_true_iff in Hn as [_ Hn%nonempty_true].
        exists bs, [], enc, encs. split_and!; try done.
        intros enc' t' Hin. by apply elem_of_nil in Hin.
      * intros Ht. destruct (IH Ht) as (bs' & pre & enc1 & post & Hbs & -> & Hdec & Hne & Hpre).
        injection Hbs as <-.
        exists bs, (enc :: pre), enc1, post. split_and!; try done.
        intros enc' t' [->|Hin]%elem_of_cons Hd'; [|by eapply Hpre].
        rewrite Hd in Hd'. injection Hd' as <-.
        apply andb_false_iff in Hn as [Hn|Hn].
        -- apply nonempty_false in Hn. by rewrite Hn.
        -- by apply nonempty_false.
    + intros Ht. destruct (IH Ht) as (bs' & pre & enc1 & post & Hbs & -> & Hdec & Hne & Hpre).
      injection Hbs as <-.
      exists bs, (enc :: pre), enc1, post. split_and!; try done.
      intros enc' t' [->|Hin]%elem_of_cons Hd'; [|by eapply Hpre].
      by rewrite Hd in Hd'.
  - intros Ht. by destruct (IH Ht) as (bs' & _ & _ & _ & Hbs & _).
Qed.

Lemma try_read_text_with_None (encs : list pystr) (fs : files)
    (path : pystr) :
  (forall bs enc t, fs !! path = Some bs -> enc ∈ encs ->
     text_decode enc bs = Some t -> strip t = []) ->
  try_read_text_with encs fs path = None.
Proof.
  induction encs as [|enc encs IH]; intros Hall; simpl; [done|].
  destruct (fs !! path) as [bs|] eqn:Hf; simpl.
  - destruct (text_decode enc bs) as [t0|] eqn:Hd.
    + rewrite (Hall bs enc t0 eq_refl (list_elem_of_here _ _) Hd).
      rewrite andb_false_r. apply IH. intros bs' enc' t' Hbs Hin.
      apply (Hall bs' enc' t' Hbs). by right.
    + apply IH. intros bs' enc' t' Hbs Hin. apply (Hall bs' enc' t' Hbs). by right.
  - apply IH. intros bs' enc' t' Hbs. done.
Qed.

Lemma try_read_text_with_reads (fs : files) (path : pystr) (bs : list N)
    (pre : list pystr) (enc : pystr) (post : list pystr) (t : pystr) :
  fs !! path = Some bs ->
  text_decode enc bs = Some t ->
  strip t <> [] ->
  (forall enc' t', enc' ∈ pre -> text_decode enc' bs = Some t' ->
     strip t' = []) ->
  try_read_text_with (pre ++ enc :: post) fs path = Some t.
Proof.
  intros Hf Hd Hne Hpre. induction pre as [|e pre IH]; simpl.
  - rewrite Hf. simpl. rewrite Hd.
    rewrite (proj2 (nonempty_true (strip t)) Hne), andb_true_r.
    destruct t; [by destruct Hne|done].
  - rewrite Hf. simpl.
    assert (IH' : try_read_text_with (pre ++ enc :: post) fs path = Some t).
    { apply IH. intros enc' t' Hin. apply Hpre. by right. }
    destruct (text_decode e bs) as [t'|] eqn:He; [|done].
    rewrite (proj2 (nonempty_false (strip t'))), andb_false_r; [done|].
    apply (Hpre e); [by left|done].
Qed.

(** X1. [try_read_text] returns the decoding of the file under the first
    of the seven encodings whose decoding succeeds and is not blank: a
    file that has such a decoding is read under the first encoding that
    gives one, and [read_json_list] goes on with that text; the text
    returned has a character that is not white space, and every earlier
    encoding failed or gave a blank text. It returns [None] for a missing
    file, and when no encoding gives a text that is not blank. *)
Theorem X1_try_read_text (fs : files) (path : pystr) :
  (fs !! path = None -> try_read_text fs path = None)
  /\ (forall t,
        try_read_text fs path = Some t ->
        exists bs pre enc post,
          fs !! path = Some bs
          /\ encodings = pre ++ enc :: post
          /\ text_decode enc bs = Some t
          /\ strip t <> []
          /\ forall enc' t', enc' ∈ pre -> text_decode enc' bs = Some t' ->
               strip t' = [])
  /\ ((forall bs enc t, fs !! path = Some bs -> enc ∈ encodings ->
         text_decode enc bs = Some t -> strip t = []) ->
      try_read_text fs path = None
      /\ read_json_list fs path = [])
  /\ (forall bs pre enc post t,
        fs !! path = Some bs ->
        encodings = pre ++ enc :: post ->
        text_decode enc bs = Some t ->
        strip t <> [] ->
        (forall enc' t', enc' ∈ pre -> text_decode enc' bs = Some t' ->
           strip t' = []) ->
        try_read_text fs path = Some t
        /\ read_json_list fs path = records_of_text t).
Proof.
  split_and!.
  - intros Hf. apply try_read_text_with_None. intros bs enc t Hbs.
    by rewrite Hf in Hbs.
  - intros t. apply try_read_text_with_first.
  - intros Hall.
    assert (Hn : try_read_text fs path = None)
      by (by apply try_read_text_with_None).
    split; [done|]. unfold read_json_list. rewrite Hn.
    by destruct (negb _).
  - intros bs pre enc post t Hf He Hd Hne Hpre.
    assert (Ht : try_read_text fs path = Some t).
    { unfold try_read_text. rewrite He.
      by apply (try_read_text_with_reads fs path bs). }
    split; [done|]. by apply read_json_list_text.
Qed.

End more_reading.

(** ** The index and the list of names *)

Section more_index.
Import Py db_editor Spec.
Context `{Runtime} `{Platform}.

(** With distinct names the index is the inverse of the position. *)
Lemma rebuild_index_position rs i r :
  NoDup (rec_name <$> rs) -> rs !! i = Some r -> rec_name r <> [] ->
  rebuild_index rs !! rec_name r = Some i.
Proof.
  intros Hnd Hr Hne. rewrite rebuild_index_lookup.
  rewrite (proj2 (nonempty_true _) Hne).
  assert (Hf : list_find (fun r' => rec_name r' = rec_name r) rs = Some (i, r)).
  { apply list_find_Some. split_and!; [done..|]. intros j y Hy Hlt Hn.
    assert (j = i); [|lia].
    eapply (NoDup_lookup _ _ _ _ Hnd); rewrite list_lookup_fmap.
    - by rewrite Hy; simpl; rewrite Hn.
    - by rewrite Hr. }
  by rewrite Hf.
Qed.

(** X2. [rebuild_index] stores under a name the position of the first
    record whose trimmed name it is, and stores nothing under a blank
    name; when the trimmed names are pairwise distinct, every record with
    a name that is not blank is found at its own position. *)
Theorem X2_rebuild_index (rs : list dict) :
  (forall nm i,
     rebuild_index rs !! nm = Some i <->
     nm <> []
     /\ (exists r, rs !! i = Some r /\ rec_name r = nm)
     /\ (forall j r', rs !! j = Some r' -> (j < i)%nat -> rec_name r' <> nm))
  /\ (NoDup (rec_name <$> rs) ->
      forall i r, rs !! i = Some r -> rec_name r <> [] ->
        rebuild_index rs !! rec_name r = Some i).
Proof.
  split.
  - intros nm i. split; [apply rebuild_index_Some|].
    intros (Hne & (r & Hr & Hn) & Hfirst). rewrite rebuild_index_lookup.
    rewrite (proj2 (nonempty_true _) Hne).
    assert (Hf : list_find (fun r' => rec_name r' = nm) rs = Some (i, r))
      by (by apply list_find_Some).
    by rewrite Hf.
  - intros Hnd i r. by apply rebuild_index_position.
Qed.

Lemma list_filter_sublist {X} (f : X -> bool) (l : list X) :
  List.filter f l `sublist_of` l.
Proof.
  induction l as [|x l IH]; simpl; [done|].
  destruct (f x); [by apply sublist_skip|by apply sublist_cons].
Qed.

Lemma elem_of_list_filter_bool {X} (f : X -> bool) (l : list X) x :
  x ∈ List.filter f l <-> x ∈ l /\ f x = true.
Proof. rewrite !list_elem_of_In. apply List.filter_In. Qed.

Lemma filtered_names_elem q e nm :
  nm ∈ filtered_names q e -> nm <> [] /\ nm ∈ (rec_name <$> records e).
Proof.
  unfold filtered_names. destruct (negb (nonempty _)).
  - intros [Hin Hn%nonempty_true]%elem_of_list_filter_bool. done.
  - intros [Hin [Hn%nonempty_true _]%andb_true_iff]%elem_of_list_filter_bool.
    done.
Qed.

(** X3. With the index in step, every name that [filtered_names] lists,
    whatever the search text, selects a record: [on_select] hands
    [fill_form] a record of the list whose trimmed name is the selected
    entry. The names listed are trimmed names of records, in the order of
    the records, and they are pairwise distinct when those of the records
    are. *)
Theorem X3_listed_names_select (q : pystr) (e : editor) :
  in_step e ->
  (forall nm,
     nm ∈ filtered_names q e ->
     exists r, on_select (Some nm) e = Some r
               /\ r ∈ records e /\ rec_name r = nm)
  /\ filtered_names q e `sublist_of` (rec_name <$> records e)
  /\ (NoDup (rec_name <$> records e) -> NoDup (filtered_names q e)).
Proof.
  intros Hstep.
  assert (Hsub : filtered_names q e `sublist_of` (rec_name <$> records e)).
  { unfold filtered_names. destruct (negb _); apply list_filter_sublist. }
  split_and!; [|done|].
  - intros nm [Hne Hin]%filtered_names_elem.
    assert (Hs : is_Some (index e !! nm)) by (by apply in_step_index).
    destruct Hs as [idx Hidx]. pose proof Hidx as Hidx'. rewrite Hstep in Hidx'.
    apply rebuild_index_Some in Hidx' as (_ & (r & Hr & Hn) & _).
    exists r. simpl. rewrite Hidx. split_and!; [done| |done].
    by eapply list_elem_of_lookup_2.
  - intros Hnd. by eapply sublist_NoDup.
Qed.

(** X4. [apply_records] is idempotent: applying it to the list it has
    installed installs the same list and the same index. *)
Theorem X4_apply_records_idempotent (rs : list dict) :
  apply_records (records (apply_records rs)) = apply_records rs.
Proof.
  change (apply_records (records (apply_records rs)))
    with (with_records (records (apply_records (records (apply_records rs))))).
  rewrite apply_records_id; [done| |].
  - apply apply_records_NoDup.
  - apply apply_records_nonblank.
Qed.

End more_index.

(** ** The operations of the editor, one by one *)

Section more_editor.
Import Py db_editor Spec.
Context `{Runtime}.

(** The defaults that [add_item] writes: the first field of each key
    decides, and a key already there is left alone. *)
Lemma add_fields_lookup_all (fields : list field) (rec : dict) K :
  dict_lookup K
    (fold_left
       (fun rec f =>
          if dict_in (f_key f) rec then rec
          else dict_set (f_key f)
                 (if negb (pystr_eqb (f_type f) (lit "text"))
                  then default (JStr []) (f_default f) else JStr [])
                 rec)
       fields rec)
  = match dict_lookup K rec with
    | Some v => Some v
    | None =>
        (fun p => field_default p.2)
          <$> list_find (fun f => f_key f = K) fields
    end.
Proof.
  revert rec. induction fields as [|f fields IH]; intros rec.
  - simpl. by destruct (dict_lookup K rec).
  - cbn [fold_left list_find]. rewrite IH. clear IH.
    destruct (dict_in (f_key f) rec) eqn:Hin.
    + destruct (dict_lookup K rec) as [v|] eqn:Hl; [done|].
      rewrite decide_False.
      * by destruct (list_find _ fields) as [[j x]|].
      * intros E. apply dict_in_lookup in Hin. rewrite E, Hl in Hin.
        by destruct Hin.
    + apply dict_in_false in Hin. rewrite dict_lookup_set.
      destruct (decide (K = f_key f)) as [->|Hne].
      * rewrite Hin. by rewrite decide_True.
      * destruct (dict_lookup K rec) as [v|]; [done|].
        rewrite decide_False by done.
        by destruct (list_find _ fields) as [[j x]|].
Qed.

(** X5. [add_item] leaves the editor as it is when the dialog is
    cancelled, when the answer is blank and when a record has the trimmed
    answer as name. Otherwise it appends one record after the others: its
    name is the trimmed answer, every other key of the schema holds the
    default of the first field with that key (the empty string for a text
    field or a field without default), and it has no other key. *)
Theorem X5_add_item (fields : list field) (e : editor) :
  add_item fields None e = e
  /\ (forall name, strip name = [] -> add_item fields (Some name) e = e)
  /\ (forall name,
        is_Some (index e !! strip name) ->
        add_item fields (Some name) e = e)
  /\ (forall name,
        strip name <> [] -> index e !! strip name = None ->
        exists rec,
          add_item fields (Some name) e = with_records (records e ++ [rec])
          /\ forall k,
               dict_lookup k rec
               = if decide (k = k_name) then Some (JStr (strip name))
                 else (fun p => field_default p.2)
                        <$> list_find (fun f => f_key f = k) fields).
Proof.
  split_and!.
  - done.
  - intros name Hb. unfold add_item. destruct (nonempty name); simpl; [|done].
    by rewrite Hb.
  - intros name Hs. unfold add_item. destruct (nonempty name); simpl; [|done].
    destruct (nonempty (strip name)); simpl; [|done].
    by rewrite bool_decide_eq_true_2.
  - intros name Hne Hfree. unfold add_item.
    assert (Hn : nonempty name = true).
    { apply nonempty_true. intros ->. by apply Hne. }
    rewrite Hn. simpl. rewrite (proj2 (nonempty_true _) Hne). simpl.
    rewrite bool_decide_eq_false_2 by (rewrite Hfree; by intros [? ?]).
    eexists. split; [done|]. intros k. rewrite add_fields_lookup_all.
    cbn [dict_lookup]. destruct (decide (k = k_name)) as [->|Hk].
    + by rewrite pystr_eqb_refl.
    + by rewrite pystr_eqb_neq.
Qed.

(** X6. [dup_item] does nothing without a selection or for an entry that
    is not in the index. For an entry in the index it appends a copy of
    the first record of that name: the copy has the name [copy_name old i]
    with [i >= 2] the least number whose name is not in the index, and
    under every other key what the original has; the original and the
    other records stay. *)
Theorem X6_dup_item (e : editor) :
  in_step e ->
  dup_item None e = Some e
  /\ (forall old, index e !! old = None -> dup_item (Some old) e = Some e)
  /\ (forall old idx,
        index e !! old = Some idx ->
        exists i r,
          records e !! idx = Some r
          /\ rec_name r = old
          /\ 2 <= i
          /\ index e !! copy_name old i = None
          /\ (forall j, 2 <= j < i -> is_Some (index e !! copy_name old j))
          /\ dup_item (Some old) e
             = Some (with_records
                       (records e
                        ++ [dict_set k_name (JStr (copy_name old i)) r]))
          /\ rec_name (dict_set k_name (JStr (copy_name old i)) r)
             = copy_name old i
          /\ forall k, k <> k_name ->
               dict_lookup k (dict_set k_name (JStr (copy_name old i)) r)
               = dict_lookup k r).
Proof.
  intros Hstep. split_and!.
  - done.
  - intros old Hn. simpl. by rewrite Hn.
  - intros old idx Hidx. pose proof Hidx as Hidx'. rewrite Hstep in Hidx'.
    apply rebuild_index_Some in Hidx' as (Hold & (r & Hr & Hn) & _).
    destruct (first_free_total (copy_name old) (index e) 2) as [i Hi];
      [apply copy_name_inj|].
    pose proof Hi as (Hle & Hfree & Hused)%first_free_spec.
    exists i, r. split_and!; try done.
    + simpl. rewrite Hidx, Hi, Hr. done.
    + rewrite rec_name_set_name. rewrite <- Hn in *. unfold rec_name in *.
      by apply copy_name_stripped.
    + intros k Hk. rewrite dict_lookup_set. by rewrite decide_False.
Qed.

Lemma NoDup_delete_gone {X} (l : list X) i x :
  NoDup l -> l !! i = Some x -> x ∉ delete i l.
Proof.
  revert i. induction l as [|y l IH]; intros [|i] Hnd Hl; simpl in *; try done.
  - injection Hl as ->. by apply NoDup_cons in Hnd as [? _].
  - apply NoDup_cons in Hnd as [Hy Hnd]. apply not_elem_of_cons. split.
    + intros ->. apply Hy. by eapply list_elem_of_lookup_2.
    + by apply IH.
Qed.

Lemma elem_of_delete_other {X} (l : list X) i x y :
  l !! i = Some x -> y <> x -> y ∈ l <-> y ∈ delete i l.
Proof.
  revert i. induction l as [|z l IH]; intros [|i] Hl Hne; simpl in *; try done.
  - injection Hl as ->. rewrite elem_of_cons. split; [by intros [?|?]|by right].
  - rewrite !elem_of_cons. by rewrite (IH i Hl Hne).
Qed.

(** X7. With distinct names and the index in step, a confirmed [del_item]
    on an entry of the index removes the one record of that name: the
    other records keep their order, the name is no longer in the index and
    every other name is in the index exactly when it was. Without a
    selection or without confirmation nothing changes. *)
Theorem X7_del_item (e : editor) :
  distinct_names e ->
  (forall confirmed, del_item None confirmed e = Some e)
  /\ (forall nm, del_item (Some nm) false e = Some e)
  /\ (forall nm idx,
        index e !! nm = Some idx ->
        exists e',
          del_item (Some nm) true e = Some e'
          /\ records e' = delete idx (records e)
          /\ S (length (records e')) = length (records e)
          /\ index e' !! nm = None
          /\ forall nm', nm' <> nm ->
               is_Some (index e' !! nm') <-> is_Some (index e !! nm')).
Proof.
  intros [Hstep Hnd]. split_and!; [done..|].
  intros nm idx Hidx. pose proof Hidx as Hidx'. rewrite Hstep in Hidx'.
  apply rebuild_index_Some in Hidx' as (Hne & (r & Hr & Hn) & _).
  assert (Hlt : (idx < length (records e))%nat) by (by eapply lookup_lt_Some).
  assert (Hnames : (rec_name <$> records e) !! idx = Some nm)
    by (by rewrite list_lookup_fmap, Hr; simpl; rewrite Hn).
  eexists. split_and!.
  - simpl. rewrite Hidx. unfold list_del.
    by rewrite bool_decide_eq_true_2.
  - done.
  - simpl. rewrite length_delete by (by eexists). lia.
  - simpl. apply eq_None_not_Some. rewrite rebuild_index_is_Some.
    intros [_ Hin]. rewrite list_fmap_delete in Hin.
    by apply (NoDup_delete_gone _ _ _ Hnd Hnames).
  - intros nm' Hne'. simpl. rewrite Hstep, !rebuild_index_is_Some.
    rewrite list_fmap_delete.
    by rewrite <- (elem_of_delete_other _ _ _ _ Hnames Hne').
Qed.

(** X8. With distinct names and the index in step, [save_current_item] on
    an entry of the index leaves the editor as it is when a required
    field of the form is blank, when the trimmed name of the form is blank
    and when that name differs from the entry and is in the index.
    Otherwise the form replaces the record at the position of the entry,
    the records at the other positions stay, and the index gives that
    position for the name of the form. *)
Theorem X8_save_current_item (fields : list field) (form : dict)
    (e : editor) (old : pystr) (idx : nat) :
  distinct_names e ->
  index e !! old = Some idx ->
  let required_blank :=
    existsb
      (fun f =>
         f_required f
         && negb (nonempty (strip (py_str (dict_get (f_key f) (JStr []) form)))))
      fields in
  let clash :=
    rec_name form <> old /\ is_Some (index e !! rec_name form) in
  (required_blank = true \/ rec_name form = [] \/ clash ->
   save_current_item fields (Some old) form e = Some e)
  /\ (required_blank = false -> rec_name form <> [] -> ~ clash ->
      exists e',
        save_current_item fields (Some old) form e = Some e'
        /\ records e' = <[idx := form]> (records e)
        /\ records e' !! idx = Some form
        /\ index e' !! rec_name form = Some idx
        /\ distinct_names e').
Proof.
  intros Hinv Hidx required_blank clash. split.
  - intros Hrej. unfold save_current_item. rewrite Hidx.
    fold required_blank. destruct required_blank; [done|].
    destruct Hrej as [?|[Hb|[Hne Hs]]]; [done| |].
    + by rewrite Hb.
    + destruct (nonempty (rec_name form)); simpl; [|done].
      rewrite pystr_eqb_neq by done. simpl.
      by rewrite bool_decide_eq_true_2.
  - intros Hreq Hne Hclash. unfold save_current_item. rewrite Hidx.
    fold required_blank. rewrite Hreq.
    rewrite (proj2 (nonempty_true _) Hne). simpl.
    assert (Hok : rec_name form = old
                  \/ (rec_name form <> [] /\ index e !! rec_name form = None)).
    { destruct (decide (rec_name form = old)) as [?|Hd]; [by left|].
      right. split; [done|]. apply eq_None_not_Some. intros Hs.
      by apply Hclash. }
    destruct (distinct_names_replace e old idx form Hinv Hidx Hok)
      as [Hset Hinv'].
    assert (Hc : negb (pystr_eqb (rec_name form) old)
                 && bool_decide (is_Some (index e !! rec_name form)) = false).
    { destruct Hok as [->|[_ Hfree]].
      - by rewrite pystr_eqb_refl.
      - rewrite Hfree. rewrite bool_decide_eq_false_2 by (by intros [? ?]).
        apply andb_false_r. }
    rewrite Hc, Hset. simpl. eexists. split; [done|].
    assert (Hlt : (idx < length (records e))%nat).
    { destruct Hinv as [Hstep _]. rewrite Hstep in Hidx.
      apply rebuild_index_Some in Hidx as (_ & (r & Hr & _) & _).
      by eapply lookup_lt_Some. }
    assert (Hat : <[idx := form]> (records e) !! idx = Some form)
      by (by apply list_lookup_insert_eq).
    split_and!; [done|done| |done].
    simpl. destruct Hinv' as [_ Hnd']. simpl in Hnd'.
    by apply rebuild_index_position.
Qed.

End more_editor.

(** ** CSV import as a whole *)

Section more_import.
Import Py db_editor Spec.
Context `{Runtime}.

Lemma row_fields_lookup (fk : list pystr) (r acc : dict) k :
  dict_lookup k
    (fold_left (fun d k' => dict_set k' (dict_get k' (JStr []) r) d) fk acc)
  = if decide (k ∈ fk) then Some (dict_get k (JStr []) r)
    else dict_lookup k acc.
Proof.
  revert acc. induction fk as [|k0 fk IH]; intros acc.
  - cbn [fold_left]. rewrite decide_False; [done|]. apply not_elem_of_nil.
  - cbn [fold_left]. rewrite IH. destruct (decide (k ∈ fk)) as [Hin|Hin].
    + rewrite decide_True; [done|]. by right.
    + rewrite dict_lookup_set. destruct (decide (k = k0)) as [->|Hne].
      * rewrite decide_True; [done|]. by left.
      * rewrite decide_False; [done|]. by intros [?|?]%elem_of_cons.
Qed.

(** X9. The record that [import_csv] builds from a row has the name of
    the row under the name key, under every other key of the schema the
    cell of the row with that header, or the empty string when the row has
    no such column, and no other key: columns outside the schema are
    dropped. A row whose name is not blank and not in the index is
    appended as that record whatever the policy, and counted as added. *)
Theorem X9_new_row_appended (fk : list pystr) (nc st : pystr) (e : editor)
    (c : counts) (r : dict) :
  (forall nm k,
     dict_lookup k (row_record fk r nm)
     = if decide (k = k_name) then Some (JStr nm)
       else if decide (k ∈ fk) then Some (dict_get k (JStr []) r)
       else None)
  /\ (row_name nc r <> [] -> index e !! row_name nc r = None ->
      import_row fk nc st (e, c) r
      = Some (with_records
                (records e ++ [row_record fk r (row_name nc r)]),
              {| added := added c + 1; updated := updated c;
                 skipped := skipped c; renamed := renamed c |})).
Proof.
  split.
  - intros nm k. unfold row_record. rewrite dict_lookup_set.
    destruct (decide (k = k_name)); [done|]. by rewrite row_fields_lookup.
  - intros Hne Hfree. unfold import_row.
    rewrite (proj2 (nonempty_true _) Hne). simpl. by rewrite Hfree.
Qed.

(** One row under one of the three policies, with the index in step. *)
Lemma import_row_counts fk nc st e c r :
  in_step e -> policy st -> row_name nc r <> [] ->
  exists e' c',
    import_row fk nc st (e, c) r = Some (e', c')
    /\ in_step e'
    /\ total c' = total c + 1
    /\ N.of_nat (length (records e')) + added c + renamed c
       = N.of_nat (length (records e)) + added c' + renamed c'
    /\ (st = lit "skip" -> updated c' = updated c /\ renamed c' = renamed c)
    /\ (st = lit "overwrite" ->
        skipped c' = skipped c /\ renamed c' = renamed c)
    /\ (st = lit "rename" -> updated c' = updated c /\ skipped c' = skipped c).
Proof.
  intros Hstep Hpol Hne. unfold import_row.
  rewrite (proj2 (nonempty_true _) Hne). simpl.
  destruct (index e !! row_name nc r) as [idx|] eqn:Hidx.
  - destruct Hpol as [->|[->| ->]].
    + change (pystr_eqb (lit "overwrite") (lit "skip")) with false.
      change (pystr_eqb (lit "overwrite") (lit "overwrite")) with true.
      cbn iota. pose proof Hidx as Hidx'. rewrite Hstep in Hidx'.
      apply rebuild_index_Some in Hidx' as (_ & (r0 & Hr & _) & _).
      rewrite list_set_in_range by (by eapply lookup_lt_Some). simpl.
      do 2 eexists. split; [done|]. unfold total. simpl.
      rewrite length_insert.
      split_and!; [apply with_records_in_step|lia|lia|done|done|done].
    + change (pystr_eqb (lit "skip") (lit "skip")) with true. cbn iota.
      do 2 eexists. split; [done|]. unfold total. simpl.
      split_and!; [done|lia|lia|done|done|done].
    + change (pystr_eqb (lit "rename") (lit "skip")) with false.
      change (pystr_eqb (lit "rename") (lit "overwrite")) with false.
      change (pystr_eqb (lit "rename") (lit "rename")) with true. cbn iota.
      destruct (first_free_total (suffix_name (row_name nc r)) (index e) 2)
        as [i Hi]; [apply suffix_name_inj|].
      rewrite Hi. simpl. do 2 eexists. split; [done|]. unfold total. simpl.
      rewrite length_app. simpl.
      split_and!; [apply with_records_in_step|lia|lia|done|done|done].
  - do 2 eexists. split; [done|]. unfold total. simpl.
    rewrite length_app. simpl.
    split_and!; [apply with_records_in_step|lia|lia|done|done|done].
Qed.

(** X10. Under each of the three policies, with the index in step, the
    import of a batch returns, and the four counters grow together by the
    number of rows whose name is not blank; the list grows by as many
    records as were added or renamed; the skip policy leaves the counters
    of updated and renamed rows alone, the overwrite policy those of
    skipped and renamed rows, the rename policy those of updated and
    skipped rows. *)
Theorem X10_import_counts (fk : list pystr) (nc st : pystr)
    (rows : list dict) (e : editor) (c : counts) :
  in_step e -> policy st ->
  exists e' c',
    import_rows fk nc st rows (e, c) = Some (e', c')
    /\ in_step e'
    /\ total c' = total c + N.of_nat (length (named_rows nc rows))
    /\ N.of_nat (length (records e')) + added c + renamed c
       = N.of_nat (length (records e)) + added c' + renamed c'
    /\ (st = lit "skip" -> updated c' = updated c /\ renamed c' = renamed c)
    /\ (st = lit "overwrite" ->
        skipped c' = skipped c /\ renamed c' = renamed c)
    /\ (st = lit "rename" -> updated c' = updated c /\ skipped c' = skipped c).
Proof.
  intros Hstep Hpol. revert e c Hstep.
  induction rows as [|r rows IH]; intros e c Hstep.
  - exists e, c. simpl. split_and!; try done. unfold named_rows. simpl. lia.
  - cbn [import_rows]. unfold named_rows. rewrite filter_cons.
    fold (named_rows nc rows).
    destruct (decide (row_name nc r <> [])) as [Hne|Hb].
    + destruct (import_row_counts fk nc st e c r Hstep Hpol Hne)
        as (e1 & c1 & Hr & Hstep1 & Ht1 & Hl1 & Hs1 & Ho1 & Hn1).
      rewrite Hr. cbn [mbind option_bind].
      destruct (IH e1 c1 Hstep1)
        as (e2 & c2 & Hrs & Hstep2 & Ht2 & Hl2 & Hs2 & Ho2 & Hn2).
      exists e2, c2. split; [done|]. simpl length.
      split_and!; [done|lia|lia| | |].
      * intros E. destruct (Hs1 E), (Hs2 E). split; congruence.
      * intros E. destruct (Ho1 E), (Ho2 E). split; congruence.
      * intros E. destruct (Hn1 E), (Hn2 E). split; congruence.
    + assert (Hb' : row_name nc r = [])
        by (by destruct (decide (row_name nc r = []))).
      assert (Hskip : import_row fk nc st (e, c) r = Some (e, c)).
      { unfold import_row. by rewrite Hb'. }
      rewrite Hskip. cbn [mbind option_bind]. by apply IH.
Qed.

(** What any row leaves in place. *)
Lemma import_row_keeps fk nc st e c r e' c' :
  in_step e ->
  import_row fk nc st (e, c) r = Some (e', c') ->
  in_step e'
  /\ (rec_name <$> records e) `prefix_of` (rec_name <$> records e')
  /\ (st <> lit "overwrite" -> records e `prefix_of` records e').
Proof.
  intros Hstep. unfold import_row.
  destruct (nonempty (row_name nc r)); simpl;
    [|by intros [= <- <-]].
  destruct (index e !! row_name nc r) as [idx|] eqn:Hidx.
  - destruct (pystr_eqb st (lit "skip")); [by intros [= <- <-]|].
    destruct (pystr_eqb st (lit "overwrite")) eqn:Ho.
    { apply pystr_eqb_eq in Ho. pose proof Hidx as Hidx'.
      rewrite Hstep in Hidx'.
      apply rebuild_index_Some in Hidx' as (_ & (r0 & Hr & Hn) & _).
      rewrite list_set_in_range by (by eapply lookup_lt_Some). simpl.
      intros [= <- <-]. split; [apply with_records_in_step|]. split; [|done].
      simpl. rewrite list_fmap_insert, list_insert_id; [done|].
      rewrite list_lookup_fmap, Hr. simpl. rewrite Hn, row_record_name.
      by rewrite row_name_stripped. }
    destruct (pystr_eqb st (lit "rename")).
    { destruct (first_free _ _ _ _) as [i|]; simpl; [|done].
      intros [= <- <-]. split; [apply with_records_in_step|]. simpl.
      split; [rewrite fmap_app|intros _]; by apply prefix_app_r. }
    intros [= <- <-]. split; [apply with_records_in_step|]. done.
  - intros [= <- <-]. split; [apply with_records_in_step|]. simpl.
    split; [rewrite fmap_app|intros _]; by apply prefix_app_r.
Qed.

(** X11. With the index in step, an import never moves or renames a
    record that was there: the trimmed names of the records before the
    import are, in the same order, those of the first records after it,
    whatever the policy. Under any policy but overwrite the records that
    were there are themselves unchanged. *)
Theorem X11_import_keeps_existing (fk : list pystr) (nc st : pystr)
    (rows : list dict) (e e' : editor) (c c' : counts) :
  in_step e ->
  import_rows fk nc st rows (e, c) = Some (e', c') ->
  (rec_name <$> records e) `prefix_of` (rec_name <$> records e')
  /\ (st <> lit "overwrite" -> records e `prefix_of` records e').
Proof.
  revert e c. induction rows as [|r rows IH]; intros e c Hstep;
    cbn [import_rows].
  - by intros [= <- <-].
  - destruct (import_row fk nc st (e, c) r) as [[e1 c1]|] eqn:Hr;
      cbn [mbind option_bind]; [|done].
    apply import_row_keeps in Hr as (Hstep1 & Hn1 & Hr1); [|done].
    intros Hrows. apply IH in Hrows as [Hn2 Hr2]; [|done].
    split; [by etrans|]. intros Hne. etrans; [by apply Hr1|by apply Hr2].
Qed.

End more_import.

(** ** Reading a CSV file *)

Section more_csv.
Import Py db_editor Spec.
Context `{Runtime}.

Lemma row_dict_lookup_absent (hs : list pystr) i (r : list pystr) d k :
  k = [] \/ k ∉ hs ->
  dict_lookup k (row_dict hs i r d) = dict_lookup k d.
Proof.
  revert i d. induction hs as [|k0 hs IH]; intros i d Hk; [done|].
  cbn [row_dict]. rewrite IH.
  - destruct (nonempty k0) eqn:Hn; simpl; [|done].
    rewrite dict_lookup_set. rewrite decide_False; [done|]. intros ->.
    destruct Hk as [->|Hk]; [done|]. apply Hk. by left.
  - destruct Hk as [?|Hk]; [by left|]. right. intros ?. apply Hk. by right.
Qed.

Lemma row_dict_lookup_last (hs : list pystr) i (r : list pystr) d j k :
  hs !! j = Some k -> k <> [] ->
  (forall j', hs !! j' = Some k -> (j' <= j)%nat) ->
  dict_lookup k (row_dict hs i r d)
  = Some (JStr (default [] (r !! (i + j)%nat))).
Proof.
  revert i d j. induction hs as [|k0 hs IH]; intros i d j Hj Hne Hlast;
    [done|].
  cbn [row_dict]. destruct j as [|j].
  - injection Hj as ->. rewrite row_dict_lookup_absent.
    + rewrite (proj2 (nonempty_true _) Hne). simpl.
      rewrite dict_lookup_set, decide_True by done. by rewrite Nat.add_0_r.
    + right. intros (j' & Hj')%list_elem_of_lookup_1.
      specialize (Hlast (S j') Hj'). lia.
  - rewrite (IH (S i) _ j Hj Hne).
    + by replace (i + S j)%nat with (S i + j)%nat by lia.
    + intros j' Hj'. specialize (Hlast (S j') Hj'). lia.
Qed.

Lemma row_dict_keys (hs : list pystr) i (r : list pystr) k :
  is_Some (dict_lookup k (row_dict hs i r [])) <-> k <> [] /\ k ∈ hs.
Proof.
  destruct (decide (k = [])) as [->|Hk].
  - rewrite row_dict_lookup_absent by (by left). simpl.
    split; [by intros [? ?]|by intros [? _]].
  - destruct (decide (k ∈ hs)) as [Hin|Hin].
    + split; [done|]. intros _.
      assert (Hex : exists j, hs !! j = Some k
                              /\ forall j', hs !! j' = Some k -> (j' <= j)%nat).
      { clear -Hin. induction hs as [|k0 hs IH]; [by apply elem_of_nil in Hin|].
        destruct (decide (k ∈ hs)) as [Hin'|Hout].
        - destruct (IH Hin') as (j & Hj & Hlast). exists (S j).
          split; [done|]. intros [|j'] Hj'; [lia|].
          specialize (Hlast j' Hj'). lia.
        - apply elem_of_cons in Hin as [->|?]; [|done]. exists 0%nat.
          split; [done|]. intros [|j'] Hj'; [lia|]. exfalso. apply Hout.
          by eapply list_elem_of_lookup_2. }
      destruct Hex as (j & Hj & Hlast).
      rewrite (row_dict_lookup_last _ _ _ _ j k Hj Hk Hlast). eauto.
    + rewrite row_dict_lookup_absent by (by right). simpl.
      split; [by intros [? ?]|by intros [_ ?]].
Qed.

Lemma read_csv_rows_rest (h r2 : list pystr) (rest : list (list pystr)) :
  read_csv_rows (h :: r2 :: rest)
  = omap (fun r => if any_nonblank r
                   then Some (row_dict (csv_headers_of (strip <$> h)) 0 r [])
                   else None)
      ((fun r : list pystr => strip <$> r) <$> rest).
Proof.
  unfold read_csv_rows. simpl.
  rewrite (fold_left_append _
             (fun r => if any_nonblank r
                       then Some (row_dict (csv_headers_of (strip <$> h)) 0 r [])
                       else None))
    by (intros out x; by destruct (any_nonblank x)).
  simpl. unfold csv_data_rows. simpl.
  destruct (any_nonblank (strip <$> r2)) eqn:E; simpl; [done|].
  by rewrite E.
Qed.

Lemma length_omap_le {X Y} (f : X -> option Y) (l : list X) :
  (length (omap f l) <= length l)%nat.
Proof.
  induction l as [|x l IH]; [done|]. unfold omap in *. cbn [list_omap].
  destruct (f x); simpl; lia.
Qed.

(** X12. No record comes from the first two rows of a CSV file: a file
    without rows, with the header row alone or with one more row gives no
    record, and for a longer file the records are built from the third
    row on, so that they are the same whatever the second row holds. *)
Theorem X12_second_row_never_read (h r2 : list pystr)
    (rest : list (list pystr)) :
  read_csv_rows [] = []
  /\ read_csv_rows [h] = []
  /\ read_csv_rows [h; r2] = []
  /\ (forall r2', read_csv_rows (h :: r2' :: rest)
                  = read_csv_rows (h :: r2 :: rest))
  /\ (length (read_csv_rows (h :: r2 :: rest)) <= length rest)%nat.
Proof.
  split_and!; [done|done| | |].
  - by rewrite read_csv_rows_rest.
  - intros r2'. by rewrite !read_csv_rows_rest.
  - rewrite read_csv_rows_rest. etrans; [apply length_omap_le|].
    by rewrite length_fmap.
Qed.

(** X13. Every record that [read_csv_rows] returns is built from a row,
    past the second, that has a cell that is not blank. Its keys are the
    headers that are not empty. Under a header it holds the trimmed cell of
    the last column with that header, or the empty string when the row is
    too short to have that column; cells past the last header are not in
    it. *)
Theorem X13_csv_record (h : list pystr) (r2 : list pystr)
    (rest : list (list pystr)) (d : dict) :
  d ∈ read_csv_rows (h :: r2 :: rest) ->
  exists row,
    row ∈ rest
    /\ any_nonblank row = true
    /\ (forall k, is_Some (dict_lookup k d)
                  <-> k <> [] /\ k ∈ csv_headers_of (strip <$> h))
    /\ (forall j k,
          csv_headers_of (strip <$> h) !! j = Some k -> k <> [] ->
          (forall j', csv_headers_of (strip <$> h) !! j' = Some k ->
                      (j' <= j)%nat) ->
          dict_lookup k d = Some (JStr (strip (default [] (row !! j))))).
Proof.
  rewrite read_csv_rows_rest. intros (srow & Hin & Hd)%list_elem_of_omap.
  apply list_elem_of_fmap in Hin as (row & -> & Hrow).
  destruct (any_nonblank (strip <$> row)) eqn:Hnb; [|done].
  injection Hd as <-. exists row. split_and!; [done| | |].
  - by rewrite <- any_nonblank_strip.
  - intros k. apply row_dict_keys.
  - intros j k Hj Hk Hlast.
    rewrite (row_dict_lookup_last _ _ _ _ j k Hj Hk Hlast). simpl.
    rewrite list_lookup_fmap. by destruct (row !! j).
Qed.




End more_csv.

(** ** The name lists of linkStart.py *)

Section more_names.
Import Py db_editor Spec.
Context `{Runtime}.

Lemma name_list_from_dedup seen out rs :
  linkStart.name_list_from seen (rec_name <$> out) rs
  = rec_name <$> dedup_from seen out rs.
Proof.
  revert seen out. induction rs as [|r rs IH]; intros seen out; [done|].
  cbn [linkStart.name_list_from dedup_from].
  change (linkStart.name_of r) with (rec_name r).
  destruct (nonempty (rec_name r)); simpl; [|apply IH].
  case_bool_decide; simpl; [apply IH|].
  rewrite <- IH. by rewrite fmap_app.
Qed.

Lemma name_list_apply_records rs :
  linkStart.name_list_from ∅ [] rs = rec_name <$> records (apply_records rs).
Proof. apply (name_list_from_dedup ∅ []). Qed.

Lemma apply_records_complete rs r :
  r ∈ rs -> rec_name r <> [] ->
  rec_name r ∈ (rec_name <$> records (apply_records rs)).
Proof.
  revert r. induction rs as [|x rs IH] using rev_ind; intros r;
    [by intros ?%elem_of_nil|].
  rewrite apply_records_snoc.
  intros [Hr| ->%list_elem_of_singleton]%elem_of_app Hne.
  - case_decide; [rewrite fmap_app, elem_of_app; left|]; by apply IH.
  - case_decide as Hd.
    + rewrite fmap_app, elem_of_app. right. apply list_elem_of_singleton. done.
    + destruct (decide (rec_name x ∈ (rec_name <$> rs))) as [Hin|Hout];
        [|by destruct Hd].
      apply list_elem_of_fmap in Hin as (y & Hy & Hin). rewrite Hy.
      apply IH; [done|]. by rewrite <- Hy.
Qed.

(** X15. The names [load_name_list] returns are the names the editor
    keeps when it loads the same records: the trimmed names of the records
    read, without the blank ones, each once, in the order of their first
    record. *)
Theorem X15_load_name_list (fs : files) (path : pystr) :
  let recs := linkStart.read_json_records fs path in
  let names := linkStart.load_name_list fs path in
  names = rec_name <$> records (apply_records recs)
  /\ NoDup names
  /\ (forall nm,
        nm ∈ names <->
        nm <> [] /\ exists r, r ∈ recs /\ linkStart.name_of r = nm)
  /\ names `sublist_of` (linkStart.name_of <$> recs).
Proof.
  intros recs names. unfold names, linkStart.load_name_list. fold recs.
  rewrite name_list_apply_records. split_and!; [done| | |].
  - apply apply_records_NoDup.
  - intros nm. split.
    + intros (r & -> & Hr)%list_elem_of_fmap. split.
      * by eapply apply_records_nonblank.
      * exists r. split; [|done]. eapply elem_of_sublist; [done|].
        apply apply_records_sublist.
    + intros (Hne & r & Hr & <-). by apply apply_records_complete.
  - apply (fmap_sublist rec_name), apply_records_sublist.
Qed.

Lemma listbox_names_filter rs :
  linkStart.listbox_names rs = List.filter nonempty (rec_name <$> rs).
Proof.
  unfold linkStart.listbox_names.
  rewrite (fold_left_append _
             (fun r => if nonempty (rec_name r) then Some (rec_name r)
                       else None))
    by (intros out x; change (linkStart.name_of x) with (rec_name x);
        by destruct (nonempty (rec_name x))).
  simpl. induction rs as [|r rs IH]; [done|].
  rewrite fmap_cons. cbn [List.filter]. unfold omap in *. cbn [list_omap].
  destruct (nonempty (rec_name r)); by rewrite IH.
Qed.

Lemma find_by_name_first nm rs :
  nm ∈ (rec_name <$> rs) ->
  exists i r,
    rs !! i = Some r /\ rec_name r = nm
    /\ (forall j r', rs !! j = Some r' -> (j < i)%nat -> rec_name r' <> nm)
    /\ linkStart.find_by_name nm rs = Some r.
Proof.
  induction rs as [|x rs IH]; [by intros ?%elem_of_nil|].
  rewrite fmap_cons. intros Hin. cbn [linkStart.find_by_name].
  change (linkStart.name_of x) with (rec_name x).
  destruct (decide (rec_name x = nm)) as [Hx|Hx].
  - exists 0%nat, x. rewrite (proj2 (pystr_eqb_eq _ _) Hx).
    split_and!; [done..| |done]. intros j r' _ Hj. lia.
  - rewrite pystr_eqb_neq by done.
    apply elem_of_cons in Hin as [Hin|Hin]; [done|].
    destruct (IH Hin) as (i & r & Hi & Hr & Hfirst & Hfind).
    exists (S i), r. split_and!; [done..| |done].
    intros [|j] r' Hj Hlt; simpl in Hj.
    + by injection Hj as <-.
    + apply (Hfirst j r' Hj). lia.
Qed.

Lemma named_record_truthy r : rec_name r <> [] -> truthy (JDict r) = true.
Proof. by destruct r. Qed.

(** X16. Every entry of the list box of [SelectDialog] selects a record:
    [on_list_select] finds the first record whose trimmed name is the
    entry, shows its details and enables the button that chooses it. *)
Theorem X16_list_entry_selects (recs : list dict) (nm : pystr) :
  nm ∈ linkStart.listbox_names recs ->
  exists i r,
    recs !! i = Some r
    /\ linkStart.name_of r = nm
    /\ (forall j r', recs !! j = Some r' -> (j < i)%nat ->
          linkStart.name_of r' <> nm)
    /\ linkStart.on_list_select (Some nm) recs = Some r
    /\ linkStart.choose_enabled (Some r) = true
    /\ linkStart.show_detail (Some r) = linkStart.detail_text r.
Proof.
  rewrite listbox_names_filter, elem_of_list_filter_bool.
  intros [Hin Hne%nonempty_true].
  destruct (find_by_name_first nm recs Hin) as (i & r & Hi & Hr & Hfirst & Hf).
  exists i, r. split_and!; [done..| |].
  - simpl. apply named_record_truthy. by rewrite Hr.
  - unfold linkStart.show_detail. rewrite named_record_truthy; [done|].
    by rewrite Hr.
Qed.

Lemma linkStart_read_json_records_text (fs : files) (path text : pystr) :
  linkStart._try_read_text fs path = Some text ->
  linkStart.read_json_records fs path = linkStart.records_of_text text.
Proof.
  intros Ht. unfold linkStart.read_json_records. rewrite Ht.
  rewrite linkStart_try_read_text in Ht.
  apply try_read_text_with_Some in Ht as [Hs Hn].
  rewrite bool_decide_eq_true_2 by done. simpl. by rewrite Hn.
Qed.

(** X17. When the text of the file parses as one JSON document, the
    records [read_json_records] returns have trimmed names that are not
    blank and pairwise distinct, so that the list box of [SelectDialog]
    shows the names of all of them, and shows the very list that
    [load_name_list] puts in the drop-down. *)
Theorem X17_list_box_is_drop_down (fs : files) (path text : pystr) :
  linkStart._try_read_text fs path = Some text ->
  is_Some (json_loads text) ->
  let recs := linkStart.read_json_records fs path in
  NoDup (linkStart.name_of <$> recs)
  /\ (forall r, r ∈ recs -> linkStart.name_of r <> [])
  /\ linkStart.listbox_names recs = linkStart.name_of <$> recs
  /\ linkStart.load_name_list fs path = linkStart.listbox_names recs.
Proof.
  intros Ht [data Hd] recs.
  assert (Hrecs : recs = records (apply_records (linkStart.records_of_data data))).
  { unfold recs. rewrite (linkStart_read_json_records_text _ _ _ Ht).
    unfold linkStart.records_of_text. rewrite Hd.
    apply linkStart_dedup_from. }
  assert (Hnd : NoDup (rec_name <$> recs))
    by (rewrite Hrecs; apply apply_records_NoDup).
  assert (Hnb : forall r, r ∈ recs -> rec_name r <> [])
    by (rewrite Hrecs; apply apply_records_nonblank).
  assert (Hbox : linkStart.listbox_names recs = rec_name <$> recs).
  { rewrite listbox_names_filter. clear -Hnb.
    induction recs as [|r rs IH]; [done|]. rewrite fmap_cons. cbn [List.filter].
    rewrite (proj2 (nonempty_true _)) by (apply Hnb; by left).
    rewrite IH; [done|]. intros r' Hr'. apply Hnb. by right. }
  split_and!; [done..|].
  unfold linkStart.load_name_list. fold recs.
  rewrite name_list_apply_records, apply_records_id by done. by rewrite Hbox.
Qed.

Lemma kept_choice_listed cur names :
  linkStart.kept_choice cur names ∈ names
  \/ (names = [] /\ linkStart.kept_choice cur names = []).
Proof.
  unfold linkStart.kept_choice. case_bool_decide; [by left|].
  destruct names; [by right|]. left. by left.
Qed.

Lemma kept_choice_idemp cur names :
  linkStart.kept_choice (linkStart.kept_choice cur names) names
  = linkStart.kept_choice cur names.
Proof.
  destruct (kept_choice_listed cur names) as [Hin|[-> ->]]; [|done].
  unfold linkStart.kept_choice at 1. by rewrite bool_decide_eq_true_2.
Qed.

Lemma kept_choice_stripped (fs : files) (path cur : pystr) :
  let v := linkStart.kept_choice cur (linkStart.load_name_list fs path) in
  strip v = v.
Proof.
  intros v.
  destruct (kept_choice_listed cur (linkStart.load_name_list fs path))
    as [Hin|[_ Hv]]; [|fold v in Hv; by rewrite Hv].
  fold v in Hin. unfold linkStart.load_name_list in Hin.
  rewrite name_list_apply_records in Hin.
  apply list_elem_of_fmap in Hin as (r & -> & _). apply strip_idemp.
Qed.

(** X18. [refresh_dropdowns] keeps a choice that is still listed and
    replaces any other by the first name listed, or by the empty string
    when nothing is listed. Afterwards each of the three choices is a name
    of its list or, the list being empty, the empty string; it has no
    white space around it; and a second refresh from the same files
    changes nothing. *)
Theorem X18_refresh_dropdowns (rj cj bj : pystr) (fs : files)
    (f : linkStart.form) :
  let chosen cur path :=
    linkStart.kept_choice cur (linkStart.load_name_list fs path) in
  let f' := linkStart.refresh_dropdowns rj cj bj fs f in
  (forall cur path,
     (cur ∈ linkStart.load_name_list fs path -> chosen cur path = cur)
     /\ (cur ∉ linkStart.load_name_list fs path ->
         chosen cur path = default [] (head (linkStart.load_name_list fs path)))
     /\ (chosen cur path ∈ linkStart.load_name_list fs path
         \/ (linkStart.load_name_list fs path = [] /\ chosen cur path = []))
     /\ strip (chosen cur path) = chosen cur path)
  /\ f' = {| linkStart.var_name := linkStart.var_name f;
             linkStart.var_player := linkStart.var_player f;
             linkStart.var_race := chosen (linkStart.var_race f) rj;
             linkStart.var_class := chosen (linkStart.var_class f) cj;
             linkStart.var_background :=
               chosen (linkStart.var_background f) bj |}
  /\ linkStart.refresh_dropdowns rj cj bj fs f' = f'.
Proof.
  intros chosen f'. split_and!; [|done|].
  - intros cur path. unfold chosen. split_and!.
    + intros Hin. unfold linkStart.kept_choice.
      by rewrite bool_decide_eq_true_2.
    + intros Hout. unfold linkStart.kept_choice.
      rewrite bool_decide_eq_false_2 by done.
      by destruct (linkStart.load_name_list fs path).
    + apply kept_choice_listed.
    + apply kept_choice_stripped.
  - unfold f', linkStart.refresh_dropdowns. simpl.
    by rewrite !kept_choice_idemp.
Qed.

End more_names.

(** ** The dialogs of linkStart.py *)

Section more_dialogs.
Import Py db_editor Spec.
Context `{Runtime} `{Platform}.

Lemma remove_first_perm k keys :
  k ∈ keys -> keys ≡ₚ k :: linkStart.remove_first k keys.
Proof.
  induction keys as [|x keys IH]; [by intros ?%elem_of_nil|].
  cbn [linkStart.remove_first]. destruct (decide (x = k)) as [->|Hx].
  - by rewrite pystr_eqb_refl.
  - rewrite pystr_eqb_neq by done. intros [?|Hin]%elem_of_cons; [done|].
    rewrite (IH Hin) at 1. apply perm_swap.
Qed.

Lemma remove_first_others k keys :
  filter (fun x => x <> k) (linkStart.remove_first k keys)
  = filter (fun x => x <> k) keys.
Proof.
  induction keys as [|x keys IH]; [done|]. cbn [linkStart.remove_first].
  destruct (decide (x = k)) as [->|Hx].
  - rewrite pystr_eqb_refl. rewrite filter_cons_False; [done|].
    intros Hk. by apply Hk.
  - rewrite pystr_eqb_neq by done. rewrite !filter_cons_True by done.
    by rewrite IH.
Qed.

(** X19. [show_detail] shows the fixed text for no record and for a record
    without keys. For any other record it shows one line for each key: the
    keys of the record, each as often as the record has it, with the name
    key moved to the front when the record has one and the other keys in
    the order of the record. *)
Theorem X19_show_detail (rec : dict) :
  linkStart.show_detail None = linkStart.unselected
  /\ linkStart.show_detail (Some []) = linkStart.unselected
  /\ (rec <> [] ->
      linkStart.show_detail (Some rec)
      = linkStart.join_lines
          ((fun k => k ++ [65306] ++ py_str (dict_get k (JStr []) rec))
             <$> linkStart.detail_keys rec))
  /\ linkStart.detail_keys rec ≡ₚ rec.*1
  /\ (k_name ∈ rec.*1 -> head (linkStart.detail_keys rec) = Some k_name)
  /\ filter (fun k => k <> k_name) (linkStart.detail_keys rec)
     = filter (fun k => k <> k_name) rec.*1
  /\ (k_name ∉ rec.*1 -> linkStart.detail_keys rec = rec.*1).
Proof.
  split_and!; [done|done| | | | |].
  - intros Hne. unfold linkStart.show_detail. by destruct rec.
  - unfold linkStart.detail_keys. case_bool_decide as Hn; [|done].
    symmetry. by apply remove_first_perm.
  - intros Hn. unfold linkStart.detail_keys.
    by rewrite bool_decide_eq_true_2.
  - unfold linkStart.detail_keys. case_bool_decide as Hn; [|done].
    rewrite filter_cons_False by (intros Hk; by apply Hk).
    apply remove_first_others.
  - intros Hn. unfold linkStart.detail_keys.
    by rewrite bool_decide_eq_false_2.
Qed.

Lemma browser_columns_from_spec (seen : gset pystr) (cols keys : list pystr) :
  (forall k, k ∈ seen <-> k ∈ cols) -> NoDup cols ->
  let sc := linkStart.browser_columns_from seen cols keys in
  (forall k, k ∈ sc.1 <-> k ∈ sc.2)
  /\ NoDup sc.2
  /\ cols `prefix_of` sc.2
  /\ forall k, k ∈ sc.2 <-> k ∈ cols \/ k ∈ keys.
Proof.
  revert seen cols. induction keys as [|x keys IH]; intros seen cols Hs Hnd.
  - simpl. split_and!; [done..|]. intros k. rewrite elem_of_nil. tauto.
  - cbn [linkStart.browser_columns_from]. case_bool_decide as Hx.
    + destruct (IH seen cols Hs Hnd) as (H1 & H2 & H3 & H4).
      split_and!; [done..|]. intros k. rewrite H4, elem_of_cons.
      split; [tauto|]. intros [?|[->|?]]; [tauto| |tauto]. left. by apply Hs.
    + destruct (IH ({[x]} ∪ seen) (cols ++ [x])) as (H1 & H2 & H3 & H4).
      * intros k. rewrite elem_of_union, elem_of_singleton, elem_of_app,
          list_elem_of_singleton, Hs. tauto.
      * apply NoDup_app. split_and!; [done| |apply NoDup_singleton].
        intros k Hk ->%list_elem_of_singleton. apply Hx. by apply Hs.
      * split_and!; [done..| |].
        -- etrans; [|done]. by apply prefix_app_r.
        -- intros k. rewrite H4, elem_of_app, list_elem_of_singleton,
             elem_of_cons. tauto.
Qed.

Lemma browser_fold_spec (recs : list dict) (sc : gset pystr * list pystr) :
  (forall k, k ∈ sc.1 <-> k ∈ sc.2) -> NoDup sc.2 ->
  let sc' :=
    fold_left (fun sc r => linkStart.browser_columns_from sc.1 sc.2 r.*1)
      recs sc in
  (forall k, k ∈ sc'.1 <-> k ∈ sc'.2)
  /\ NoDup sc'.2
  /\ sc.2 `prefix_of` sc'.2
  /\ forall k, k ∈ sc'.2 <-> k ∈ sc.2 \/ exists r, r ∈ recs /\ k ∈ r.*1.
Proof.
  revert sc. induction recs as [|r recs IH]; intros sc Hs Hnd.
  - simpl. split_and!; [done..|]. intros k. split; [tauto|].
    intros [?|(r & Hr & _)]; [done|]. by apply elem_of_nil in Hr.
  - cbn [fold_left].
    destruct (browser_columns_from_spec sc.1 sc.2 r.*1 Hs Hnd)
      as (H1 & H2 & H3 & H4).
    destruct (IH _ H1 H2) as (G1 & G2 & G3 & G4).
    split_and!; [done..| |].
    + by etrans.
    + intros k. rewrite G4, H4. split.
      * intros [[?|Hk]|(r' & Hr' & Hk)]; [by left| |].
        -- right. exists r. split; [by left|done].
        -- right. exists r'. split; [by right|done].
      * intros [?|(r' & [->|Hr']%elem_of_cons & Hk)]; [tauto|tauto|].
        right. by exists r'.
Qed.

(** X20. The columns of a tab of [DataBrowser] are the keys of the records
    read, each once; the keys of earlier records come first, so that
    records added at the end of the file only add columns at the end.
    Every line of the table has one cell for each column, the value of the
    record under that key or the empty string when it has none. *)
Theorem X20_browser_columns (recs : list dict) :
  let cols := linkStart.browser_columns recs in
  NoDup cols
  /\ (forall k, k ∈ cols <-> exists r, r ∈ recs /\ k ∈ r.*1)
  /\ (forall more, cols `prefix_of` linkStart.browser_columns (recs ++ more))
  /\ (forall r, length (linkStart.browser_row cols r) = length cols)
  /\ (forall r i c,
        cols !! i = Some c ->
        linkStart.browser_row cols r !! i
        = Some (default (JStr []) (dict_lookup c r))).
Proof.
  intros cols. unfold cols, linkStart.browser_columns.
  assert (He : forall k : pystr, k ∈ (∅ : gset pystr) <-> k ∈ ([] : list pystr)).
  { intros k. rewrite elem_of_empty, elem_of_nil. tauto. }
  destruct (browser_fold_spec recs (∅, []) He (NoDup_nil_2 (A := pystr)))
    as (H1 & H2 & _ & H4).
  split_and!; [done| | | |].
  - intros k. rewrite H4. simpl. rewrite elem_of_nil. tauto.
  - intros more. rewrite fold_left_app.
    by destruct (browser_fold_spec more _ H1 H2) as (_ & _ & ? & _).
  - intros r. unfold linkStart.browser_row. by rewrite length_fmap.
  - intros r i c Hi. unfold linkStart.browser_row.
    rewrite list_lookup_fmap, Hi. done.
Qed.

Lemma lstrip_by_suffix p s : lstrip_by p s `suffix_of` s.
Proof.
  induction s as [|c s IH]; simpl; [done|].
  destruct (p c); [by apply suffix_cons_r|done].
Qed.

Lemma rstrip_by_prefix p s : rstrip_by p s `prefix_of` s.
Proof.
  unfold rstrip_by. destruct (lstrip_by_suffix p (rev s)) as [k Hk].
  exists (rev k). rewrite <- rev_app_distr, <- Hk. by rewrite rev_involutive.
Qed.

Lemma list_filter_Forall {X} (f : X -> bool) (l : list X) :
  Forall (fun x => f x = true) (List.filter f l).
Proof.
  apply Forall_forall. intros x Hx.
  by apply elem_of_list_filter_bool in Hx as [_ ?].
Qed.

Lemma list_filter_all {X} (f : X -> bool) (l : list X) :
  Forall (fun x => f x = true) l -> List.filter f l = l.
Proof.
  induction 1 as [|x l Hx _ IH]; simpl; [done|]. by rewrite Hx, IH.
Qed.

(** X21. The file name [save_character] derives from a name is never
    empty and never ends in white space. It is [Unnamed], or it is made of
    characters of the name, in their order, each of them alphanumeric, a
    space, an underscore or a hyphen. A name that is not empty, is made of
    such characters and does not end in white space is its own file
    name. *)
Theorem X21_safe_name (name : pystr) :
  let allowed c := isalnum c || (c =? 32) || (c =? 95) || (c =? 45) in
  linkStart.safe_name name <> []
  /\ head_kept isspace (rev (linkStart.safe_name name))
  /\ (linkStart.safe_name name = lit "Unnamed"
      \/ (Forall (fun c => allowed c = true) (linkStart.safe_name name)
          /\ linkStart.safe_name name `sublist_of` name))
  /\ (name <> [] -> Forall (fun c => allowed c = true) name ->
      head_kept isspace (rev name) -> linkStart.safe_name name = name).
Proof.
  intros allowed. unfold linkStart.safe_name. fold allowed.
  split_and!.
  - destruct (nonempty _) eqn:Hn; [by apply nonempty_true in Hn|done].
  - destruct (nonempty _) eqn:Hn; [apply rstrip_by_last_kept|done].
  - destruct (nonempty _) eqn:Hn; [right|by left].
    destruct (rstrip_by_prefix isspace (List.filter allowed name)) as [k Hk].
    split.
    + pose proof (list_filter_Forall allowed name) as Hall.
      rewrite Hk in Hall. by apply Forall_app in Hall as [? _].
    + transitivity (List.filter allowed name); [|apply list_filter_sublist].
      remember (rstrip_by isspace (List.filter allowed name)) as kept.
      rewrite Hk. by apply sublist_inserts_r.
  - intros Hne Hall Hlast. rewrite (list_filter_all _ _ Hall).
    rewrite (rstrip_by_fixed _ _ Hlast).
    by rewrite (proj2 (nonempty_true _) Hne).
Qed.

Lemma updated_model_lookup (f : linkStart.form) (model : dict) k :
  dict_lookup k (linkStart.updated_model f model)
  = if decide (k = lit "background")
    then Some (JStr (strip (linkStart.var_background f)))
    else if decide (k = lit "class")
    then Some (JStr (strip (linkStart.var_class f)))
    else if decide (k = lit "race")
    then Some (JStr (strip (linkStart.var_race f)))
    else if decide (k = lit "player")
    then Some (JStr (strip (linkStart.var_player f)))
    else if decide (k = k_name)
    then Some (JStr (strip (linkStart.var_name f)))
    else dict_lookup k model.
Proof. unfold linkStart.updated_model. by rewrite !dict_lookup_set. Qed.

(** X22. [save_character] with a blank name changes neither the model nor
    the files. With any other name it stores the five trimmed values of
    the form in the model, whose other keys keep their values, also when
    the user declines to overwrite, in which case no file changes. Whatever
    happens, a write that raises included, it leaves alone every file but
    the one of the character; and when it reports the save as done that
    file holds the encoded text of the model. *)
Theorem X22_save_character (char_dir : pystr) (f : linkStart.form)
    (overwrite : bool) (partial : list N) (model : dict) (fs : files) :
  let path := linkStart.character_path char_dir f in
  let model' := linkStart.updated_model f model in
  let saved :=
    linkStart.save_character char_dir f overwrite partial model fs in
  (strip (linkStart.var_name f) = [] -> saved = (model, fs, false))
  /\ (strip (linkStart.var_name f) <> [] -> saved.1.1 = model')
  /\ (strip (linkStart.var_name f) <> [] -> is_Some (fs !! path) ->
      linkStart.save_character char_dir f false partial model fs
      = (model', fs, false))
  /\ (forall p, p <> path -> saved.1.2 !! p = fs !! p)
  /\ (saved.2 = true ->
      exists text bytes,
        json_dump (JDict model') = Some text
        /\ utf8_encode text = Some bytes
        /\ saved.1.2 !! path = Some bytes)
  /\ dict_lookup k_name model' = Some (JStr (strip (linkStart.var_name f)))
  /\ dict_lookup (lit "player") model'
     = Some (JStr (strip (linkStart.var_player f)))
  /\ dict_lookup (lit "race") model'
     = Some (JStr (strip (linkStart.var_race f)))
  /\ dict_lookup (lit "class") model'
     = Some (JStr (strip (linkStart.var_class f)))
  /\ dict_lookup (lit "background") model'
     = Some (JStr (strip (linkStart.var_background f)))
  /\ (forall k,
        k ∉ [k_name; lit "player"; lit "race"; lit "class"; lit "background"] ->
        dict_lookup k model' = dict_lookup k model).
Proof.
  intros path model' saved. unfold saved, linkStart.save_character.
  fold path model'. split_and!.
  - intros ->. done.
  - intros Hn%nonempty_true. rewrite Hn. simpl.
    destruct (bool_decide _ && negb overwrite); [done|].
    destruct (negb (can_write path)); [done|].
    by destruct (json_dump (JDict model') ≫= utf8_encode).
  - intros Hn%nonempty_true Hp. rewrite Hn. simpl.
    by rewrite bool_decide_eq_true_2.
  - intros p Hp. destruct (nonempty (strip (linkStart.var_name f))); [|done].
    simpl. destruct (bool_decide _ && negb overwrite); [done|].
    destruct (negb (can_write path)); [done|].
    destruct (json_dump (JDict model') ≫= utf8_encode); simpl;
      by rewrite lookup_insert_ne.
  - destruct (nonempty (strip (linkStart.var_name f))); [|done].
    simpl. destruct (bool_decide _ && negb overwrite); [done|].
    destruct (negb (can_write path)); [done|].
    destruct (json_dump (JDict model')) as [text|]; simpl; [|done].
    destruct (utf8_encode text) as [bytes|] eqn:He; simpl; [|done].
    intros _. exists text, bytes. by rewrite lookup_insert_eq.
  - unfold model'. by rewrite updated_model_lookup.
  - unfold model'. by rewrite updated_model_lookup.
  - unfold model'. by rewrite updated_model_lookup.
  - unfold model'. by rewrite updated_model_lookup.
  - unfold model'. by rewrite updated_model_lookup.
  - intros k Hk. unfold model'. rewrite updated_model_lookup.
    rewrite !not_elem_of_cons in Hk. destruct Hk as (? & ? & ? & ? & ? & _).
    by rewrite !decide_False by done.
Qed.

(** X23. A character that has been saved can be read back: when the name
    is not blank, the file can be written, the user agrees to overwrite a
    file that exists, and the library reads back the document it writes,
    [save_character] writes the file of the character and reports the
    save as done, and [load_character] on that file replaces the model,
    whatever it is, by the model that was saved. The path that the
    platform joins is taken not to be empty. *)
Theorem X23_save_then_load (char_dir : pystr) (f : linkStart.form)
    (overwrite : bool) (partial : list N) (model : dict) (fs : files) :
  let path := linkStart.character_path char_dir f in
  let model' := linkStart.updated_model f model in
  strip (linkStart.var_name f) <> [] ->
  path <> [] ->
  can_write path = true ->
  (is_Some (fs !! path) -> overwrite = true) ->
  utf8_round_trip (JDict model') ->
  exists fs',
    linkStart.save_character char_dir f overwrite partial model fs
    = (model', fs', true)
    /\ is_Some (fs' !! path)
    /\ forall model0,
         linkStart.load_character (Some path) model0 fs' = model'.
Proof.
  intros path model' Hn%nonempty_true Hp%nonempty_true Hw Hov
    (text & bytes & Hd & He & Hb & Hl).
  exists (<[path := bytes]> fs). unfold linkStart.save_character.
  fold path model'. rewrite Hn, Hw, Hd. simpl. rewrite He. simpl.
  split_and!.
  - destruct (bool_decide (is_Some (fs !! path))) eqn:Hex; simpl; [|done].
    apply bool_decide_eq_true in Hex. by rewrite (Hov Hex).
  - rewrite lookup_insert_eq. eauto.
  - intros model0. unfold linkStart.load_character. rewrite Hp.
    rewrite lookup_insert_eq. simpl. rewrite Hb. simpl. by rewrite Hl.
Qed.

End more_dialogs.

(** ** The shapes of a JSON document *)

Section more_shapes.
Import Py db_editor Spec.
Context `{Runtime}.

Lemma fold_left_append_in {A B} (g : list B -> A -> list B)
    (f : A -> option B) l acc :
  (forall out x, x ∈ l ->
     g out x = match f x with Some y => out ++ [y] | None => out end) ->
  fold_left g l acc = acc ++ omap f l.
Proof.
  revert acc. induction l as [|x l IH]; intros acc Hg; simpl.
  - by rewrite app_nil_r.
  - rewrite IH by (intros out y Hy; apply Hg; by right).
    rewrite Hg by (by left). unfold omap. destruct (f x); simpl; [|done].
    by rewrite <- app_assoc.
Qed.

Lemma norm_one_name_value k v :
  norm_one (JDict [(k_name, JStr k); (k_value, v)]) JNull
  = if nonempty k then Some [(k_name, JStr k); (k_value, denull v)] else None.
Proof.
  unfold norm_one.
  assert (Hc : fold_left copy_entry [(k_name, JStr k); (k_value, v)] []
               = [(k_name, JStr k); (k_value, denull v)]) by done.
  rewrite Hc. done.
Qed.

Lemma normalize_record_name_value k v :
  linkStart._normalize_record (JDict [(k_name, JStr k); (k_value, v)]) JNull
  = if nonempty k then Some [(k_name, JStr k); (k_value, denull v)] else None.
Proof.
  unfold linkStart._normalize_record.
  assert (Hc : fold_left linkStart.copy_entry
                 [(k_name, JStr k); (k_value, v)] []
               = [(k_name, JStr k); (k_value, denull v)]) by done.
  rewrite Hc. by destruct k.
Qed.

(** X24. A document that is a mapping without a list under [items], and
    whose values are not mappings, is read as a table of names: every
    entry with a key that is not empty gives the record with that key as
    name and the value, [None] replaced by the empty string, under
    [value]; the records come in the order of the entries, and both
    readers build the same ones. *)
Theorem X24_name_table (d : dict) :
  (forall l, dict_get k_items JNull d <> JList l) ->
  Forall (fun kv : pystr * json => forall items, kv.2 <> JDict items) d ->
  let entry (kv : pystr * json) :=
    if nonempty kv.1 then Some [(k_name, JStr kv.1); (k_value, denull kv.2)]
    else None in
  records_of_data (JDict d) = omap entry d
  /\ linkStart.records_of_data (JDict d) = omap entry d.
Proof.
  intros Hitems Hval entry. rewrite Forall_forall in Hval. split.
  - unfold records_of_data.
    destruct (dict_get k_items JNull d) as [| | | | |l|] eqn:E;
      try (by destruct (Hitems l));
      (rewrite (fold_left_append_in _ entry); [done|]; intros out kv Hkv;
       specialize (Hval kv Hkv); unfold entry;
       destruct kv.2 as [| | | | | |items] eqn:Ev;
       try (by destruct (Hval items));
       rewrite norm_one_name_value; by destruct (nonempty kv.1)).
  - unfold linkStart.records_of_data.
    destruct (dict_get k_items JNull d) as [| | | | |l|] eqn:E;
      try (by destruct (Hitems l));
      (rewrite (fold_left_append_in _ entry); [done|]; intros out kv Hkv;
       specialize (Hval kv Hkv); unfold entry;
       destruct kv.2 as [| | | | | |items] eqn:Ev;
       try (by destruct (Hval items));
       rewrite normalize_record_name_value; by destruct (nonempty kv.1)).
Qed.

End more_shapes.

(** ** Instances of the further properties *)

Section more_witnesses.
Import Py db_editor Spec Examples.
#[local] Existing Instance Ref.runtime.
#[local] Existing Instance Ref.platform.

Lemma X1_witness :
  try_read_text races_files races_path = Some races_text
  /\ read_json_list races_files races_path = records_of_text races_text.
Proof.
  apply (proj2 (proj2 (proj2 (X1_try_read_text races_files races_path)))
           (default [] (utf8_encode races_text)) [] (lit "utf-8-sig")
           [lit "utf-8"; lit "gbk"; lit "big5"; lit "ansi"; lit "iso-8859-1";
            lit "latin1"]).
  - by vm_compute.
  - reflexivity.
  - by vm_compute.
  - by_compute.
  - intros enc' t' Hin. by apply elem_of_nil in Hin.
Defined.

Lemma X3_witness :
  in_step races
  /\ exists r,
       on_select (Some (Ref.u "精灵")) races = Some r
       /\ r ∈ records races /\ rec_name r = Ref.u "精灵".
Proof.
  split; [reflexivity|].
  apply (proj1 (X3_listed_names_select (H0 := Ref.platform) (lit " ") races
                  eq_refl)).
  by_compute.
Defined.

Lemma X6_witness :
  in_step races
  /\ exists i r,
       2 <= i
       /\ dup_item (Some (Ref.u "人类")) races
          = Some (with_records
                    (records races
                     ++ [dict_set k_name (JStr (copy_name (Ref.u "人类") i)) r])).
Proof.
  split; [reflexivity|].
  destruct (proj2 (proj2 (X6_dup_item races eq_refl)) (Ref.u "人类") 0%nat)
    as (i & r & _ & _ & Hle & _ & _ & Hdup & _).
  - by vm_compute.
  - exists i, r. split; [exact Hle|exact Hdup].
Defined.

Lemma X7_witness :
  distinct_names races
  /\ exists e',
       del_item (Some (Ref.u "人类")) true races = Some e'
       /\ records e' = delete 0%nat (records races).
Proof.
  assert (Hd : distinct_names races) by (by_compute).
  split; [exact Hd|].
  destruct (proj2 (proj2 (X7_del_item races Hd)) (Ref.u "人类") 0%nat)
    as (e' & Hdel & Hrec & _).
  - by vm_compute.
  - exists e'. split; [exact Hdel|exact Hrec].
Defined.

Lemma X8_witness :
  distinct_names races
  /\ index races !! Ref.u "人类" = Some 0%nat
  /\ exists e',
       save_current_item race_fields (Some (Ref.u "人类")) human_row races
       = Some e'
       /\ records e' = <[0%nat := human_row]> (records races).
Proof.
  assert (Hd : distinct_names races) by (by_compute).
  assert (Hi : index races !! Ref.u "人类" = Some 0%nat) by (by vm_compute).
  split_and!; [exact Hd|exact Hi|].
  pose proof (X8_save_current_item race_fields human_row races
                (Ref.u "人类") 0%nat Hd Hi) as Hx.
  cbv zeta in Hx. destruct Hx as [_ Hx].
  destruct Hx as (e' & Hsave & Hrec & _).
  - by vm_compute.
  - by vm_compute.
  - intros [Hne _]. by apply Hne.
  - exists e'. split; [exact Hsave|exact Hrec].
Defined.

Lemma X10_witness :
  in_step races
  /\ policy (lit "skip")
  /\ exists e' c',
       import_rows [k_name; lit "desc"] k_name (lit "skip")
         [human_row; human_row] (races, no_counts)
       = Some (e', c')
       /\ total c' = total no_counts + 2.
Proof.
  assert (Hp : policy (lit "skip")) by (right; by left).
  split_and!; [reflexivity|exact Hp|].
  destruct (X10_import_counts [k_name; lit "desc"] k_name (lit "skip")
              [human_row; human_row] races no_counts eq_refl Hp)
    as (e' & c' & Hrun & _ & Htot & _).
  exists e', c'. split; [exact Hrun|exact Htot].
Defined.

Lemma X11_witness :
  let e' :=
    with_records
      [human; elf;
       [(k_name, JStr (Ref.u "人类 (2)")); (lit "desc", JStr (Ref.u "新"))]] in
  let c' := {| added := 0; updated := 0; skipped := 0; renamed := 1 |} in
  in_step races
  /\ import_rows [k_name; lit "desc"] k_name (lit "rename") [human_row]
       (races, no_counts)
     = Some (e', c')
  /\ (rec_name <$> records races) `prefix_of` (rec_name <$> records e').
Proof.
  intros e' c'.
  assert (Hrun : import_rows [k_name; lit "desc"] k_name (lit "rename")
                   [human_row] (races, no_counts)
                 = Some (e', c')) by (by vm_compute).
  split_and!; [reflexivity|exact Hrun|].
  exact (proj1 (X11_import_keeps_existing _ _ _ _ races e' no_counts c'
                  eq_refl Hrun)).
Defined.

Lemma X13_witness :
  let d : dict :=
    [(lit "name", JStr (lit "Human")); (lit "desc", JStr (lit "versatile"))] in
  d ∈ read_csv_rows races_csv
  /\ read_csv_rows races_csv
     = [d; [(lit "name", JStr (lit "Elf")); (lit "desc", JStr (lit ""))]]
  /\ exists row,
       row ∈ [[lit " Human "; lit "versatile"; lit "dropped"];
              [lit ""; lit "  "; lit ""];
              [lit "Elf"]]
       /\ any_nonblank row = true
       /\ dict_lookup (lit "desc") d
          = Some (JStr (strip (default [] (row !! 1%nat)))).
Proof.
  intros d.
  assert (Hrows : read_csv_rows races_csv
                  = [d; [(lit "name", JStr (lit "Elf"));
                         (lit "desc", JStr (lit ""))]]) by (by vm_compute).
  assert (Hin : d ∈ read_csv_rows races_csv) by (rewrite Hrows; by left).
  split_and!; [exact Hin|exact Hrows|].
  destruct (X13_csv_record _ _ _ d Hin) as (row & Hrow & Hnb & _ & Hcell).
  exists row. split_and!; [exact Hrow|exact Hnb|].
  apply (Hcell 1%nat (lit "desc")).
  - by vm_compute.
  - by_compute.
  - intros j' Hj'. destruct j' as [|[|[|j']]]; [lia|lia|by vm_compute in Hj'|].
    by vm_compute in Hj'.
Defined.

Lemma X16_witness :
  Ref.u "精灵" ∈ linkStart.listbox_names [human; elf; elf]
  /\ linkStart.on_list_select (Some (Ref.u "精灵")) [human; elf; elf]
     = Some elf.
Proof.
  assert (Hin : Ref.u "精灵" ∈ linkStart.listbox_names [human; elf; elf])
    by (by_compute).
  split; [exact Hin|].
  destruct (X16_list_entry_selects [human; elf; elf] (Ref.u "精灵") Hin)
    as (i & r & _ & _ & _ & Hsel & _).
  rewrite Hsel. by vm_compute in Hsel.
Defined.

Lemma X17_witness :
  linkStart._try_read_text races_files races_path = Some races_text
  /\ is_Some (json_loads races_text)
  /\ linkStart.load_name_list races_files races_path
     = linkStart.listbox_names
         (linkStart.read_json_records races_files races_path)
  /\ linkStart.load_name_list races_files races_path = [lit "Human"; lit "Elf"].
Proof.
  assert (Ht : linkStart._try_read_text races_files races_path
               = Some races_text) by (by vm_compute).
  assert (Hj : is_Some (json_loads races_text))
    by (eexists; vm_compute; reflexivity).
  split_and!; [exact Ht|exact Hj| |by vm_compute].
  exact (proj2 (proj2 (proj2 (X17_list_box_is_drop_down races_files races_path
                                races_text Ht Hj)))).
Defined.

Lemma X22_witness :
  let saved :=
    linkStart.save_character (lit "characters") ghost true (lit "{")
      [] races_files in
  races_path <> linkStart.character_path (lit "characters") ghost
  /\ saved.2 = false
  /\ saved.1.2 !! linkStart.character_path (lit "characters") ghost
     = Some (lit "{")
  /\ saved.1.2 !! races_path = races_files !! races_path.
Proof.
  intros saved.
  assert (Hp : races_path <> linkStart.character_path (lit "characters") ghost)
    by (by_compute).
  split_and!; [exact Hp|by vm_compute|by vm_compute|].
  exact (proj1 (proj2 (proj2 (proj2
           (X22_save_character (H := Ref.runtime) (H0 := Ref.platform)
              (lit "characters") ghost true (lit "{") [] races_files))))
           races_path Hp).
Defined.

Lemma X23_witness :
  let path := linkStart.character_path (lit "characters") hero in
  let model' := linkStart.updated_model hero [(lit "level", JInt 3)] in
  path = lit "characters/Aria Swift.json"
  /\ strip (linkStart.var_name hero) <> []
  /\ can_write path = true
  /\ utf8_round_trip (JDict model')
  /\ exists fs',
       linkStart.save_character (lit "characters") hero true []
         [(lit "level", JInt 3)] ∅
       = (model', fs', true)
       /\ linkStart.load_character (Some path) [] fs' = model'.
Proof.
  intros path model'.
  assert (Hn : strip (linkStart.var_name hero) <> []) by (by_compute).
  assert (Hp : path <> []) by (by_compute).
  assert (Hl : utf8_round_trip (JDict model')).
  { eexists _, _. split_and!.
    - vm_compute. reflexivity.
    - vm_compute. reflexivity.
    - by vm_compute.
    - by vm_compute. }
  split_and!; [by vm_compute|exact Hn|reflexivity|exact Hl|].
  destruct (X23_save_then_load (H := Ref.runtime) (H0 := Ref.platform)
              (lit "characters") hero true [] [(lit "level", JInt 3)] ∅
              Hn Hp eq_refl (fun _ => eq_refl) Hl)
    as (fs' & Hsave & _ & Hload).
  exists fs'. split; [exact Hsave|exact (Hload [])].
Defined.

Lemma X24_witness :
  (forall l, dict_get k_items JNull name_table <> JList l)
  /\ Forall (fun kv : pystr * json => forall items, kv.2 <> JDict items)
       name_table
  /\ records_of_data (JDict name_table)
     = [[(k_name, JStr (lit "Elf")); (k_value, JStr (lit "graceful"))];
        [(k_name, JStr (lit "Human")); (k_value, JStr [])]].
Proof.
  assert (Hi : forall l, dict_get k_items JNull name_table <> JList l)
    by (intros l; by vm_compute).
  assert (Hv : Forall (fun kv : pystr * json =>
                         forall items, kv.2 <> JDict items) name_table)
    by (repeat constructor; intros items; by simpl).
  split_and!; [exact Hi|exact Hv|].
  rewrite (proj1 (X24_name_table name_table Hi Hv)). by vm_compute.
Defined.

End more_witnesses.
